(** * The Amazon product scraper of [server.js]: field extraction and the
      [/api/scrape] route, embedded and checked against its specification.

    Layout:
    - [JS]      : the part of the JavaScript runtime the scraper relies on
                  (strings of UTF-16 code units, regular expressions,
                  IEEE-754 numbers and their renderings, [path.join]);
    - [Dom]     : the queries the scraper makes of a parsed page;
    - [Scraper] : [class AmazonScraper], method by method;
    - [Api]     : the [POST /api/scrape] handler;
    - [UserAgent]   : the user agent a request is sent with;
    - [Downloader]  : [class ImageDownloader], method by method;
    - [DownloadApi] : the [POST /api/download-image] handler;
    - [Client]  : the part of [script.js] that names the download folder;
    - the notions and example pages the statements use;
    - the properties, one section per subject. *)

From Stdlib Require Import Bool Arith ZArith NArith Ascii String Lia List.
From Stdlib Require Import Floats.SpecFloat.
Import ListNotations.

Set Implicit Arguments.

(* ================================================================= *)
(** * The JavaScript runtime *)
(* ================================================================= *)

Module JS.

(** A JavaScript string is a sequence of UTF-16 code units. *)
Abbreviation char := N (only parsing).
Abbreviation jsstring := (list N) (only parsing).

(** [js "abc"] is the JavaScript literal ['abc'] (ASCII source text). *)
Definition js (s : string) : jsstring :=
  map N_of_ascii (list_ascii_of_string s).

Fixpoint str_eqb (a b : jsstring) : bool :=
  match a, b with
  | [], [] => true
  | x :: a', y :: b' => N.eqb x y && str_eqb a' b'
  | _, _ => false
  end.

(** JavaScript truthiness of a string: non-empty. *)
Definition truthy (s : jsstring) : bool :=
  match s with [] => false | _ => true end.

(** [a || b] on strings. *)
Definition or_else (a b : jsstring) : jsstring :=
  if truthy a then a else b.

Definition in_range (lo hi c : N) : bool := (N.leb lo c && N.leb c hi)%bool.

Definition is_digit (c : char) : bool := in_range 48 57 c.
Definition is_upper (c : char) : bool := in_range 65 90 c.
Definition is_lower (c : char) : bool := in_range 97 122 c.

(** ECMAScript [WhiteSpace] and [LineTerminator] code units: what
    [String.prototype.trim] strips and what [\s] matches. *)
Definition is_line_terminator (c : char) : bool :=
  N.eqb c 10 || N.eqb c 13 || N.eqb c 8232 || N.eqb c 8233.

Definition is_space (c : char) : bool :=
  in_range 9 13 c || N.eqb c 32 || N.eqb c 160 || N.eqb c 5760
  || in_range 8192 8202 c || N.eqb c 8232 || N.eqb c 8233
  || N.eqb c 8239 || N.eqb c 8287 || N.eqb c 12288 || N.eqb c 65279.

Fixpoint trim_start (s : jsstring) : jsstring :=
  match s with
  | c :: s' => if is_space c then trim_start s' else s
  | [] => []
  end.

Definition trim_end (s : jsstring) : jsstring := rev (trim_start (rev s)).

(** [s.trim()] *)
Definition trim (s : jsstring) : jsstring := trim_end (trim_start s).

Fixpoint starts_with (p s : jsstring) : bool :=
  match p, s with
  | [], _ => true
  | x :: p', y :: s' => N.eqb x y && starts_with p' s'
  | _ :: _, [] => false
  end.

(** [s.includes(p)] *)
Fixpoint includes (s p : jsstring) : bool :=
  starts_with p s ||
  match s with
  | [] => false
  | _ :: s' => includes s' p
  end.

(** [xs.includes(x)] on an array of strings. *)
Definition array_includes (xs : list jsstring) (x : jsstring) : bool :=
  existsb (str_eqb x) xs.

(** [s.toLowerCase()].  The mapping is the Unicode one on U+0000..U+00FF.
    Above that range only the two code units whose lower case holds an ASCII
    letter are mapped (U+0130, U+212A); the scraper only ever looks for ASCII
    literals in lower-cased text, so no other mapping can be observed. *)
Definition lower_char (c : char) : jsstring :=
  if is_upper c then [c + 32]%N
  else if (in_range 192 214 c || in_range 216 222 c)%bool then [c + 32]%N
  else if N.eqb c 304 then [105; 775]%N
  else if N.eqb c 8490 then [107]%N
  else [c].

Definition toLowerCase (s : jsstring) : jsstring := flat_map lower_char s.

(** [xs.join(sep)] *)
Fixpoint join (sep : jsstring) (xs : list jsstring) : jsstring :=
  match xs with
  | [] => []
  | [x] => x
  | x :: xs' => x ++ sep ++ join sep xs'
  end.

(** Decimal rendering of a natural number, as a template literal renders a
    small non-negative integer. *)
Fixpoint digits_of_N_aux (fuel : nat) (n : N) (acc : jsstring) : jsstring :=
  match fuel with
  | O => acc
  | S fuel' =>
      let acc' := (48 + n mod 10)%N :: acc in
      if (n <? 10)%N then acc' else digits_of_N_aux fuel' (n / 10)%N acc'
  end.

Definition digits_of_N (n : N) : jsstring :=
  digits_of_N_aux (S (N.to_nat (N.log2 n))) n [].

(* ----------------------------------------------------------------- *)
(** ** Regular expressions *)

(** The fragment of the pattern language that the scraper's literals use:
    classes, concatenation, greedy and lazy bounded repetition, capture
    groups and the two anchors.  The matcher is the backtracking one of the
    language definition: [run r st] lists the states in which [r] can end
    when started in [st], in the order backtracking would try them. *)
Inductive regex : Type :=
| Eps
| Cls (p : char -> bool)
| Cat (r1 r2 : regex)
| Rep (greedy : bool) (lo : nat) (hi : option nat) (r : regex)
| Cap (i : nat) (r : regex)
| Bol
| Eol.

Record rstate : Type := RState {
  pos  : nat;                        (* index of the next code unit *)
  rest : jsstring;                   (* the input from [pos] on *)
  caps : list (nat * jsstring)       (* captures, newest first *)
}.

Definition hi_done (hi : option nat) : bool :=
  match hi with Some O => true | _ => false end.

Fixpoint repeat_run (step : rstate -> list rstate) (greedy : bool)
    (fuel lo : nat) (hi : option nat) (st : rstate) : list rstate :=
  match fuel with
  | O => []
  | S fuel' =>
      if hi_done hi then [st]
      else
        let again :=
          flat_map (fun st' =>
            if (Nat.eqb lo 0 && Nat.eqb (length (rest st')) (length (rest st)))%bool
            then []                                   (* empty iteration *)
            else repeat_run step greedy fuel' (Nat.pred lo)
                            (option_map Nat.pred hi) st')
          (step st) in
        match lo with
        | S _ => again
        | O => if greedy then again ++ [st] else st :: again
        end
  end.

Fixpoint run (r : regex) (st : rstate) : list rstate :=
  match r with
  | Eps => [st]
  | Cls p =>
      match rest st with
      | c :: s' => if p c then [RState (S (pos st)) s' (caps st)] else []
      | [] => []
      end
  | Cat r1 r2 => flat_map (run r2) (run r1 st)
  | Rep g lo hi r' =>
      repeat_run (run r') g (lo + length (rest st) + 1) lo hi st
  | Cap i r' =>
      map (fun st' =>
             RState (pos st') (rest st')
               ((i, firstn (pos st' - pos st) (rest st)) :: caps st'))
          (run r' st)
  | Bol => if Nat.eqb (pos st) 0 then [st] else []
  | Eol => match rest st with [] => [st] | _ => [] end
  end.

(** The result of [RegExp.prototype.exec]: where the match starts, the
    matched text, what follows it, and the capture groups. *)
Record rmatch : Type := RMatch {
  m_index  : nat;
  m_text   : jsstring;
  m_after  : jsstring;
  m_groups : list (nat * jsstring)
}.

Definition match_here (r : regex) (p : nat) (s : jsstring) : option rmatch :=
  match run r (RState p s []) with
  | st' :: _ => Some (RMatch p (firstn (pos st' - p) s) (rest st') (caps st'))
  | [] => None
  end.

(** Leftmost match: every start index from [p] up to the end of input. *)
Fixpoint search_from (r : regex) (p : nat) (s : jsstring) : option rmatch :=
  match match_here r p s with
  | Some m => Some m
  | None =>
      match s with
      | [] => None
      | _ :: s' => search_from r (S p) s'
      end
  end.

(** [s.match(r)] / [r.exec(s)] for a pattern without the [g] flag. *)
Definition exec (r : regex) (s : jsstring) : option rmatch := search_from r 0 s.

(** [r.test(s)], and the truthiness of [s.match(r)]. *)
Definition test (r : regex) (s : jsstring) : bool :=
  match exec r s with Some _ => true | None => false end.

Fixpoint assoc (i : nat) (l : list (nat * jsstring)) : option jsstring :=
  match l with
  | [] => None
  | (j, v) :: l' => if Nat.eqb i j then Some v else assoc i l'
  end.

(** [m[i]] for a group that took part in the match. *)
Definition group (i : nat) (m : rmatch) : jsstring :=
  match assoc i (m_groups m) with Some v => v | None => [] end.

(** [s.replace(r, by)] for a pattern without [g] and a replacement without
    [$] patterns: the leftmost match is replaced. *)
Definition replace (r : regex) (by_ : jsstring) (s : jsstring) : jsstring :=
  match exec r s with
  | Some m => firstn (m_index m) s ++ by_ ++ m_after m
  | None => s
  end.

(** [s.replace(r, by)] for a pattern with the [g] flag: every match, left to
    right, an empty match moving on by one code unit. *)
Fixpoint replace_all_from (r : regex) (by_ : jsstring) (fuel p : nat)
    (s : jsstring) : jsstring :=
  match fuel with
  | O => s
  | S fuel' =>
      match match_here r p s, s with
      | Some m, c :: s' =>
          if Nat.eqb (length (m_text m)) 0
          then by_ ++ c :: replace_all_from r by_ fuel' (S p) s'
          else by_ ++ replace_all_from r by_ fuel'
                        (p + length (m_text m)) (m_after m)
      | Some m, [] => by_
      | None, c :: s' => c :: replace_all_from r by_ fuel' (S p) s'
      | None, [] => []
      end
  end.

Definition replace_all (r : regex) (by_ : jsstring) (s : jsstring) : jsstring :=
  replace_all_from r by_ (S (length s)) 0 s.

(** Pattern notation helpers. *)
Definition lit (c : ascii) : regex := Cls (N.eqb (N_of_ascii c)).
(** A literal letter under the [i] flag: either ASCII case, and nothing
    else (the flag never lets a code unit above U+007F stand for an ASCII
    one). *)
Definition lit_i (c : ascii) : regex :=
  let n := N_of_ascii c in
  Cls (fun x =>
         N.eqb x n
         || (is_lower n && N.eqb x (n - 32))
         || (is_upper n && N.eqb x (n + 32)))%bool.
Definition plus (r : regex) : regex := Rep true 1 None r.
Definition star (r : regex) : regex := Rep true 0 None r.
Definition opt (r : regex) : regex := Rep true 0 (Some 1) r.
Definition plus_lazy (r : regex) : regex := Rep false 1 None r.
Definition star_lazy (r : regex) : regex := Rep false 0 None r.
Definition times (n : nat) (r : regex) : regex := Rep true n (Some n) r.
Fixpoint seq (rs : list regex) : regex :=
  match rs with
  | [] => Eps
  | [r] => r
  | r :: rs' => Cat r (seq rs')
  end.
(** [.]: any code unit but a line terminator. *)
Definition dot : regex := Cls (fun c => negb (is_line_terminator c)).
Definition digit : regex := Cls is_digit.
Definition space : regex := Cls is_space.
(** A run of literal characters, case-sensitive or under the [i] flag. *)
Definition word (w : string) : regex := seq (map lit (list_ascii_of_string w)).
Definition word_i (w : string) : regex := seq (map lit_i (list_ascii_of_string w)).


(* ----------------------------------------------------------------- *)
(** ** Numbers *)

(** A Number is an IEEE-754 binary64 value; arithmetic is the correctly
    rounded one of the standard. *)
Definition number := spec_float.
Definition prec : Z := 53.
Definition emax : Z := 1024.

Definition NaN : number := S754_nan.
Definition of_Z (z : Z) : number := binary_normalize prec emax z 0 false.
Definition num_sub : number -> number -> number := SFsub prec emax.
Definition num_mul : number -> number -> number := SFmul prec emax.
Definition num_div : number -> number -> number := SFdiv prec emax.

(** [a > b] and [a >= b]; both false when an operand is NaN. *)
Definition num_gt (a b : number) : bool :=
  match SFcompare a b with Some Gt => true | _ => false end.
Definition num_ge (a b : number) : bool :=
  match SFcompare a b with Some Gt | Some Eq => true | _ => false end.

(** The Number nearest to [(-1)^neg * n * 10^k]. *)
Definition of_decimal (neg : bool) (n : N) (k : Z) : number :=
  match n with
  | N0 => S754_zero neg
  | Npos p =>
      match k with
      | Zneg q => num_div (S754_finite neg p 0) (S754_finite false (Pos.pow 10 q) 0)
      | _ => binary_normalize prec emax
               (cond_Zopp neg (Zpos p * Z.pow 10 k)) 0 false
      end
  end.

Fixpoint span (p : char -> bool) (s : jsstring) : jsstring * jsstring :=
  match s with
  | c :: s' =>
      if p c then let (a, b) := span p s' in (c :: a, b) else ([], s)
  | [] => ([], [])
  end.

(** Value of a digit sequence in radix [r] (digits already checked). *)
Definition digit_val (c : char) : N :=
  if is_digit c then c - 48
  else if is_lower c then c - 87
  else c - 55.

Definition digits_val (r : N) (ds : jsstring) : N :=
  fold_left (fun acc c => acc * r + digit_val c)%N ds 0%N.

Definition take_sign (s : jsstring) : bool * jsstring :=
  match s with
  | 45%N :: s' => (true, s')
  | 43%N :: s' => (false, s')
  | _ => (false, s)
  end.

(** [parseFloat(s)]: leading white space dropped, then the longest prefix
    that is a decimal literal; NaN when there is none. *)
Definition parseFloat (s : jsstring) : number :=
  let (neg, s0) := take_sign (trim_start s) in
  if starts_with (js "Infinity") s0 then S754_infinity neg
  else
    let (ip, s1) := span is_digit s0 in
    let (fp, s2) :=
      match s1 with
      | 46%N :: t => span is_digit t
      | _ => ([], s1)
      end in
    match ip ++ fp with
    | [] => NaN
    | ds =>
        let ex :=
          match s2 with
          | c :: t =>
              if (N.eqb c 101 || N.eqb c 69)%bool then
                let (eneg, t') := take_sign t in
                let (ed, _) := span is_digit t' in
                match ed with
                | [] => 0%Z
                | _ => cond_Zopp eneg (Z.of_N (digits_val 10 ed))
                end
              else 0%Z
          | [] => 0%Z
          end in
        of_decimal neg (digits_val 10 ds) (ex - Z.of_nat (length fp))
    end.

Definition is_hex_digit (c : char) : bool :=
  is_digit c || in_range 65 70 c || in_range 97 102 c.

(** [parseInt(s)] with no radix argument. *)
Definition parseInt (s : jsstring) : number :=
  let (neg, s0) := take_sign (trim_start s) in
  let hex :=
    match s0 with
    | 48%N :: x :: _ => (N.eqb x 120 || N.eqb x 88)%bool
    | _ => false
    end in
  let (ds, _) :=
    if hex then span is_hex_digit (skipn 2 s0) else span is_digit s0 in
  match ds with
  | [] => NaN
  | _ => of_decimal neg (digits_val (if hex then 16 else 10) ds) 0
  end.

(** [Math.round(x)]: the nearest integer, ties towards +infinity. *)
Definition math_round (x : number) : number :=
  match x with
  | S754_finite s m (Zneg q) =>
      let d := Z.pow 2 (Zpos q) in
      let n := Z.div (2 * cond_Zopp s (Zpos m) + d) (2 * d) in
      binary_normalize prec emax n 0 s
  | _ => x
  end.

(** *** Rendering *)

(** The exact value of a positive finite Number is [m * 2^e], kept as the
    fraction [(num, den)]. *)
Definition fraction (m : positive) (e : Z) : Z * Z :=
  match e with
  | Zneg q => (Zpos m, Z.pow 2 (Zpos q))
  | _ => (Zpos m * Z.pow 2 e, 1)%Z
  end.

Definition digits_of_Z (z : Z) : jsstring := digits_of_N (Z.to_N z).

(** Is the Number nearest to [s * 10^p] the Number [x]? *)
Definition reads_back (x : number) (s p : Z) : bool :=
  match SFcompare (of_decimal false (Z.to_N s) p) x with
  | Some Eq => true
  | _ => false
  end.

(** [10^(n-1) <= num/den < 10^n], scanning [n] upwards from [-330]. *)
Fixpoint decimal_exponent_from (fuel : nat) (n : Z) (num den : Z) : Z :=
  match fuel with
  | O => n
  | S fuel' =>
      let below :=
        match n with
        | Zneg q => (num * Z.pow 10 (Zpos q) <? den)%Z
        | _ => (num <? den * Z.pow 10 n)%Z
        end in
      if below then n else decimal_exponent_from fuel' (n + 1) num den
  end.

Definition decimal_exponent (num den : Z) : Z :=
  decimal_exponent_from 700 (-330) num den.

(** [floor (num/den / 10^p)] and the sign of
    [(lo + hi) * 10^p / 2 - num/den] for two neighbouring candidates. *)
Definition scaled_floor (num den p : Z) : Z :=
  match p with
  | Zneg q => Z.div (num * Z.pow 10 (Zpos q)) den
  | _ => Z.div num (den * Z.pow 10 p)
  end.

Definition nearer_is_low (num den p lo : Z) : comparison :=
  (* compare x - lo*10^p with (lo+1)*10^p - x, i.e. 2x with (2lo+1)*10^p *)
  match p with
  | Zneg q => Z.compare (2 * num * Z.pow 10 (Zpos q)) ((2 * lo + 1) * den)
  | _ => Z.compare (2 * num) ((2 * lo + 1) * Z.pow 10 p * den)
  end.

(** The shortest digit string [s] (of [k] digits) and exponent [n] with
    [s * 10^(n-k)] reading back as [x]; the nearest to [x] when several do,
    the even one on a tie. *)
Fixpoint shortest_from (fuel : nat) (k : Z) (x : number) (num den n : Z)
    : Z * Z * Z :=
  let p := (n - k)%Z in
  let lo := scaled_floor num den p in
  let hi := (lo + 1)%Z in
  let ok_lo := ((0 <? lo)%Z && reads_back x lo p)%bool in
  let ok_hi := reads_back x hi p in
  let pick (s : Z) :=
    if (s =? Z.pow 10 k)%Z then (1, 1, n + 1)%Z else (s, k, n) in
  match fuel with
  | O => pick lo
  | S fuel' =>
      match ok_lo, ok_hi with
      | true, false => pick lo
      | false, true => pick hi
      | true, true =>
          match nearer_is_low num den p lo with
          | Lt => pick lo
          | Gt => pick hi
          | Eq => if Z.even lo then pick lo else pick hi
          end
      | false, false => shortest_from fuel' (k + 1) x num den n
      end
  end.

Definition zeros (n : Z) : jsstring := repeat 48%N (Z.to_nat n).

(** [Number::toString(x)] in radix 10. *)
Definition number_to_string (x : number) : jsstring :=
  match x with
  | S754_nan => js "NaN"
  | S754_zero _ => js "0"
  | S754_infinity s => (if s then js "-" else []) ++ js "Infinity"
  | S754_finite sg m e =>
      let (num, den) := fraction m e in
      let '(s, k, n) :=
        shortest_from 17 1 (S754_finite false m e) num den
                      (decimal_exponent num den) in
      let ds := digits_of_Z s in
      let body :=
        if ((k <=? n) && (n <=? 21))%Z then ds ++ zeros (n - k)
        else if ((0 <? n) && (n <=? 21))%Z then
          firstn (Z.to_nat n) ds ++ js "." ++ skipn (Z.to_nat n) ds
        else if ((-6 <? n) && (n <=? 0))%Z then
          js "0." ++ zeros (- n) ++ ds
        else
          let ex := (n - 1)%Z in
          let tail := (if (ex <? 0)%Z then js "e-" else js "e+")
                      ++ digits_of_Z (Z.abs ex) in
          match ds with
          | [d] => d :: tail
          | d :: ds' => d :: js "." ++ ds' ++ tail
          | [] => tail
          end in
      (if sg then js "-" else []) ++ body
  end.

(** [x.toFixed(f)] for [0 <= f <= 100]. *)
Definition toFixed (f : nat) (x : number) : jsstring :=
  match x with
  | S754_finite sg m e =>
      let (num, den) := fraction m e in
      if (den * Z.pow 10 21 <=? num)%Z then number_to_string x
      else
        let scale := Z.pow 10 (Z.of_nat f) in
        let n := Z.div (2 * num * scale + den) (2 * den) in
        let ds := digits_of_Z n in
        let ds := repeat 48%N (S f - length ds) ++ ds in
        let k := length ds in
        (if sg then js "-" else [])
        ++ match f with
           | O => ds
           | _ => firstn (k - f) ds ++ js "." ++ skipn (k - f) ds
           end
  | S754_zero _ =>
      match f with
      | O => js "0"
      | _ => js "0." ++ repeat 48%N f
      end
  | _ => number_to_string x
  end.

(* ----------------------------------------------------------------- *)
(** ** JSON values and exceptions *)

#[local] Unset Elimination Schemes.
Inductive json : Type :=
| JNull
| JBool (b : bool)
| JNum (x : number)
| JStr (s : jsstring)
| JArr (items : list json)
| JObj (fields : list (jsstring * json)).
#[local] Set Elimination Schemes.

(** Truthiness of a value. *)
Definition json_truthy (v : json) : bool :=
  match v with
  | JNull => false
  | JBool b => b
  | JNum (S754_zero _) | JNum S754_nan => false
  | JNum _ => true
  | JStr s => truthy s
  | JArr _ | JObj _ => true
  end.

(** A computation that returns or throws an [Error] with a message. *)
Inductive outcome (A : Type) : Type :=
| Returned (a : A)
| Thrown (message : jsstring).
Arguments Returned {A} a.
Arguments Thrown {A} message.

(* ----------------------------------------------------------------- *)
(** ** Splitting, patterns with alternatives, conversions *)

(** [s.split(sep)] for a separator of one code unit: the pieces between
    its occurrences; there is always at least one piece. *)
Fixpoint split_on (sep : char) (s : jsstring) : list jsstring :=
  match s with
  | [] => [[]]
  | c :: s' =>
      if N.eqb c sep then [] :: split_on sep s'
      else
        match split_on sep s' with
        | piece :: pieces => (c :: piece) :: pieces
        | [] => [[c]]
        end
  end.

(** [xs.pop()], for its value: the last element. *)
Definition pop (xs : list jsstring) : jsstring := last xs [].

(** [s.substring(0, n)] *)
Definition substring (n : nat) (s : jsstring) : jsstring := firstn n s.

(** A pattern [r1|r2|...] whose alternatives stand at the top level: at a
    start index the alternatives are tried in order. *)
Fixpoint match_alt (rs : list regex) (p : nat) (s : jsstring) : option rmatch :=
  match rs with
  | [] => None
  | r :: rs' =>
      match match_here r p s with
      | Some m => Some m
      | None => match_alt rs' p s
      end
  end.

(** [s.replace(/r1|r2|.../g, by)] *)
Fixpoint replace_alts_from (rs : list regex) (by_ : jsstring) (fuel p : nat)
    (s : jsstring) : jsstring :=
  match fuel with
  | O => s
  | S fuel' =>
      match match_alt rs p s, s with
      | Some m, c :: s' =>
          if Nat.eqb (length (m_text m)) 0
          then by_ ++ c :: replace_alts_from rs by_ fuel' (S p) s'
          else by_ ++ replace_alts_from rs by_ fuel'
                        (p + length (m_text m)) (m_after m)
      | Some m, [] => by_
      | None, c :: s' => c :: replace_alts_from rs by_ fuel' (S p) s'
      | None, [] => []
      end
  end.

Definition replace_alts (rs : list regex) (by_ : jsstring) (s : jsstring)
    : jsstring :=
  replace_alts_from rs by_ (S (length s)) 0 s.

(** [undefined]-or-value under truthiness, and under [!== undefined]. *)
Definition json_truthy_opt (o : option json) : bool :=
  match o with Some v => json_truthy v | None => false end.
Definition is_defined {A : Type} (o : option A) : bool :=
  match o with Some _ => true | None => false end.

(** [String(v)], as a template literal renders a value: an array is the
    join by commas of its elements, [null] among them being empty. *)
Fixpoint to_string (v : json) : jsstring :=
  match v with
  | JNull => js "null"
  | JBool b => if b then js "true" else js "false"
  | JNum x => number_to_string x
  | JStr s => s
  | JArr items =>
      join (js ",")
           (map (fun item => match item with
                             | JNull => []
                             | _ => to_string item
                             end) items)
  | JObj _ => js "[object Object]"
  end.

(** [v + 1]: a sum when [v] is a number, a boolean or [null], and the
    concatenation of [String(v)] and "1" otherwise. *)
Definition num_add : number -> number -> number := SFadd prec emax.

Definition plus_one (v : json) : json :=
  match v with
  | JNum x => JNum (num_add x (of_Z 1))
  | JBool b => JNum (num_add (if b then of_Z 1 else S754_zero false) (of_Z 1))
  | JNull => JNum (num_add (S754_zero false) (of_Z 1))
  | _ => JStr (to_string v ++ js "1")
  end.

(** [Math.floor(x)] *)
Definition math_floor (x : number) : number :=
  match x with
  | S754_finite s m (Zneg q) =>
      binary_normalize prec emax
        (Z.div (cond_Zopp s (Zpos m)) (Z.pow 2 (Zpos q))) 0 s
  | _ => x
  end.

(** [xs[i]] for a Number [i]: the element at [i] when [i] is a non-negative
    integer, [undefined] otherwise. *)
Definition array_at {A : Type} (xs : list A) (i : number) : option A :=
  match i with
  | S754_zero _ => nth_error xs 0
  | S754_finite false m e =>
      match e with
      | Zneg q =>
          if (Zpos m mod Z.pow 2 (Zpos q) =? 0)%Z
          then nth_error xs (Z.to_nat (Zpos m / Z.pow 2 (Zpos q)))
          else None
      | _ => nth_error xs (Z.to_nat (Zpos m * Z.pow 2 e))
      end
  | _ => None
  end.

(* ----------------------------------------------------------------- *)
(** ** [path.join], as on POSIX systems *)

(** [normalizeString]: the segments between slashes without the empty ones
    and ".", a ".." taking back the segment before it; a ".." with nothing
    to take back stays in a relative path and is dropped in an absolute
    one.  [res] holds the segments kept so far, the last one first. *)
Fixpoint normalize_segments (allowAboveRoot : bool)
    (segments res : list jsstring) : list jsstring :=
  match segments with
  | [] => rev res
  | segment :: segments' =>
      if str_eqb segment [] || str_eqb segment (js ".") then
        normalize_segments allowAboveRoot segments' res
      else if str_eqb segment (js "..") then
        match res with
        | previous :: res' =>
            if str_eqb previous (js "..") then
              normalize_segments allowAboveRoot segments'
                (if allowAboveRoot then segment :: res else res)
            else normalize_segments allowAboveRoot segments' res'
        | [] =>
            normalize_segments allowAboveRoot segments'
              (if allowAboveRoot then [segment] else [])
        end
      else normalize_segments allowAboveRoot segments' (segment :: res)
  end.

(** [path.normalize(path)] *)
Definition path_normalize (path : jsstring) : jsstring :=
  match path with
  | [] => js "."
  | c :: _ =>
      let isAbsolute := N.eqb c 47 in
      let trailingSeparator := N.eqb (last path 0%N) 47 in
      let kept :=
        normalize_segments (negb isAbsolute) (split_on 47 path) [] in
      match join (js "/") kept with
      | [] =>
          if isAbsolute then js "/"
          else if trailingSeparator then js "./" else js "."
      | body =>
          (if isAbsolute then js "/" else [])
          ++ body ++ (if trailingSeparator then js "/" else [])
      end
  end.

(** [path.join(a, b)]: the arguments that are not empty, joined by a slash
    and normalized. *)
Definition posix_join (a b : jsstring) : jsstring :=
  match a, b with
  | [], [] => js "."
  | [], _ => path_normalize b
  | _, [] => path_normalize a
  | _, _ => path_normalize (a ++ js "/" ++ b)
  end.

End JS.


Import JS.
Open Scope string_scope.
Open Scope list_scope.

(* ================================================================= *)
(** * The parsed page *)
(* ================================================================= *)

Module Dom.

Definition selector := string.

(** Attribute selectors quote their value: [attr_is "data-cy" "x"] is the
    selector text [[data-cy="x"]], [attr_has] the [*=] form. *)
Definition dquote : string := String (ascii_of_nat 34) EmptyString.
Definition attr_is (name value : string) : selector :=
  String.concat EmptyString ["["; name; "="; dquote; value; dquote; "]"].
Definition attr_has (name value : string) : selector :=
  String.concat EmptyString ["["; name; "*="; dquote; value; dquote; "]"].

(** An element as the scraper sees it: its text content, its attributes,
    the elements a selector finds below it, and, for a JSON-LD script, what
    [JSON.parse(text)] holds at [.offers.price], rendered by a template
    literal ([None] when parsing throws or when [offers] or [price] is
    falsy).  The HTML and JSON parsers themselves stay outside. *)
#[local] Unset Elimination Schemes.
Inductive node : Type := Node {
  text_content   : jsstring;
  attributes     : list (string * jsstring);
  find           : selector -> list node;
  ld_offer_price : option jsstring
}.
#[local] Set Elimination Schemes.

(** [$]: the elements a selector matches, in document order. *)
Definition page := selector -> list node.

(** [sel.text()]: the texts of all selected elements, concatenated. *)
Definition text (sel : list node) : jsstring := flat_map text_content sel.

(** [sel.first()] *)
Definition first (sel : list node) : list node := firstn 1 sel.

Fixpoint lookup (name : string) (l : list (string * jsstring))
    : option jsstring :=
  match l with
  | [] => None
  | (k, v) :: l' => if String.eqb name k then Some v else lookup name l'
  end.

(** [sel.attr(name)]: the attribute of the first selected element;
    [None] is [undefined]. *)
Definition attr (name : string) (sel : list node) : option jsstring :=
  match sel with
  | [] => None
  | n :: _ => lookup name (attributes n)
  end.

(** [$(sel).first().text().trim()], the probe of every fallback chain. *)
Definition first_text (doc : page) (sel : selector) : jsstring :=
  trim (text (first (doc sel))).

(** [sel.each(fn)]: the callback sees index and element, and stops the
    iteration by returning [false]. *)
Fixpoint each_from {S : Type} (i : nat) (sel : list node)
    (fn : nat -> node -> S -> S * bool) (s : S) : S :=
  match sel with
  | [] => s
  | n :: sel' =>
      let (s', go_on) := fn i n s in
      if go_on then each_from (Datatypes.S i) sel' fn s' else s'
  end.

Definition each {S : Type} (sel : list node)
    (fn : nat -> node -> S -> S * bool) (s : S) : S :=
  each_from 0 sel fn s.

(** The page without any element. *)
Definition empty_page : page := fun _ => [].

(** An element with text only. *)
Definition text_node (t : string) : node := Node (js t) [] (fun _ => []) None.

(** The page on which each listed selector matches the listed elements and
    every other selector matches nothing. *)
Fixpoint page_of (l : list (selector * list node)) : page :=
  fun sel =>
    match l with
    | [] => []
    | (k, ns) :: l' => if String.eqb sel k then ns else page_of l' sel
    end.

End Dom.

(** [Array.prototype.forEach]: the callback's return value is dropped, so
    returning [false] does not end the iteration. *)
Definition forEach {A S : Type} (xs : list A) (fn : A -> S -> S * bool)
    (s : S) : S :=
  fold_left (fun acc x => fst (fn x acc)) xs s.

(** The first element of a chain for which the probe yields a value: the
    [for (const selector of selectors) { ...; if (..) return/break }] loop. *)
Fixpoint first_hit {A B : Type} (probe : A -> option B) (xs : list A)
    : option B :=
  match xs with
  | [] => None
  | x :: xs' =>
      match probe x with
      | Some b => Some b
      | None => first_hit probe xs'
      end
  end.

(** [undefined]-or-string values under [||] and truthiness. *)
Definition truthy_opt (o : option jsstring) : bool :=
  match o with Some s => truthy s | None => false end.
Definition oor (a b : option jsstring) : option jsstring :=
  if truthy_opt a then a else b.
Definition when_truthy (s : jsstring) : option jsstring :=
  if truthy s then Some s else None.
Definition or_empty (o : option jsstring) : jsstring :=
  match o with Some s => s | None => [] end.

(* ================================================================= *)
(** * class AmazonScraper *)
(* ================================================================= *)

Module Scraper.
Import Dom.

Record image : Type := Image {
  url        : jsstring;
  alt        : jsstring;
  downloaded : bool
}.

(** The object [extractPricing] returns; an unset property is [None]. *)
Record pricing : Type := Pricing {
  offerPrice      : option jsstring;
  originalPrice   : option jsstring;
  offerPercentage : option jsstring;
  amountSaved     : option jsstring
}.

(** The object [extractRating] returns. *)
Record ratingInfo : Type := RatingInfo {
  rating      : option jsstring;
  ratingCount : option jsstring
}.

(** [productData] as [scrapeProduct] builds it.  [Object.assign] copies
    the properties of the pricing and rating objects into it; the record
    keeps them in [price] and [stars]. *)
Record productData : Type := ProductData {
  title         : jsstring;
  brand         : jsstring;
  model         : jsstring;
  asin          : jsstring;
  price         : pricing;
  stars         : ratingInfo;
  colors        : list jsstring;
  aboutItem     : jsstring;
  technicalData : jsstring;
  images        : list image;
  categories    : list jsstring;
  tags          : list jsstring
}.

Definition sel_append (a b : selector) : selector := String.append a b.
Infix "+++" := sel_append (at level 60, right associativity).

(** ** extractTitle (server.js, lines 109-124) *)
Definition titleSelectors : list selector :=
  [ "#productTitle"; ".product-title"; attr_is "data-cy" "product-title";
    "h1.a-size-large.a-spacing-none"; "h1 span" ].

Definition extractTitle (doc : page) : jsstring :=
  or_empty (first_hit (fun sel => when_truthy (first_text doc sel))
                      titleSelectors).

(** ** extractBrand (lines 126-153) *)
Definition brandSelectors : list selector :=
  [ "#bylineInfo"; ".a-link-normal" +++ attr_has "href" "/stores/";
    "a[data-brand]"; ".po-brand .po-break-word"; "#brandNameHeading";
    attr_is "data-cy" "brand-name" ].

(** [/^Brand:\s*/i], [/^by\s+/i] and [/^([A-Z][a-zA-Z\s&-]+?)[\s-]+/] *)
Definition re_brand_prefix : regex := seq [Bol; word_i "Brand:"; star space].
Definition re_by_prefix : regex := seq [Bol; word_i "by"; plus space].
Definition re_brand_in_title : regex :=
  seq [ Bol;
        Cap 1 (seq [ Cls is_upper;
                     plus_lazy (Cls (fun c => is_lower c || is_upper c
                                              || is_space c || N.eqb c 38
                                              || N.eqb c 45)) ]);
        plus (Cls (fun c => is_space c || N.eqb c 45)) ].

Definition extractBrand (doc : page) : jsstring :=
  match
    first_hit
      (fun sel =>
         let brand := first_text doc sel in
         if truthy brand
            && negb (includes (toLowerCase brand) (js "visit"))
            && negb (includes (toLowerCase brand) (js "store"))
         then Some (replace re_by_prefix [] (replace re_brand_prefix [] brand))
         else None)
      brandSelectors
  with
  | Some b => b
  | None =>
      (* Try to extract brand from title *)
      let title := extractTitle doc in
      if truthy title then
        match exec re_brand_in_title title with
        | Some m => trim (group 1 m)
        | None => []
        end
      else []
  end.

(** ** extractModel (lines 155-183) *)
Definition modelSelectors : list selector :=
  [ ".po-model_name .po-break-word"; attr_is "data-cy" "model-name";
    "#model_name"; ".model-name" ].

Definition extractModel (doc : page) : jsstring :=
  match first_hit (fun sel => when_truthy (first_text doc sel)) modelSelectors with
  | Some m => m
  | None =>
      (* Look in technical details *)
      let techDetails :=
        doc "#tech tbody tr, #productDetails_detailBullets_sections1 tbody tr" in
      each techDetails
        (fun _ row foundModel =>
           let label :=
             toLowerCase (trim (text (find row "td:first-child, th:first-child"))) in
           if includes label (js "model") && negb (includes label (js "number"))
           then
             let value := trim (text (find row "td:last-child")) in
             if truthy value && negb (str_eqb value (js "N/A"))
                && negb (str_eqb value (js "-"))
             then (value, false)                       (* Break the loop *)
             else (foundModel, true)
           else (foundModel, true))
        []
  end.

(** ** extractASIN (lines 185-203) *)
Definition is_upper_alnum (c : char) : bool := is_upper c || is_digit c.

(** [/\/([A-Z0-9]{10})\//] and [/^[A-Z0-9]{10}$/] *)
Definition re_asin_in_url : regex :=
  seq [lit "/"; Cap 1 (times 10 (Cls is_upper_alnum)); lit "/"].
Definition re_asin : regex := seq [Bol; times 10 (Cls is_upper_alnum); Eol].

Definition asinSelectors : list selector :=
  [ "[data-asin]"; "#ASIN"; "input" +++ attr_is "name" "ASIN" ].

(** The page-data half of [extractASIN]. *)
Definition asin_in_page (doc : page) : jsstring :=
  or_empty
    (first_hit
       (fun sel =>
          match oor (attr "value" (doc sel)) (attr "data-asin" (doc sel)) with
          | Some asin =>
              if truthy asin && test re_asin asin then Some asin else None
          | None => None
          end)
       asinSelectors).

Definition extractASIN (doc : page) (url : jsstring) : jsstring :=
  (* Try to get ASIN from URL first *)
  match exec re_asin_in_url url with
  | Some asinMatch => group 1 asinMatch
  | None => asin_in_page doc        (* Try to find ASIN in page data *)
  end.

(** ** extractPricing (lines 205-343) *)
Definition currentSelectors : list selector :=
  [ ".a-price.a-text-normal .a-offscreen"; ".a-price-current .a-offscreen";
    ".a-price .a-offscreen"; "#apex_desktop .a-price .a-offscreen";
    ".a-price-whole"; "#price_inside_buybox";
    ".a-price-symbol + .a-price-whole" ].
Definition originalSelectors : list selector :=
  [ ".a-price.a-text-price .a-offscreen"; ".a-text-strike .a-offscreen";
    ".a-price-was .a-offscreen"; ".a-text-price"; "#listPrice .a-offscreen";
    attr_is "data-cy" "original-price" ].
Definition discountSelectors : list selector :=
  [ ".a-badge-text"; ".savingsPercentage"; ".a-size-large.a-color-price";
    attr_is "data-cy" "discount-percentage"; ".a-text-bold.a-color-price" ].

Definition price_body : list regex :=
  [ lit "$"; plus (Cls (fun c => is_digit c || N.eqb c 44));
    opt (lit "."); star digit ].
(** [/\$[\d,]+\.?\d*/], [/^\$[\d,]+\.?\d*$/], [/\d+%/], [/[^0-9.]/g] *)
Definition re_price : regex := seq price_body.
Definition re_price_only : regex := seq (Bol :: price_body ++ [Eol]).
Definition re_percent : regex := seq [plus digit; lit "%"].
Definition re_not_numeric : regex :=
  Cls (fun c => negb (is_digit c || N.eqb c 46)).

(** The loop over [priceSelectors.current]. *)
Definition current_chain (doc : page) : jsstring :=
  or_empty
    (first_hit
       (fun sel =>
          let price := first_text doc sel in
          if truthy price && test re_price price then Some price else None)
       currentSelectors).

(** The loop over [priceSelectors.original]; it sees [currentPrice]. *)
Definition original_chain (doc : page) (currentPrice : jsstring) : jsstring :=
  or_empty
    (first_hit
       (fun sel =>
          let price := first_text doc sel in
          if truthy price && test re_price price
             && negb (str_eqb price currentPrice)
          then Some price else None)
       originalSelectors).

(** Method 2: the first [span] whose whole trimmed text is a price. *)
Definition span_price (doc : page) : jsstring :=
  let spans :=
    filter (fun el =>
              let text := trim (text_content el) in
              test re_price_only text && Nat.ltb (length text) 15)
           (doc "span") in
  each spans
    (fun _ el currentPrice =>
       let price := trim (text_content el) in
       if negb (truthy currentPrice) && test re_price price
       then (price, false)
       else (currentPrice, true))
    [].

(** The loop over [priceSelectors.discount]. *)
Definition discount_chain (doc : page) : option jsstring :=
  first_hit
    (fun sel =>
       let discount := first_text doc sel in
       if truthy discount && test re_percent discount
       then Some discount else None)
    discountSelectors.

(** [parseFloat(text.replace(/[^0-9.]/g, ''))] *)
Definition price_number (text : jsstring) : number :=
  parseFloat (replace_all re_not_numeric [] text).

(** "Calculate savings if we have both prices".  Nothing in the [try]
    block throws, so its [catch] is never entered. *)
Definition with_savings (p : pricing) : pricing :=
  match originalPrice p, offerPrice p with
  | Some orig, Some offer =>
      if truthy orig && truthy offer && negb (str_eqb orig offer) then
        let originalNum := price_number orig in
        let offerNum := price_number offer in
        if num_gt originalNum offerNum then
          let saved := num_sub originalNum offerNum in
          let p1 := Pricing (offerPrice p) (originalPrice p)
                            (offerPercentage p) (Some (toFixed 2 saved)) in
          (* Calculate percentage if not found *)
          if negb (truthy_opt (offerPercentage p1)) then
            let percentage :=
              math_round (num_mul (num_div saved originalNum) (of_Z 100)) in
            Pricing (offerPrice p1) (originalPrice p1)
                    (Some (number_to_string percentage ++ js "% off"))
                    (amountSaved p1)
          else p1
        else p
      else p
  | _, _ => p
  end.

(** Method 3: every JSON-LD script with an offer price overwrites
    [offerPrice]. *)
Definition with_json_ld (doc : page) (p : pricing) : pricing :=
  each (doc ("script" +++ attr_is "type" "application/ld+json"))
    (fun _ script acc =>
       match ld_offer_price script with
       | Some v => (Pricing (Some v) (originalPrice acc)
                            (offerPercentage acc) (amountSaved acc), true)
       | None => (acc, true)
       end)
    p.

(** [currentPrice] once Method 2 has run: the chain's price, else the
    first price-shaped [span]. *)
Definition found_current (doc : page) : jsstring :=
  let currentPrice := current_chain doc in
  if negb (truthy currentPrice) then span_price doc else currentPrice.

Definition extractPricing (doc : page) : pricing :=
  let pricing0 := Pricing None None None None in
  (* Extract original price (if different from current) *)
  let originalPrice_ := original_chain doc (current_chain doc) in
  (* Method 2: Try alternative price extraction from spans *)
  let currentPrice := found_current doc in
  (* Set prices *)
  let pricing1 :=
    if truthy currentPrice
    then Pricing (Some currentPrice) None None None else pricing0 in
  let pricing2 :=
    if truthy originalPrice_ then
      Pricing (offerPrice pricing1) (Some originalPrice_) None None
    else if truthy currentPrice then
      Pricing (offerPrice pricing1) (Some currentPrice) None None
    else pricing1 in
  (* Extract discount percentage *)
  let pricing3 :=
    match discount_chain doc with
    | Some discount =>
        Pricing (offerPrice pricing2) (originalPrice pricing2)
                (Some discount) (amountSaved pricing2)
    | None => pricing2
    end in
  (* Calculate savings if we have both prices *)
  let pricing4 := with_savings pricing3 in
  (* Method 3: Try to find price in JSON-LD data *)
  if negb (truthy currentPrice) then with_json_ld doc pricing4 else pricing4.

(** ** extractRating (lines 345-383) *)
Definition ratingSelectors : list selector :=
  [ ".a-icon-alt"; attr_is "data-cy" "reviews-ratings-slot" +++ " .a-icon-alt";
    ".reviewCountTextLinkedHistogram .a-icon-alt"; "#acrPopover .a-icon-alt" ].
Definition countSelectors : list selector :=
  [ "#acrCustomerReviewText";
    attr_is "data-cy" "reviews-ratings-slot" +++ " a" +++ attr_has "href" "reviews";
    ".reviewCountTextLinkedHistogram a"; "#averageCustomerReviews a" ].

(** [/(D)\s*out\s*of\s*5/i] where [D] is [\d+\.?\d*], and [/([0-9,]+)/] *)
Definition re_rating : regex :=
  seq [ Cap 1 (seq [plus digit; opt (lit "."); star digit]);
        star space; word_i "out"; star space; word_i "of"; star space;
        lit "5" ].
Definition re_count : regex :=
  Cap 1 (plus (Cls (fun c => is_digit c || N.eqb c 44))).

(** What one selector of a chain contributes: capture 1 of the pattern on
    the first element's trimmed text. *)
Definition probe_group (doc : page) (re : regex) (sel : selector)
    : option jsstring :=
  option_map (group 1) (exec re (first_text doc sel)).

Definition extractRating (doc : page) : ratingInfo :=
  RatingInfo (first_hit (probe_group doc re_rating) ratingSelectors)
             (first_hit (probe_group doc re_count) countSelectors).

(** ** extractColors (lines 385-415) *)
Definition colorSelectors : list selector :=
  [ "#variation_color_name li"; ".a-button-thumbnail img";
    attr_is "data-cy" "color-name"; "#color_name_list li"; ".swatches li" ].

Definition color_name (el : node) : option jsstring :=
  oor (attr "title" [el])
 (oor (attr "alt" [el])
 (oor (Some (trim (text_content el)))
 (oor (attr "alt" (find el "img"))
      (attr "title" (find el "img"))))).

Definition extractColors (doc : page) : list jsstring :=
  let colors :=
    forEach colorSelectors
      (fun selector colors =>
         (each (doc selector)
            (fun _ el colors =>
               match color_name el with
               | Some colorName =>
                   if truthy colorName
                      && negb (array_includes colors colorName)
                      && Nat.ltb 1 (length colorName)
                   then (colors ++ [colorName], true)
                   else (colors, true)
               | None => (colors, true)
               end)
            colors, true))
      [] in
  firstn 10 colors.                                  (* Limit to 10 colors *)

(** ** extractAboutItem (lines 417-443) *)
Definition aboutSelectors : list selector :=
  [ "#feature-bullets ul li span"; attr_is "data-cy" "item-bullets" +++ " li";
    "#productDescription p";
    ".a-unordered-list.a-vertical.a-spacing-none li span" ].

(** The marker the source writes before each bullet: the three code units
    U+00E2 U+20AC U+00A2 and a space. *)
Definition bullet : jsstring := [226; 8364; 162; 32]%N.

Definition extractAboutItem (doc : page) : jsstring :=
  let aboutText :=
    or_empty
      (first_hit
         (fun selector =>
            let items :=
              each (doc selector)
                (fun _ el items =>
                   let text := trim (text_content el) in
                   if truthy text && Nat.ltb 10 (length text)
                      && negb (includes (toLowerCase text) (js "see more"))
                   then (items ++ [text], true)
                   else (items, true))
                [] in
            if Nat.ltb 0 (length items)
            then Some (join (10%N :: bullet) items)
            else None)
         aboutSelectors) in
  if truthy aboutText then bullet ++ aboutText else [].

(** ** extractTechnicalData (lines 445-471) *)
Definition techSelectors : list selector :=
  [ "#tech tbody tr"; "#productDetails_detailBullets_sections1 tbody tr";
    "#productDetails_techSpec_section_1 tbody tr"; ".a-keyvalue tbody tr" ].

(** The value the source treats as empty: U+00E2 U+20AC U+017D. *)
Definition empty_glyph : jsstring := [226; 8364; 381]%N.

Definition extractTechnicalData (doc : page) : jsstring :=
  let techData :=
    forEach techSelectors
      (fun selector techData =>
         let techData :=
           each (doc selector)
             (fun _ row techData =>
                let label :=
                  trim (text (find row "td:first-child, th:first-child")) in
                let value :=
                  trim (text (find row "td:last-child, td:nth-child(2)")) in
                if truthy label && truthy value
                   && negb (str_eqb value (js "N/A"))
                   && negb (str_eqb value (js "-"))
                   && negb (str_eqb value empty_glyph)
                then (techData ++ [label ++ js ": " ++ value], true)
                else (techData, true))
             techData in
         (* Stop after finding data *)
         if Nat.ltb 0 (length techData) then (techData, false)
         else (techData, true))
      [] in
  join (js (String (ascii_of_nat 10) EmptyString)) techData.

(** ** extractImages (lines 473-511) *)
Definition imageSelectors : list selector :=
  [ "#altImages img"; "#imageBlock img"; ".a-dynamic-image"; "#main-image";
    attr_is "data-cy" "product-image" ].

(** [/\._[A-Z]{2}[0-9]+_/] and [/\._.*?\./] *)
Definition re_size_token : regex :=
  seq [lit "."; lit "_"; times 2 (Cls is_upper); plus digit; lit "_"].
Definition re_any_token : regex :=
  seq [lit "."; lit "_"; star_lazy dot; lit "."].

Definition image_src (img : node) : option jsstring :=
  oor (attr "data-old-hires" [img])
 (oor (attr "data-large-image-url" [img])
 (oor (attr "data-src" [img])
      (attr "src" [img]))).

(** Clean up the URL and get high-res version *)
Definition high_res (src : jsstring) : jsstring :=
  replace re_any_token (js "._AC_SX500_.")
    (replace re_size_token (js "._AC_SX500_") src).

(** The body of the loop over the matched [img] elements; the state is
    [images] and [seenUrls]. *)
Definition push_image (img : node) (st : list image * list jsstring)
    : list image * list jsstring * bool :=
  let (images, seenUrls) := st in
  match image_src img with
  | Some src0 =>
      if truthy src0 then
        let src := high_res src0 in
        if negb (array_includes seenUrls src)
           && includes src (js "amazon")
           && negb (includes src (js "sprite"))
        then
          let alt :=
            or_else (or_empty (attr "alt" [img]))
                    (js "Product image "
                     ++ digits_of_N (N.of_nat (length images + 1))) in
          (images ++ [Image src alt false], seenUrls ++ [src], true)
        else (st, true)
      else (st, true)
  | None => (st, true)
  end.

Definition extractImages (doc : page) : list image :=
  let '(images, _) :=
    forEach imageSelectors
      (fun selector st =>
         (each (doc selector) (fun _ img st => push_image img st) st, true))
      ([], []) in
  firstn 6 images.                                   (* Limit to 6 images *)

(** ** extractCategories (lines 513-539) *)
Definition breadcrumbSelectors : list selector :=
  [ "#wayfinding-breadcrumbs_container a"; ".a-breadcrumb a"; "#nav-subnav a";
    attr_is "data-cy" "breadcrumb" +++ " a" ].

Definition extractCategories (doc : page) : list jsstring :=
  let categories :=
    forEach breadcrumbSelectors
      (fun selector categories =>
         let categories :=
           each (doc selector)
             (fun _ el categories =>
                let category := trim (text_content el) in
                if truthy category
                   && Nat.ltb 2 (length category)
                   && negb (includes (toLowerCase category) (js "amazon"))
                   && negb (array_includes categories category)
                then (categories ++ [category], true)
                else (categories, true))
             categories in
         (* Stop after finding categories *)
         if Nat.ltb 0 (length categories) then (categories, false)
         else (categories, true))
      [] in
  firstn 5 categories.                               (* Limit to 5 categories *)

(** ** generateTags (lines 541-582) *)
Definition keywordTags : list (jsstring * jsstring) :=
  [ (js "wireless", js "Wireless"); (js "bluetooth", js "Bluetooth");
    (js "smart", js "Smart Device"); (js "premium", js "Premium");
    (js "professional", js "Professional"); (js "portable", js "Portable");
    (js "waterproof", js "Waterproof");
    (js "rechargeable", js "Rechargeable") ].

(** The callback of the loop over [Object.entries(keywordTags)]. *)
Definition add_keyword_tag (title : jsstring) (entry : jsstring * jsstring)
    (tags : list jsstring) : list jsstring * bool :=
  let (keyword, tag) := entry in
  if includes title keyword && negb (array_includes tags tag)
  then (tags ++ [tag], true)
  else (tags, true).

Definition generateTags (productData : productData) : list jsstring :=
  let tags := [] in
  (* Add tags based on product data *)
  let tags :=
    if truthy (brand productData) then tags ++ [brand productData] else tags in
  let tags :=
    match rating (stars productData) with
    | Some r =>
        if truthy r && num_ge (parseFloat r) (of_Z 4)
        then tags ++ [js "Highly Rated"] else tags
    | None => tags
    end in
  let tags :=
    match offerPercentage (price productData) with
    | Some pct =>
        if truthy pct then
          let discount := parseInt pct in
          if num_ge discount (of_Z 50) then tags ++ [js "Great Deal"]
          else if num_ge discount (of_Z 20) then tags ++ [js "Good Deal"]
          else tags
        else tags
    | None => tags
    end in
  (* Add tags based on title keywords *)
  let title := toLowerCase (title productData) in
  let tags := forEach keywordTags (add_keyword_tag title) tags in
  firstn 8 tags.                                     (* Limit to 8 tags *)

(** ** scrapeProduct, from the parsed page on (lines 73-101) *)
Definition extract (doc : page) (url : jsstring) : productData :=
  let productData :=
    ProductData (extractTitle doc) (extractBrand doc) (extractModel doc)
                (extractASIN doc url) (extractPricing doc) (extractRating doc)
                (extractColors doc) (extractAboutItem doc)
                (extractTechnicalData doc) (extractImages doc)
                (extractCategories doc) [] in
  ProductData (title productData) (brand productData) (model productData)
              (asin productData) (price productData) (stars productData)
              (colors productData) (aboutItem productData)
              (technicalData productData) (images productData)
              (categories productData) (generateTags productData).

(** ** scrapeProduct (lines 51-107)

    [get] stands for [axios.get] followed by [cheerio.load]: the page, or
    the message of what was thrown.  A [url] that is no string has no
    [match] method, which [extractASIN] finds out. *)
Definition scrapeProduct (get : json -> outcome page) (url : json)
    : outcome productData :=
  match get url with
  | Returned doc =>
      match url with
      | JStr u => Returned (extract doc u)
      | _ => Thrown (js "Failed to scrape product: url.match is not a function")
      end
  | Thrown message => Thrown (js "Failed to scrape product: " ++ message)
  end.

End Scraper.

(* ================================================================= *)
(** * POST /api/scrape (lines 697-722) *)
(* ================================================================= *)

Module Api.
Import Scraper.

(** [req.body]: the members of the parsed JSON object. *)
Definition body := list (jsstring * json).

Fixpoint member (name : jsstring) (b : body) : option json :=
  match b with
  | [] => None
  | (k, v) :: b' => if str_eqb name k then Some v else member name b'
  end.

Inductive response : Type :=
| ErrorJson (status : nat) (error : jsstring)   (* res.status(n).json({error}) *)
| ProductJson (p : productData).                (* res.json(productData) *)

(** What the handler does with a request: answer at once, or call
    [scraper.scrapeProduct(url)] and answer from its outcome. *)
Inductive handling : Type :=
| Respond (r : response)
| AwaitScraper (url : json) (answer : outcome productData -> response).

Definition answer_scrape (o : outcome productData) : response :=
  match o with
  | Returned productData => ProductJson productData
  | Thrown message =>
      ErrorJson 500 (or_else message (js "Failed to scrape product"))
  end.

(** [url.includes('amazon.')]: substring test on a string, membership on
    an array; any other value has no such method. *)
Definition url_includes (url : json) (x : jsstring) : outcome bool :=
  match url with
  | JStr s => Returned (includes s x)
  | JArr items =>
      Returned (existsb (fun v => match v with
                                  | JStr s => str_eqb s x
                                  | _ => false
                                  end) items)
  | _ => Thrown (js "url.includes is not a function")
  end.

Definition post_scrape (b : body) : handling :=
  match member (js "url") b with
  | None => Respond (ErrorJson 400 (js "URL is required"))
  | Some url =>
      if negb (json_truthy url) then
        Respond (ErrorJson 400 (js "URL is required"))
      else
        (* Validate Amazon URL *)
        match url_includes url (js "amazon.") with
        | Returned false =>
            Respond (ErrorJson 400 (js "Please provide a valid Amazon product URL"))
        | Returned true => AwaitScraper url answer_scrape
        | Thrown message => Respond (answer_scrape (Thrown message))
        end
  end.

(** The whole route, given the fetcher. *)
Definition serve (get : json -> outcome Dom.page) (b : body) : response :=
  match post_scrape b with
  | Respond r => r
  | AwaitScraper url answer => answer (scrapeProduct get url)
  end.

Definition invokes_scraper (h : handling) : bool :=
  match h with AwaitScraper _ _ => true | Respond _ => false end.

End Api.

(* ================================================================= *)
(** * class AmazonScraper: the user agent (server.js, lines 38-49) *)
(* ================================================================= *)

Module UserAgent.

(** [this.userAgents], set in the constructor. *)
Definition userAgents : list jsstring :=
  [ js "Mozilla/5.0 (Windows NT 10.0; Win64; x64) AppleWebKit/537.36 "
      ++ js "(KHTML, like Gecko) Chrome/91.0.4472.124 Safari/537.36";
    js "Mozilla/5.0 (Macintosh; Intel Mac OS X 10_15_7) AppleWebKit/537.36 "
      ++ js "(KHTML, like Gecko) Chrome/91.0.4472.124 Safari/537.36";
    js "Mozilla/5.0 (Windows NT 10.0; Win64; x64; rv:89.0) "
      ++ js "Gecko/20100101 Firefox/89.0";
    js "Mozilla/5.0 (Macintosh; Intel Mac OS X 10_15_7) AppleWebKit/605.1.15 "
      ++ js "(KHTML, like Gecko) Version/14.1.1 Safari/605.1.15" ].

(** [getRandomUserAgent], given what [Math.random()] returns; [None] is
    [undefined]. *)
Definition getRandomUserAgent (random : number) : option jsstring :=
  array_at userAgents
    (math_floor (num_mul random (of_Z (Z.of_nat (length userAgents))))).

End UserAgent.

(* ================================================================= *)
(** * class ImageDownloader (server.js, lines 586-679) *)
(* ================================================================= *)

Module Downloader.

(** ** sanitizeFileName (lines 652-660) *)

(** The class of "invalid characters for folder names": the nine characters
    less-than, greater-than, colon, double quote, slash, backslash, bar,
    question mark and asterisk. *)
Definition is_invalid_char (c : char) : bool :=
  N.eqb c 60 || N.eqb c 62 || N.eqb c 58 || N.eqb c 34 || N.eqb c 47
  || N.eqb c 92 || N.eqb c 124 || N.eqb c 63 || N.eqb c 42.

Definition is_underscore (c : char) : bool := N.eqb (N_of_ascii "_") c.

(** The four patterns of the chain: the class above, [/\s+/g], [/_+/g] and
    [/^_|_$/g]. *)
Definition re_invalid : regex := Cls is_invalid_char.
Definition re_spaces : regex := plus space.
Definition re_underscores : regex := plus (lit "_").
Definition re_edge_underscore : list regex :=
  [seq [Bol; lit "_"]; seq [lit "_"; Eol]].

Definition sanitizeFileName (fileName : jsstring) : jsstring :=
  substring 100                          (* Limit length to 100 characters *)
    (replace_alts re_edge_underscore []  (* Remove leading/trailing underscores *)
       (replace_all re_underscores (js "_")
          (replace_all re_spaces (js "_")
             (replace_all re_invalid (js "_") fileName)))).

(** ** getImageExtension (lines 662-678) *)

(** "Try to get extension from content type first": [None] when the
    content type is missing or names none of the formats. *)
Definition extension_of_type (contentType : option jsstring)
    : option jsstring :=
  match contentType with
  | Some ct =>
      if truthy ct then
        if includes ct (js "jpeg") || includes ct (js "jpg") then Some (js "jpg")
        else if includes ct (js "png") then Some (js "png")
        else if includes ct (js "webp") then Some (js "webp")
        else if includes ct (js "gif") then Some (js "gif")
        else None
      else None
  | None => None
  end.

Definition urlExtensions : list jsstring :=
  [js "jpg"; js "jpeg"; js "png"; js "webp"; js "gif"].

(** "Fall back to URL extension", then to the default. *)
Definition extension_of_url (url : jsstring) : jsstring :=
  let urlExt :=
    toLowerCase (hd [] (split_on 63 (pop (split_on 46 url)))) in
  if array_includes urlExtensions urlExt then urlExt
  else js "jpg".                                     (* Default fallback *)

Definition getImageExtension (url : jsstring) (contentType : option jsstring)
    : jsstring :=
  match extension_of_type contentType with
  | Some extension => extension
  | None => extension_of_url url
  end.

(** ** downloadImage (lines 591-650)

    The file system and the network stay outside: [world] gives what each
    call resolves to or throws, and the method is followed through the
    calls it makes, in order. *)
Inductive effect : Type :=
| Mkdir (dir : jsstring)             (* fs.mkdir(dir, { recursive: true }) *)
| Get (url : json)                   (* axios({ method: 'get', url, ... }) *)
| Save (filepath : jsstring)         (* pipeline(response.data, writer) *)
| WriteFile (path : jsstring)        (* fs.writeFile(productInfoPath, ...) *)
| Stat (filepath : jsstring).        (* fs.stat(filepath) *)

Record world : Type := World {
  mkdir     : jsstring -> outcome unit;
  request   : json -> outcome (option jsstring);  (* the content-type header *)
  save      : jsstring -> outcome unit;
  writeFile : jsstring -> outcome unit;
  stat_size : jsstring -> outcome number
}.

(** A computation that performs effects and returns or throws. *)
Definition io (A : Type) : Type := list effect -> outcome A * list effect.

Definition ret {A : Type} (a : A) : io A := fun done => (Returned a, done).
Definition throw {A : Type} (message : jsstring) : io A :=
  fun done => (Thrown message, done).
Definition bind {A B : Type} (m : io A) (k : A -> io B) : io B :=
  fun done =>
    match m done with
    | (Returned a, done') => k a done'
    | (Thrown message, done') => (Thrown message, done')
    end.
Definition perform {A : Type} (e : effect) (o : outcome A) : io A :=
  fun done => (o, done ++ [e]).
(** [try { m } catch (error) { handler(error.message) }] *)
Definition try_catch {A : Type} (m : io A) (handler : jsstring -> io A) : io A :=
  fun done =>
    match m done with
    | (Returned a, done') => (Returned a, done')
    | (Thrown message, done') => handler message done'
    end.

Notation "x <- m ;; k" := (bind m (fun x => k))
  (at level 61, m at next level, right associativity).
Notation "m ;;; k" := (bind m (fun _ => k))
  (at level 61, right associativity).

(** What [downloadImage] resolves to. *)
Inductive download : Type :=
| Downloaded (filename filepath productFolder : jsstring) (size : number)
| Failed (error : jsstring).

(** A method called on a value that is no string. *)
Definition as_string (method : string) (v : json) : io jsstring :=
  match v with
  | JStr s => ret s
  | _ => throw (js method ++ js " is not a function")
  end.

Section Paths.

(** [path.join] and the downloads directory. *)
Variable path_join : jsstring -> jsstring -> jsstring.
Variable DOWNLOADS_DIR : jsstring.

Definition downloadImage (w : world) (imageUrl productId imageIndex : json)
    (productTitle : option json) : download * list effect :=
  let productTitle :=                          (* productTitle = '' *)
    match productTitle with Some t => t | None => JStr [] end in
  let attempt : io download :=
    (* Create product-specific folder *)
    fileName <- as_string "fileName.replace"
                  (if json_truthy productTitle then productTitle
                   else JStr (js "product-" ++ to_string productId)) ;;
    let sanitizedTitle := sanitizeFileName fileName in
    let productFolder := path_join DOWNLOADS_DIR sanitizedTitle in
    (* Ensure product folder exists *)
    perform (Mkdir productFolder) (mkdir w productFolder) ;;;
    contentType <- perform (Get imageUrl) (request w imageUrl) ;;
    (* Generate filename *)
    extension <-
      match extension_of_type contentType with
      | Some extension => ret extension
      | None => url <- as_string "url.split" imageUrl ;; ret (extension_of_url url)
      end ;;
    let filename :=
      js "image-" ++ to_string (plus_one imageIndex) ++ js "." ++ extension in
    let filepath := path_join productFolder filename in
    (* Download and save the image *)
    perform (Save filepath) (save w filepath) ;;;
    (* Also save product info as JSON in the same folder *)
    let productInfoPath := path_join productFolder (js "product-info.json") in
    try_catch (perform (WriteFile productInfoPath) (writeFile w productInfoPath))
              (fun _ => ret tt) ;;;
    size <- perform (Stat filepath) (stat_size w filepath) ;;
    ret (Downloaded filename filepath productFolder size) in
  match attempt [] with
  | (Returned result, done) => (result, done)
  | (Thrown message, done) => (Failed message, done)
  end.

End Paths.

End Downloader.

(* ================================================================= *)
(** * POST /api/download-image (server.js, lines 725-755) *)
(* ================================================================= *)

Module DownloadApi.
Import Api.

Import Downloader.

Inductive reply : Type :=
| JsonError (status : nat) (error : jsstring)  (* res.status(n).json({error}) *)
| FileStream (disposition contentType filepath : jsstring).

(** What the handler does with a request: answer at once, or call
    [downloadImage(url, productId, index, productTitle)] and answer from
    what it resolves to. *)
Inductive step : Type :=
| Reply (r : reply)
| AwaitDownload (url productId index : json) (productTitle : option json)
                (k : download -> reply).

(** A header value that [res.setHeader] accepts: tab, U+0020..U+007E and
    U+0080..U+00FF; any other code unit makes it throw. *)
Definition header_value_ok (v : jsstring) : bool :=
  forallb (fun c => N.eqb c 9 || in_range 32 126 c || in_range 128 255 c) v.

Definition answer_download (result : download) : reply :=
  match result with
  | Downloaded filename filepath _ _ =>
      (* Send the file as response *)
      let disposition :=
        js "attachment; filename=" ++ js Dom.dquote ++ filename ++ js Dom.dquote in
      if header_value_ok disposition
      then FileStream disposition (js "image/jpeg") filepath
      else JsonError 500 (js "Failed to download image")
  | Failed error => JsonError 500 error
  end.

Definition post_download_image (b : body) : step :=
  match member (js "url") b, member (js "productId") b,
        member (js "index") b with
  | Some url, Some productId, Some index =>
      if negb (json_truthy url) then
        Reply (JsonError 400 (js "Missing required parameters"))
      else
        AwaitDownload url productId index (member (js "productTitle") b)
                      answer_download
  | _, _, _ => Reply (JsonError 400 (js "Missing required parameters"))
  end.

Definition invokes_downloader (h : step) : bool :=
  match h with AwaitDownload _ _ _ _ _ => true | Reply _ => false end.

(** The whole route, given [downloadImage]. *)
Definition serve
    (downloadImage : json -> json -> json -> option json -> download)
    (b : body) : reply :=
  match post_download_image b with
  | Reply r => r
  | AwaitDownload url productId index productTitle k =>
      k (downloadImage url productId index productTitle)
  end.

End DownloadApi.

(* ================================================================= *)
(** * The client (script.js) *)
(* ================================================================= *)

Module Client.

(** ** sanitizeFileName (script.js, lines 341-349): the chain of the
    server's [sanitizeFileName], a default for a missing or empty name and a
    limit of 50. *)
Definition sanitizeFileName (fileName : option jsstring) : jsstring :=
  if negb (truthy_opt fileName) then js "unknown-product"
  else
    substring 50
      (replace_alts Downloader.re_edge_underscore []
         (replace_all Downloader.re_underscores (js "_")
            (replace_all Downloader.re_spaces (js "_")
               (replace_all Downloader.re_invalid (js "_")
                  (or_empty fileName))))).

End Client.

(* ================================================================= *)
(** * The vocabulary of the statements *)
(* ================================================================= *)

Import Dom Scraper Api UserAgent Downloader.

(** ** Notions *)

(** The trimmed text of the first element of the first selector of a chain
    that the pattern matches: the "first matching node" of a chain. *)
Definition first_matching_text (doc : page) (re : regex)
    (sels : list selector) : option jsstring :=
  first_hit (fun sel =>
               let t := first_text doc sel in
               if test re t then Some t else None) sels.

(** The statement of C6, for one page. *)
Definition count_is_comma_stripped (doc : page) : Prop :=
  first_matching_text doc re_rating ratingSelectors
    = Some (js "4.5 out of 5 stars") ->
  first_matching_text doc re_count countSelectors
    = Some (js "1,234 ratings") ->
  rating (extractRating doc) = Some (js "4.5")
  /\ ratingCount (extractRating doc) = Some (js "1234").

(** The statement of C2, for one page: whichever chain alone finds a
    price, both fields get it. *)
Definition mirrored_both_ways (doc : page) : Prop :=
  let cur := current_chain doc in
  let orig := original_chain doc cur in
  (truthy cur = true -> truthy orig = false ->
   offerPrice (extractPricing doc) = Some cur
   /\ originalPrice (extractPricing doc) = Some cur)
  /\ (truthy cur = false -> truthy orig = true ->
      offerPrice (extractPricing doc) = Some orig
      /\ originalPrice (extractPricing doc) = Some orig).

(** A number of hundredths written with two decimal places. *)
Definition two_decimals (n : N) : jsstring :=
  digits_of_N (n / 100) ++ js "."
  ++ [(48 + (n / 10) mod 10)%N; (48 + n mod 10)%N].

(** [n] is the number of hundredths nearest to the magnitude of [x], the
    larger one on a tie. *)
Definition hundredths (x : number) (n : N) : Prop :=
  match x with
  | S754_zero _ => n = 0%N
  | S754_finite _ m e =>
      let (num, den) := fraction m e in
      (2 * den * Z.of_N n <= 200 * num + den < 2 * den * (Z.of_N n + 1))%Z
  | _ => False
  end.

(** [s] is [x] written with exactly two decimal places: a minus sign when
    [x] is negative, then the hundredths nearest to its magnitude. *)
Definition rendered_with_two_decimals (x : number) (s : jsstring) : Prop :=
  exists n,
    hundredths x n
    /\ s = match x with S754_finite true _ _ => js "-" | _ => [] end
           ++ two_decimals n.

(** Is [x] a number of magnitude below [10^21]? *)
Definition below_1e21 (x : number) : bool :=
  match x with
  | S754_zero _ => true
  | S754_finite _ m e =>
      let (num, den) := fraction m e in (num <? den * 10 ^ 21)%Z
  | _ => false
  end.

(** The statement of C1, for one page. *)
Definition savings_as_claimed (doc : page) : Prop :=
  forall offer orig,
    offerPrice (extractPricing doc) = Some offer ->
    originalPrice (extractPricing doc) = Some orig ->
    orig <> offer ->
    num_gt (price_number orig) (price_number offer) = true ->
    let saved := num_sub (price_number orig) (price_number offer) in
    (exists s,
       amountSaved (extractPricing doc) = Some s
       /\ rendered_with_two_decimals saved s)
    /\ (discount_chain doc = None ->
        offerPercentage (extractPricing doc)
        = Some (number_to_string
                  (math_round (num_mul (num_div saved (price_number orig))
                                       (of_Z 100)))
                ++ js "% off")).

(** A ten-character upper-case alphanumeric path segment. *)
Definition is_asin_segment (seg : jsstring) : Prop :=
  length seg = 10 /\ forallb is_upper_alnum seg = true.

(** [url] holds the segment [seg] between slashes, after [pre]. *)
Definition segment_at (url pre seg post : jsstring) : Prop :=
  url = pre ++ js "/" ++ seg ++ js "/" ++ post /\ is_asin_segment seg.

(** No such segment of [url] starts before the one after [pre]. *)
Definition first_segment (url pre : jsstring) : Prop :=
  forall pre' seg' post', segment_at url pre' seg' post' ->
                          length pre <= length pre'.

(** The statement of C5, for one page and URL. *)
Definition asin_is_any_segment (doc : page) (url : jsstring) : Prop :=
  forall pre seg post,
    segment_at url pre seg post -> asin (extract doc url) = seg.

(** What the URL pattern matches at the head of a string: a slash, ten
    upper-case letters or digits, a slash. *)
Definition asin_here (s : jsstring) : option jsstring :=
  match s with
  | c :: s' =>
      if N.eqb 47 c
         && Nat.leb 10 (length s') && forallb is_upper_alnum (firstn 10 s')
      then match skipn 10 s' with
           | c' :: _ => if N.eqb 47 c' then Some (firstn 10 s') else None
           | [] => None
           end
      else None
  | [] => None
  end.

(** The leftmost place where the pattern matches. *)
Fixpoint asin_search (s : jsstring) : option jsstring :=
  match asin_here s with
  | Some g => Some g
  | None =>
      match s with
      | [] => None
      | _ :: s' => asin_search s'
      end
  end.

(** A matching step that never lengthens the input left to read. *)
Definition shrinks (step : rstate -> list rstate) : Prop :=
  forall st st', In st' (step st) -> length (rest st') <= length (rest st).

(** A field that is unset or the empty string. *)
Definition blank_field (o : option jsstring) : Prop := o = None \/ o = Some [].

(** The statement of C4 about the record returned for a page and a URL:
    every field the extractor fills is at its empty default. *)
Definition all_fields_blank (p : productData) : Prop :=
  title p = [] /\ brand p = [] /\ model p = [] /\ asin p = []
  /\ blank_field (offerPrice (price p))
  /\ blank_field (originalPrice (price p))
  /\ blank_field (offerPercentage (price p))
  /\ blank_field (amountSaved (price p))
  /\ blank_field (rating (stars p))
  /\ blank_field (ratingCount (stars p))
  /\ colors p = [] /\ aboutItem p = [] /\ technicalData p = []
  /\ images p = [] /\ categories p = [] /\ tags p = [].

(** The selectors the extractors query the page with, field by field. *)
Definition fieldSelectors : list selector :=
  titleSelectors ++ brandSelectors ++ modelSelectors
  ++ ["#tech tbody tr, #productDetails_detailBullets_sections1 tbody tr"]
  ++ asinSelectors
  ++ currentSelectors ++ originalSelectors ++ ["span"] ++ discountSelectors
  ++ ["script" +++ attr_is "type" "application/ld+json"]
  ++ ratingSelectors ++ countSelectors ++ colorSelectors ++ aboutSelectors
  ++ techSelectors ++ imageSelectors ++ breadcrumbSelectors.

(** No selector of any field matches a node of the page. *)
Definition no_field_matches (doc : page) : bool :=
  forallb (fun sel => match doc sel with [] => true | _ :: _ => false end)
          fieldSelectors.

(** The statement of C4, for one page and URL. *)
Definition blank_page_blank_record (doc : page) (url : jsstring) : Prop :=
  no_field_matches doc = true ->
  exists p,
    scrapeProduct (fun _ => Returned doc) (JStr url) = Returned p
    /\ all_fields_blank p.

(** Does the value of [url] contain the substring "amazon."? *)
Definition contains_amazon (url : json) : bool :=
  match url with
  | JStr s => includes s (js "amazon.")
  | _ => false
  end.

(** The statement of C10, for one request body. *)
Definition validation_as_claimed (b : body) : Prop :=
  (member (js "url") b = None ->
   post_scrape b = Respond (ErrorJson 400 (js "URL is required")))
  /\ (forall url,
        member (js "url") b = Some url -> contains_amazon url = false ->
        exists message, post_scrape b = Respond (ErrorJson 400 message)).

(** The record of the tag example of the specification, for any brand. *)
Definition speaker (b : jsstring) : productData :=
  ProductData (js "Premium Wireless Bluetooth Speaker") b [] []
              (Pricing None None None None)
              (RatingInfo (Some (js "4.6")) None) [] [] [] [] [] [].

Definition newline : jsstring := [10%N].

(** ** Pages *)

(** A page whose byline reads "Highly Rated" and whose rating is 4.5:
    [<a id="bylineInfo">Highly Rated</a>
     <i class="a-icon-alt">4.5 out of 5 stars</i>]. *)
Definition page_brand_highly_rated : page :=
  page_of [ ("#bylineInfo", [text_node "Highly Rated"]);
            (".a-icon-alt", [text_node "4.5 out of 5 stars"]) ].

(** A page from which that record is extracted with the brand
    "Highly Rated":
    [<h1 id="productTitle">Premium Wireless Bluetooth Speaker</h1>
     <a id="bylineInfo">Highly Rated</a>
     <i class="a-icon-alt">4.6 out of 5 stars</i>]. *)
Definition page_speaker : page :=
  page_of [ ("#productTitle", [text_node "Premium Wireless Bluetooth Speaker"]);
            ("#bylineInfo", [text_node "Highly Rated"]);
            (".a-icon-alt", [text_node "4.6 out of 5 stars"]) ].

(** Two specification tables, one under [#tech] and one with class
    [a-keyvalue]:
    [<table id="tech"><tbody><tr><th>Brand</th><td>Acme</td></tr></tbody></table>
     <table class="a-keyvalue"><tbody><tr><th>Weight</th><td>2 kg</td></tr></tbody></table>]. *)
Definition spec_row (label value : string) : node :=
  Node (js label ++ js value) []
       (page_of [ ("td:first-child, th:first-child", [text_node label]);
                  ("td:last-child, td:nth-child(2)", [text_node value]);
                  ("td:last-child", [text_node value]) ])
       None.

Definition page_two_tables : page :=
  page_of [ ("#tech tbody tr", [spec_row "Brand" "Acme"]);
            (".a-keyvalue tbody tr", [spec_row "Weight" "2 kg"]);
            ("#tech tbody tr, #productDetails_detailBullets_sections1 tbody tr",
             [spec_row "Brand" "Acme"]) ].

(** Two breadcrumb trails:
    [<div id="wayfinding-breadcrumbs_container"><a>Electronics</a></div>
     <ul class="a-breadcrumb"><li><a>Headphones</a></li></ul>]. *)
Definition page_two_trails : page :=
  page_of [ ("#wayfinding-breadcrumbs_container a", [text_node "Electronics"]);
            (".a-breadcrumb a", [text_node "Headphones"]) ].

(** [<i class="a-icon-alt">4.5 out of 5 stars</i>
     <a id="acrCustomerReviewText">1,234 ratings</a>] *)
Definition page_rated : page :=
  page_of [ (".a-icon-alt", [text_node "4.5 out of 5 stars"]);
            ("#acrCustomerReviewText", [text_node "1,234 ratings"]) ].

(** Only a "was" price, outside any [span]:
    [<div data-cy="original-price">$20.00</div>]. *)
Definition page_only_was_price : page :=
  page_of [ (attr_is "data-cy" "original-price", [text_node "$20.00"]) ].

(** [<span class="a-price"><span class="a-offscreen">$19.99</span></span>] *)
Definition page_one_price : page :=
  page_of [ (".a-price .a-offscreen", [text_node "$19.99"]);
            ("span", [text_node "$19.99"; text_node "$19.99"]) ].

(** [<span class="a-price"><span class="a-offscreen">$19.99</span></span>
     <span class="a-price a-text-price"><span class="a-offscreen">$29.99</span></span>] *)
Definition page_discounted : page :=
  page_of [ (".a-price .a-offscreen", [text_node "$19.99"; text_node "$29.99"]);
            (".a-price.a-text-price .a-offscreen", [text_node "$29.99"]);
            (".a-text-price", [text_node "$29.99"]);
            ("span", [ text_node "$19.99"; text_node "$19.99";
                       text_node "$29.99"; text_node "$29.99" ]) ].

(** A page that carries another identifier in its attributes:
    [<div data-asin="B000000000"></div>]. *)
Definition page_other_asin : page :=
  page_of [ ("[data-asin]",
             [Node [] [("data-asin", js "B000000000")] (fun _ => []) None]) ].

(** An offer of one dollar and a "was" price of [10^24] dollars. *)
Definition page_huge_was_price : page :=
  page_of [ (".a-price .a-offscreen", [text_node "$1.00"]);
            (".a-text-price", [text_node "$1000000000000000000000000"]) ].

(** A page with text that no selector of a field matches:
    [<p>Sorry, we could not find that page.</p>]. *)
Definition page_not_found : page :=
  page_of [ ("p", [text_node "Sorry, we could not find that page."]) ].

(** ** What a pattern can consume *)

(** The words a pattern can consume, anchors aside: the declarative reading
    of the pattern language. *)
Fixpoint lang (r : regex) (w : jsstring) : Prop :=
  match r with
  | Eps | Bol | Eol => w = []
  | Cls q => exists c, w = [c] /\ q c = true
  | Cat r1 r2 => exists u v, w = u ++ v /\ lang r1 u /\ lang r2 v
  | Rep _ lo hi r' =>
      exists ws, w = concat ws /\ Forall (lang r') ws /\ lo <= length ws
                 /\ match hi with Some h => length ws <= h | None => True end
  | Cap _ r' => lang r' w
  end.

Fixpoint cap_free (r : regex) : bool :=
  match r with
  | Cap _ _ => false
  | Cat r1 r2 => cap_free r1 && cap_free r2
  | Rep _ _ _ r' => cap_free r'
  | _ => true
  end.

(** No repetition asks for more rounds than it allows. *)
Definition bound_ok (lo : nat) (hi : option nat) : bool :=
  match hi with Some h => Nat.leb lo h | None => true end.

Fixpoint bounds_ok (r : regex) : bool :=
  match r with
  | Rep _ lo hi r' => bound_ok lo hi && bounds_ok r'
  | Cat r1 r2 => bounds_ok r1 && bounds_ok r2
  | Cap _ r' => bounds_ok r'
  | _ => true
  end.

(** From [st] to [st'] the matcher has read the word [w]. *)
Definition advance (st st' : rstate) (w : jsstring) : Prop :=
  rest st = w ++ rest st' /\ pos st' = pos st + length w.

(** A byline the brand chain passes over. *)
Definition unusable_byline (t : jsstring) : bool :=
  negb (truthy t) || includes (toLowerCase t) (js "visit")
  || includes (toLowerCase t) (js "store").

(** The code units a brand read from the title is made of. *)
Definition is_brand_char (c : char) : bool :=
  is_lower c || is_upper c || is_space c || N.eqb c 38 || N.eqb c 45.

(** A row of the details table that [extractModel] takes the model from. *)
Definition is_model_row (row : node) : bool :=
  let label :=
    toLowerCase (trim (text (find row "td:first-child, th:first-child"))) in
  let value := trim (text (find row "td:last-child")) in
  includes label (js "model") && negb (includes label (js "number"))
  && (truthy value && negb (str_eqb value (js "N/A"))
      && negb (str_eqb value (js "-"))).

(** ** Pages for the brand and the model *)

(** Pages for the brand and model fallbacks.
    [<h1 id="productTitle">Sony WH-1000XM4 Wireless Headphones</h1>
     <a id="bylineInfo">Visit the Sony Store</a>] *)
Definition page_store_byline : page :=
  page_of [ ("#productTitle", [text_node "Sony WH-1000XM4 Wireless Headphones"]);
            ("#bylineInfo", [text_node "Visit the Sony Store"]) ].

(** A details table with the rows "Item model number: WH1000XM4/B" and
    "Model Name: WH-1000XM4". *)
Definition page_model_rows : page :=
  page_of [ ("#tech tbody tr, #productDetails_detailBullets_sections1 tbody tr",
             [ spec_row "Item model number" "WH1000XM4/B";
               spec_row "Model Name" "WH-1000XM4" ]) ].

(** ** Prices, tags, bullets and table rows *)

(** The JSON-LD scripts of a page, and the offer price that the loop over
    them leaves: the price of the last script that has one. *)
Definition ld_scripts (doc : page) : list node :=
  doc ("script" +++ attr_is "type" "application/ld+json").

Fixpoint last_offer_price (scripts : list node) (found : option jsstring)
    : option jsstring :=
  match scripts with
  | [] => found
  | script :: scripts' =>
      last_offer_price scripts'
        match ld_offer_price script with
        | Some v => Some v
        | None => found
        end
  end.

(** A "was" price outside any [span] and two JSON-LD scripts with offer
    prices 19.99 and 17.49. *)
Definition page_ld_prices : page :=
  page_of [ (attr_is "data-cy" "original-price", [text_node "$20.00"]);
            ("script" +++ attr_is "type" "application/ld+json",
             [ Node [] [] (fun _ => []) (Some (js "19.99"));
               Node [] [] (fun _ => []) (Some (js "17.49")) ]) ].

(** A "was" price outside any [span] and a JSON-LD script without an offer
    price. *)
Definition page_was_price_and_script : page :=
  page_of [ (attr_is "data-cy" "original-price", [text_node "$20.00"]);
            ("script" +++ attr_is "type" "application/ld+json",
             [Node [] [] (fun _ => []) None]) ].

(** The tags [generateTags] can add besides the brand. *)
Definition tagVocabulary : list jsstring :=
  js "Highly Rated" :: js "Great Deal" :: js "Good Deal" :: map snd keywordTags.

(** The array [tags] of [generateTags] before [tags.slice(0, 8)]. *)
Definition tags_before_cap (productData : productData) : list jsstring :=
  let tags := [] in
  let tags :=
    if truthy (brand productData) then tags ++ [brand productData] else tags in
  let tags :=
    match rating (stars productData) with
    | Some r =>
        if truthy r && num_ge (parseFloat r) (of_Z 4)
        then tags ++ [js "Highly Rated"] else tags
    | None => tags
    end in
  let tags :=
    match offerPercentage (price productData) with
    | Some pct =>
        if truthy pct then
          let discount := parseInt pct in
          if num_ge discount (of_Z 50) then tags ++ [js "Great Deal"]
          else if num_ge discount (of_Z 20) then tags ++ [js "Good Deal"]
          else tags
        else tags
    | None => tags
    end in
  let title := toLowerCase (title productData) in
  forEach keywordTags (add_keyword_tag title) tags.

(** A record whose brand, rating, discount and title trigger every tag. *)
Definition fully_tagged : productData :=
  ProductData
    (js "Premium Professional Portable Waterproof Rechargeable Smart Wireless Bluetooth Speaker")
    (js "Acme") [] []
    (Pricing None None (Some (js "60%")) None)
    (RatingInfo (Some (js "4.5")) None) [] [] [] [] [] [].

(** An element that [extractAboutItem] keeps, a row that
    [extractTechnicalData] keeps, and the line written for it. *)
Definition is_about_item (el : node) : bool :=
  let text := trim (text_content el) in
  truthy text && Nat.ltb 10 (length text)
  && negb (includes (toLowerCase text) (js "see more")).

Definition is_tech_row (row : node) : bool :=
  let label := trim (text (find row "td:first-child, th:first-child")) in
  let value := trim (text (find row "td:last-child, td:nth-child(2)")) in
  truthy label && truthy value && negb (str_eqb value (js "N/A"))
  && negb (str_eqb value (js "-")) && negb (str_eqb value empty_glyph).

Definition tech_line (row : node) : jsstring :=
  trim (text (find row "td:first-child, th:first-child")) ++ js ": "
  ++ trim (text (find row "td:last-child, td:nth-child(2)")).

(** Feature bullets, alone and with a product description after them:
    [<div id="feature-bullets"><ul><li><span>Up to 30 hours of battery
     life</span></li></ul></div>
     <div id="productDescription"><p>Industry-leading noise
     cancellation</p></div>]. *)
Definition page_bullets : page :=
  page_of [ ("#feature-bullets ul li span",
             [text_node "Up to 30 hours of battery life"]) ].

Definition page_bullets_and_description : page :=
  page_of [ ("#feature-bullets ul li span",
             [text_node "Up to 30 hours of battery life"]);
            ("#productDescription p",
             [text_node "Industry-leading noise cancellation"]) ].

(** ** Dollar amounts and discounts *)

(** A price text that holds a dollar amount: a dollar sign followed by a
    digit or a comma. *)
Definition dollar_amount (price : jsstring) : Prop :=
  exists pre c post,
    price = pre ++ js "$" ++ c :: post /\ (is_digit c || N.eqb c 44) = true.

(** A Number that is not positive: a zero, or negative, or NaN. *)
Definition not_positive (x : number) : Prop :=
  match x with
  | S754_zero _ | S754_nan => True
  | S754_infinity s | S754_finite s _ _ => s = true
  end.

(** A record whose discount is written the way the savings badge writes
    it. *)
Definition badge_discount : productData :=
  ProductData (js "Echo Dot") (js "Amazon") [] []
              (Pricing None None (Some (js "-25%")) None)
              (RatingInfo None None) [] [] [] [] [] [].

(** ** Folder names and image URLs *)

(** The two global replacements of runs, read as scans of the string:
    [squeeze q by] writes [by] for every maximal run of code units of the
    class [q] ([inside] tells that the scan is within a run), and the edge
    pattern drops one underscore at the start and one at the end. *)
Fixpoint squeeze (q : char -> bool) (by_ : jsstring) (inside : bool)
    (s : jsstring) : jsstring :=
  match s with
  | [] => []
  | c :: s' =>
      if q c then (if inside then [] else by_) ++ squeeze q by_ true s'
      else c :: squeeze q by_ false s'
  end.

Definition drop_first_underscore (s : jsstring) : jsstring :=
  match s with
  | c :: s' => if is_underscore c then s' else s
  | [] => []
  end.

Fixpoint drop_last_underscore (s : jsstring) : jsstring :=
  match s with
  | [] => []
  | [c] => if is_underscore c then [] else [c]
  | c :: s' => c :: drop_last_underscore s'
  end.

(** The states a greedy repetition of a class, at least [lo] times, can end
    in: the longest run first. *)
Fixpoint munch (q : char -> bool) (lo p : nat) (s : jsstring)
    (cs : list (nat * jsstring)) : list rstate :=
  match s with
  | c :: s' =>
      (if q c then munch q (Nat.pred lo) (S p) s' cs else [])
      ++ (if Nat.eqb lo 0 then [RState p s cs] else [])
  | [] => if Nat.eqb lo 0 then [RState p s cs] else []
  end.

(** [s.endsWith(p)] *)
Definition ends_with (p s : jsstring) : bool := starts_with (rev p) (rev s).

(** A name that the chain of [sanitizeFileName] has nothing to change in,
    and one it leaves nothing of. *)
Definition is_clean_char (c : char) : bool :=
  negb (is_invalid_char c) && negb (is_space c) && negb (is_underscore c).
Definition is_dropped_char (c : char) : bool :=
  is_invalid_char c || is_space c || is_underscore c.

(** The end of an image URL: nothing, or a question mark and a query. *)
Definition query_part (query : option jsstring) : jsstring :=
  match query with Some q => js "?" ++ q | None => [] end.

(** A string without the code unit [c]. *)
Definition lacks (c : char) (s : jsstring) : bool :=
  forallb (fun x => negb (N.eqb x c)) s.

(** ** Downloads *)

(** The name [downloadImage] makes the folder from: the title when it is
    truthy, "product-" and the product id otherwise. *)
Definition folder_source (productTitle : option json) (productId : json)
    : json :=
  match productTitle with
  | Some t =>
      if json_truthy t then t else JStr (js "product-" ++ to_string productId)
  | None => JStr (js "product-" ++ to_string productId)
  end.

(** The extension [downloadImage] gets for a URL and a content type:
    [None] when the content type does not decide and the URL is no string,
    so that [url.split] throws. *)
Definition extension_for (imageUrl : json) (contentType : option jsstring)
    : option jsstring :=
  match extension_of_type contentType with
  | Some extension => Some extension
  | None =>
      match imageUrl with
      | JStr url => Some (extension_of_url url)
      | _ => None
      end
  end.

(** The code units that the rendering of a Number is made of: digits, the
    point, the signs, and the letters of "e", "Infinity" and "NaN". *)
Definition is_number_char (c : char) : bool :=
  is_digit c || existsb (N.eqb c) (js ".+-eInfinityNaN").

(** The code units that the file name of a numbered image is made of. *)
Definition is_file_name_char (c : char) : bool :=
  is_number_char c || is_lower c.

(** A world in which every call succeeds but the writing of
    product-info.json, and the content type is PNG. *)
Definition world_without_info : world :=
  World (fun _ => Returned tt) (fun _ => Returned (Some (js "image/png")))
        (fun _ => Returned tt) (fun _ => Thrown (js "EACCES"))
        (fun _ => Returned (of_Z 1234)).

(** ** Random numbers *)

(** What [Math.random()] can return: a Number of the format, at least 0 and
    less than 1. *)
Definition is_random (x : number) : bool :=
  valid_binary prec emax x && num_ge x (S754_zero false)
  && num_gt (of_Z 1) x.

(* ================================================================= *)
(** * Properties *)
(* ================================================================= *)

(** ** Strings and lists *)

Lemma str_eqb_eq (a b : jsstring) : str_eqb a b = true <-> a = b.
Proof.
  revert b; induction a as [|x a IH]; intros [|y b]; simpl;
    try (split; [discriminate | discriminate]); try tauto.
  rewrite andb_true_iff, N.eqb_eq, IH.
  split; [intros [-> ->]; reflexivity | intros H; inversion H; auto].
Qed.

Lemma str_eqb_refl (a : jsstring) : str_eqb a a = true.
Proof. now apply str_eqb_eq. Qed.

Lemma str_eqb_neq (a b : jsstring) : str_eqb a b = false <-> a <> b.
Proof.
  rewrite <- str_eqb_eq. destruct (str_eqb a b); split; congruence.
Qed.

Lemma array_includes_In (xs : list jsstring) (x : jsstring) :
  array_includes xs x = true <-> In x xs.
Proof.
  unfold array_includes. rewrite existsb_exists. split.
  - intros (y & Hy & E). apply str_eqb_eq in E. now subst.
  - intros H. exists x. split; [assumption | apply str_eqb_refl].
Qed.

Lemma array_includes_not_In (xs : list jsstring) (x : jsstring) :
  array_includes xs x = false <-> ~ In x xs.
Proof.
  rewrite <- array_includes_In. destruct (array_includes xs x); split; congruence.
Qed.

Lemma truthy_nonempty (s : jsstring) : truthy s = true <-> s <> [].
Proof. destruct s; simpl; split; congruence. Qed.

Lemma NoDup_snoc {A : Type} (l : list A) (x : A) :
  NoDup l -> ~ In x l -> NoDup (l ++ [x]).
Proof.
  induction l as [|y l IH]; simpl; intros Hl Hx.
  - constructor; [tauto | constructor].
  - inversion_clear Hl as [|? ? Hy Hl'].
    constructor.
    + rewrite in_app_iff. simpl. intros [H | [H | []]]; [tauto | subst; tauto].
    + apply IH; tauto.
Qed.

Lemma NoDup_firstn_keep {A : Type} (n : nat) (l : list A) :
  NoDup l -> NoDup (firstn n l).
Proof.
  revert l; induction n as [|n IH]; intros [|x l] H; simpl; try constructor.
  - inversion_clear H as [|? ? Hx Hl].
    intros Hin. apply Hx. revert Hin. clear.
    revert l. induction n as [|n IHn]; intros [|y l]; simpl; try tauto.
    intros [-> | H]; [now left | right; now apply IHn].
  - inversion_clear H. now apply IH.
Qed.

Lemma map_firstn_comm {A B : Type} (f : A -> B) (n : nat) (l : list A) :
  map f (firstn n l) = firstn n (map f l).
Proof.
  revert l; induction n as [|n IH]; intros [|x l]; simpl; try reflexivity.
  now rewrite IH.
Qed.

Lemma app_same_length {A : Type} (a a' b b' : list A) :
  length a = length a' -> a ++ b = a' ++ b' -> a = a' /\ b = b'.
Proof.
  revert a'. induction a as [|x a IH]; intros [|x' a'] Hl H;
    try discriminate Hl.
  - now split.
  - cbn [app] in H. injection H as -> H. injection Hl as Hl.
    destruct (IH a' Hl H) as [-> ->]. now split.
Qed.

(** ** Iteration *)

(** A property kept by every call of the callback holds after [each] and
    after [forEach]. *)
Lemma each_from_invariant {S : Type} (P : S -> Prop) (sel : list node)
    (fn : nat -> node -> S -> S * bool) :
  (forall i n s, P s -> P (fst (fn i n s))) ->
  forall i s, P s -> P (each_from i sel fn s).
Proof.
  intros Hfn. induction sel as [|n sel IH]; simpl; intros i s Hs.
  - assumption.
  - specialize (Hfn i n s Hs). destruct (fn i n s) as [s' go]. simpl in Hfn.
    destruct go; [now apply IH | assumption].
Qed.

Lemma each_invariant {S : Type} (P : S -> Prop) (sel : list node)
    (fn : nat -> node -> S -> S * bool) :
  (forall i n s, P s -> P (fst (fn i n s))) ->
  forall s, P s -> P (each sel fn s).
Proof. intros H s. now apply each_from_invariant. Qed.

Lemma forEach_invariant {A S : Type} (P : S -> Prop) (xs : list A)
    (fn : A -> S -> S * bool) :
  (forall x s, P s -> P (fst (fn x s))) ->
  forall s, P s -> P (forEach xs fn s).
Proof.
  intros Hfn. unfold forEach.
  induction xs as [|x xs IH]; simpl; intros s Hs; [assumption |].
  apply IH. now apply Hfn.
Qed.

(** [forEach] visits every element, whatever the callback returns. *)
Lemma forEach_cons {A S : Type} (x : A) (xs : list A)
    (fn : A -> S -> S * bool) (s : S) :
  forEach (x :: xs) fn s = forEach xs fn (fst (fn x s)).
Proof. reflexivity. Qed.

Lemma forEach_fixed_in {A S : Type} (xs : list A) (fn : A -> S -> S * bool)
    (s : S) :
  (forall x, In x xs -> fst (fn x s) = s) -> forEach xs fn s = s.
Proof.
  unfold forEach. induction xs as [|x xs IH]; intros H; [reflexivity |].
  cbn [fold_left]. rewrite (H x (or_introl eq_refl)).
  apply IH. intros y Hy. apply H. now right.
Qed.

Lemma first_hit_none_in {A B : Type} (probe : A -> option B) (xs : list A) :
  (forall x, In x xs -> probe x = None) -> first_hit probe xs = None.
Proof.
  induction xs as [|x xs IH]; intros H; cbn [first_hit]; [reflexivity |].
  rewrite (H x (or_introl eq_refl)). apply IH. intros y Hy. apply H. now right.
Qed.

(** ** The matcher *)

(** The equations of the matcher. *)
Lemma run_Cat (r1 r2 : regex) (st : rstate) :
  run (Cat r1 r2) st = flat_map (run r2) (run r1 st).
Proof. reflexivity. Qed.

Lemma run_Cls (q : char -> bool) (st : rstate) :
  run (Cls q) st
  = match rest st with
    | c :: s' => if q c then [RState (S (pos st)) s' (caps st)] else []
    | [] => []
    end.
Proof. reflexivity. Qed.

Lemma run_Rep (g : bool) (lo : nat) (hi : option nat) (r : regex) (st : rstate) :
  run (Rep g lo hi r) st
  = repeat_run (run r) g (lo + length (rest st) + 1) lo hi st.
Proof. reflexivity. Qed.

Lemma run_Cap (i : nat) (r : regex) (st : rstate) :
  run (Cap i r) st
  = map (fun st' =>
           RState (pos st') (rest st')
             ((i, firstn (pos st' - pos st) (rest st)) :: caps st'))
        (run r st).
Proof. reflexivity. Qed.

(** Matching only consumes input, so the fuel of a repetition (its lower
    bound, the length of the input and one) is never used up: more fuel
    gives the same result. *)
Lemma repeat_run_shrinks (step : rstate -> list rstate) (g : bool) :
  shrinks step ->
  forall fuel lo hi, shrinks (repeat_run step g fuel lo hi).
Proof.
  intros Hs. induction fuel as [|fuel IH]; intros lo hi st st'; cbn [repeat_run].
  - intros [].
  - destruct (hi_done hi); [intros [<- | []]; lia |].
    assert (A : In st'
                  (flat_map
                     (fun st1 =>
                        if Nat.eqb lo 0
                           && Nat.eqb (length (rest st1)) (length (rest st))
                        then []
                        else repeat_run step g fuel (Nat.pred lo)
                               (option_map Nat.pred hi) st1)
                     (step st)) ->
                length (rest st') <= length (rest st)).
    { intros H. apply in_flat_map in H. destruct H as (st1 & H1 & H2).
      apply Hs in H1.
      destruct (Nat.eqb lo 0 && Nat.eqb (length (rest st1)) (length (rest st)));
        [destruct H2 |].
      apply IH in H2. lia. }
    destruct lo as [|lo]; [| exact A].
    destruct g.
    + intros H. apply in_app_or in H. destruct H as [H | [<- | []]];
        [now apply A | lia].
    + intros [<- | H]; [lia | now apply A].
Qed.

Lemma run_shrinks (r : regex) : shrinks (run r).
Proof.
  induction r as [| q | r1 IH1 r2 IH2 | g lo hi r IH | i r IH | |];
    intros st st'; cbn [run].
  - intros [<- | []]. lia.
  - destruct (rest st) as [|c s] eqn:E; [intros [] |].
    destruct (q c);
      [intros [<- | []]; cbn [rest length]; apply Nat.le_succ_diag_r | intros []].
  - intros H. apply in_flat_map in H. destruct H as (st1 & H1 & H2).
    apply IH1 in H1. apply IH2 in H2. eapply Nat.le_trans; eassumption.
  - apply repeat_run_shrinks, IH.
  - intros H. apply in_map_iff in H. destruct H as (st1 & <- & H1).
    apply IH in H1. exact H1.
  - destruct (Nat.eqb (pos st) 0); [intros [<- | []]; lia | intros []].
  - destruct (rest st) eqn:E;
      [intros [<- | []]; rewrite E; apply Nat.le_refl | intros []].
Qed.

Lemma repeat_run_fuel (step : rstate -> list rstate) (g : bool) :
  shrinks step ->
  forall fuel1 fuel2 lo hi st,
    lo + length (rest st) < fuel1 -> lo + length (rest st) < fuel2 ->
    repeat_run step g fuel1 lo hi st = repeat_run step g fuel2 lo hi st.
Proof.
  intros Hs. induction fuel1 as [|fuel1 IH]; intros fuel2 lo hi st H1 H2;
    [lia |].
  destruct fuel2 as [|fuel2]; [lia |]. cbn [repeat_run].
  destruct (hi_done hi); [reflexivity |].
  assert (A : flat_map
                (fun st1 =>
                   if Nat.eqb lo 0
                      && Nat.eqb (length (rest st1)) (length (rest st))
                   then []
                   else repeat_run step g fuel1 (Nat.pred lo)
                          (option_map Nat.pred hi) st1)
                (step st)
              = flat_map
                  (fun st1 =>
                     if Nat.eqb lo 0
                        && Nat.eqb (length (rest st1)) (length (rest st))
                     then []
                     else repeat_run step g fuel2 (Nat.pred lo)
                            (option_map Nat.pred hi) st1)
                  (step st)).
  { rewrite !flat_map_concat_map. f_equal. apply map_ext_in.
    intros st1 Hin. apply Hs in Hin.
    destruct (Nat.eqb lo 0) eqn:E0; cbn [andb].
    - destruct (Nat.eqb (length (rest st1)) (length (rest st))) eqn:E1;
        [reflexivity |].
      apply Nat.eqb_eq in E0. apply Nat.eqb_neq in E1. subst lo.
      apply IH; cbn [Nat.pred]; lia.
    - apply Nat.eqb_neq in E0. apply IH; lia. }
  now rewrite A.
Qed.

(** An exactly repeated class consumes that many code units of the class
    or fails. *)
Lemma repeat_run_exact (q : char -> bool) (g : bool) (n : nat) :
  forall fuel st, n < fuel ->
  repeat_run (run (Cls q)) g fuel n (Some n) st
  = if Nat.leb n (length (rest st)) && forallb q (firstn n (rest st))
    then [RState (pos st + n) (skipn n (rest st)) (caps st)]
    else [].
Proof.
  induction n as [|n IH]; intros fuel [p s cs] Hf;
    (destruct fuel as [|fuel]; [lia |]); cbn [repeat_run hi_done rest pos caps].
  - cbn [Nat.leb firstn forallb andb skipn]. now rewrite Nat.add_0_r.
  - rewrite run_Cls. cbn [rest pos caps Nat.eqb andb Nat.pred option_map].
    destruct s as [|c s]; [reflexivity |].
    cbn [firstn forallb skipn length Nat.leb].
    destruct (q c); cbn [flat_map andb]; [| now rewrite andb_false_r].
    rewrite app_nil_r, IH by lia. cbn [rest pos caps].
    now replace (S p + n) with (p + S n) by lia.
Qed.

Lemma match_here_class (q : char -> bool) (p : nat) (c : char) (t : jsstring) :
  match_here (Cls q) p (c :: t)
  = if q c then Some (RMatch p [c] t []) else None.
Proof.
  unfold match_here. cbn [run rest pos caps].
  destruct (q c); [| reflexivity].
  cbn [pos rest caps]. now replace (S p - p) with 1 by lia.
Qed.

(** Stripping "all non-numeric, non-decimal-point characters" keeps the
    digits and points, in order. *)
Lemma replace_all_not_numeric (s : jsstring) :
  replace_all re_not_numeric [] s
  = filter (fun c => is_digit c || N.eqb c 46) s.
Proof.
  unfold replace_all.
  assert (G : forall fuel p t, length t < fuel ->
            replace_all_from re_not_numeric [] fuel p t
            = filter (fun c => is_digit c || N.eqb c 46) t).
  { induction fuel as [|fuel IH]; intros p t Hlen; [lia |].
    destruct t as [|c t]; [reflexivity |].
    cbn [replace_all_from filter]. simpl in Hlen.
    unfold re_not_numeric at 1. rewrite match_here_class.
    destruct (is_digit c || N.eqb c 46) eqn:E; cbn [negb].
    - f_equal. apply IH. lia.
    - cbn [m_text length Nat.eqb app m_after]. apply IH. lia. }
  apply G. lia.
Qed.

(** ** Rendering numbers *)

Lemma digits_aux_S (fuel : nat) (n : N) (acc : jsstring) :
  digits_of_N_aux (S fuel) n acc
  = if (n <? 10)%N then (48 + n mod 10)%N :: acc
    else digits_of_N_aux fuel (n / 10) ((48 + n mod 10)%N :: acc).
Proof. reflexivity. Qed.

Lemma digits_aux_acc (fuel : nat) :
  forall n acc, digits_of_N_aux fuel n acc = digits_of_N_aux fuel n [] ++ acc.
Proof.
  induction fuel as [|fuel IH]; intros n acc.
  - reflexivity.
  - rewrite !digits_aux_S. destruct (n <? 10)%N; [reflexivity |].
    rewrite IH. rewrite (IH _ [_]). now rewrite <- app_assoc.
Qed.

Lemma digits_aux_fuel (fuel1 : nat) :
  forall fuel2 n,
    (n < 2 ^ N.of_nat (S fuel1))%N -> (n < 2 ^ N.of_nat (S fuel2))%N ->
    digits_of_N_aux (S fuel1) n [] = digits_of_N_aux (S fuel2) n [].
Proof.
  induction fuel1 as [|fuel1 IH]; intros fuel2 n H1 H2;
    rewrite (digits_aux_S _ n), (digits_aux_S fuel2 n);
    destruct (n <? 10)%N eqn:E; try reflexivity; apply N.ltb_ge in E.
  - change (2 ^ N.of_nat 1)%N with 2%N in H1. lia.
  - destruct fuel2 as [|fuel2];
      [change (2 ^ N.of_nat 1)%N with 2%N in H2; lia |].
    rewrite digits_aux_acc. rewrite (digits_aux_acc (S fuel2)).
    f_equal. apply IH.
    + rewrite Nat2N.inj_succ, N.pow_succ_r' in H1.
      apply N.Div0.div_lt_upper_bound. lia.
    + rewrite Nat2N.inj_succ, N.pow_succ_r' in H2.
      apply N.Div0.div_lt_upper_bound. lia.
Qed.

Lemma lt_pow2_log2 (n : N) : (n < 2 ^ N.of_nat (S (N.to_nat (N.log2 n))))%N.
Proof.
  rewrite Nat2N.inj_succ, N2Nat.id.
  destruct n as [|p]; [reflexivity |].
  apply N.log2_spec. lia.
Qed.

Lemma digits_of_N_small (n : N) : (n < 10)%N -> digits_of_N n = [(48 + n)%N].
Proof.
  intros H. unfold digits_of_N. rewrite digits_aux_S.
  apply N.ltb_lt in H. rewrite H. apply N.ltb_lt in H.
  now rewrite N.mod_small.
Qed.

Lemma digits_of_N_step (n : N) :
  (10 <= n)%N -> digits_of_N n = digits_of_N (n / 10) ++ [(48 + n mod 10)%N].
Proof.
  intros H. unfold digits_of_N at 1. rewrite digits_aux_S.
  apply N.ltb_ge in H. rewrite H. apply N.ltb_ge in H.
  rewrite digits_aux_acc. f_equal. unfold digits_of_N.
  assert (K : (n < 2 ^ N.succ (N.log2 n))%N) by (apply N.log2_spec; lia).
  rewrite N.pow_succ_r' in K.
  assert (P : (0 < N.log2 n)%N) by (apply N.log2_pos; lia).
  destruct (N.to_nat (N.log2 n)) as [|f] eqn:F; [lia |].
  apply digits_aux_fuel.
  - rewrite <- F, N2Nat.id. apply N.Div0.div_lt_upper_bound. lia.
  - apply lt_pow2_log2.
Qed.

Lemma digits_of_N_nonempty (n : N) : digits_of_N n <> [].
Proof.
  destruct (N.lt_ge_cases n 10) as [H | H].
  - now rewrite digits_of_N_small.
  - rewrite digits_of_N_step by assumption. now destruct (digits_of_N (n / 10)).
Qed.

Lemma pad_and_point (n : N) :
  let ds := repeat 48%N (3 - length (digits_of_N n)) ++ digits_of_N n in
  firstn (length ds - 2) ds ++ js "." ++ skipn (length ds - 2) ds
  = two_decimals n.
Proof.
  cbv zeta. unfold two_decimals.
  destruct (N.lt_ge_cases n 10) as [H | H].
  - rewrite digits_of_N_small by assumption.
    rewrite !N.div_small, N.Div0.mod_0_l by lia.
    rewrite (N.mod_small n) by lia. reflexivity.
  - rewrite (@digits_of_N_step n H).
    destruct (N.lt_ge_cases (n / 10) 10) as [H1 | H1].
    + rewrite (@digits_of_N_small _ H1).
      assert (K : (n < 100)%N).
      { destruct (N.lt_ge_cases n 100) as [K | K]; [exact K |].
        apply (N.div_le_lower_bound n 10 10) in K; lia. }
      rewrite (N.div_small n 100) by exact K.
      rewrite (N.mod_small (n / 10)) by lia. reflexivity.
    + rewrite (@digits_of_N_step _ H1).
      replace (n / 10 / 10)%N with (n / 100)%N
        by (rewrite N.Div0.div_div; reflexivity).
      rewrite <- app_assoc. cbn [app].
      set (D := digits_of_N (n / 100)).
      set (tl := [(48 + (n / 10) mod 10)%N; (48 + n mod 10)%N]).
      assert (L : 1 <= length D).
      { pose proof (digits_of_N_nonempty (n / 100)) as Hne. fold D in Hne.
        destruct D; [congruence | cbn [length]; lia]. }
      assert (L2 : length (D ++ tl) = length D + 2)
        by (rewrite length_app; reflexivity).
      rewrite L2. replace (3 - (length D + 2)) with 0 by lia.
      cbn [repeat app]. rewrite L2.
      replace (length D + 2 - 2) with (length D) by lia.
      rewrite firstn_app, skipn_app, Nat.sub_diag, firstn_all, skipn_all.
      cbn [firstn skipn app]. now rewrite app_nil_r.
Qed.

Lemma fraction_pos (m : positive) (e : Z) :
  (0 < fst (fraction m e))%Z /\ (0 < snd (fraction m e))%Z.
Proof.
  assert (P : forall q, (0 < 2 ^ Z.pos q)%Z)
    by (intros q; apply Z.pow_pos_nonneg; lia).
  unfold fraction. destruct e as [|q|q]; cbn [fst snd].
  - rewrite Z.pow_0_r. split; lia.
  - split; [apply Z.mul_pos_pos; [lia | apply P] | lia].
  - split; [lia | apply P].
Qed.

(** Below [10^21], [toFixed(2)] writes the nearest number of hundredths
    (the larger one on a tie) with two decimal places. *)
Lemma toFixed_2_finite (sg : bool) (m : positive) (e : Z) :
  (fst (fraction m e) < snd (fraction m e) * 10 ^ 21)%Z ->
  toFixed 2 (S754_finite sg m e)
  = (if sg then js "-" else [])
    ++ two_decimals
         (Z.to_N ((2 * fst (fraction m e) * 100 + snd (fraction m e))
                  / (2 * snd (fraction m e)))).
Proof.
  intros H. unfold toFixed. destruct (fraction m e) as [num den].
  cbn [fst snd] in *.
  apply Z.leb_gt in H. rewrite H.
  change (Z.pow 10 (Z.of_nat 2)) with 100%Z.
  f_equal. unfold digits_of_Z. apply pad_and_point.
Qed.

(** Below [10^21], what [toFixed(2)] writes has exactly two decimal places. *)
Lemma toFixed_2_rendered (x : number) :
  below_1e21 x = true -> rendered_with_two_decimals x (toFixed 2 x).
Proof.
  destruct x as [s | s | | sg m e]; try discriminate.
  - intros _. exists 0%N. split; reflexivity.
  - unfold below_1e21. intros B.
    pose proof (fraction_pos m e) as [Pn Pd].
    pose proof (@toFixed_2_finite sg m e) as T.
    destruct (fraction m e) as [num den] eqn:F. cbn [fst snd] in *.
    apply Z.ltb_lt in B. rewrite T by exact B.
    set (n := ((2 * num * 100 + den) / (2 * den))%Z).
    assert (N0 : (0 <= n)%Z) by (apply Z.div_pos; lia).
    exists (Z.to_N n). split.
    + unfold hundredths. rewrite F. rewrite Z2N.id by exact N0.
      pose proof (Z.div_mod (2 * num * 100 + den) (2 * den)) as E.
      pose proof (Z.mod_pos_bound (2 * num * 100 + den) (2 * den)) as M.
      fold n in E. lia.
    + now destruct sg.
Qed.

(** The values a JavaScript engine gives on the same inputs. *)
Example parseFloat_values :
  map (fun s => number_to_string (parseFloat (js s)))
      [ "19.99"; "1234.56"; "12.991.08"; ".5"; "5."; "."; "4.6"; "1e21";
        "0.000001"; "1e-7"; "9007199254740993" ]
  = map js [ "19.99"; "1234.56"; "12.991"; "0.5"; "5"; "NaN"; "4.6"; "1e+21";
             "0.000001"; "1e-7"; "9007199254740992" ].
Proof. vm_compute; reflexivity. Qed.

Example toFixed_values :
  map (fun s => toFixed 2 (parseFloat (js s)))
      [ "10"; "1.005"; "1234.5678"; "0"; "-1.5"; "0.125"; "1e21" ]
  = map js [ "10.00"; "1.00"; "1234.57"; "0.00"; "-1.50"; "0.13"; "1e+21" ].
Proof. vm_compute; reflexivity. Qed.

Example subtraction_is_rounded :
  number_to_string (num_sub (parseFloat (js "19.99")) (parseFloat (js "9.99")))
  = js "9.999999999999998"
  /\ toFixed 2 (num_sub (parseFloat (js "19.99")) (parseFloat (js "9.99")))
     = js "10.00".
Proof. split; vm_compute; reflexivity. Qed.

Example math_round_values :
  map (fun s => number_to_string (math_round (parseFloat (js s))))
      [ "2.5"; "-2.5"; "0.4"; "33.34444814938313"; "99.5" ]
  = map js [ "3"; "-2"; "0"; "33"; "100" ].
Proof. vm_compute; reflexivity. Qed.

Example parseInt_values :
  map (fun s => number_to_string (parseInt (js s)))
      [ "25% off"; "Save 25%"; "-12px"; "0x1F" ]
  = map js [ "25"; "NaN"; "-12"; "31" ].
Proof. vm_compute; reflexivity. Qed.

(** ** The list fields: caps and duplicates *)

Lemma colors_capped (doc : page) : length (extractColors doc) <= 10.
Proof. apply firstn_le_length. Qed.

Lemma colors_no_duplicates (doc : page) : NoDup (extractColors doc).
Proof.
  unfold extractColors. apply NoDup_firstn_keep.
  apply forEach_invariant; [| constructor].
  intros selector colors Hc. simpl.
  apply each_invariant; [| assumption].
  intros _ el cs Hcs. destruct (color_name el) as [name|]; [| assumption].
  destruct (truthy name); simpl; [| assumption].
  destruct (array_includes cs name) eqn:E; simpl; [assumption |].
  destruct (Nat.ltb 1 (length name)); simpl; [| assumption].
  apply NoDup_snoc; [assumption | now apply array_includes_not_In].
Qed.

Lemma categories_capped (doc : page) : length (extractCategories doc) <= 5.
Proof. apply firstn_le_length. Qed.

Lemma categories_no_duplicates (doc : page) : NoDup (extractCategories doc).
Proof.
  unfold extractCategories. apply NoDup_firstn_keep.
  apply forEach_invariant; [| constructor].
  intros selector cats Hc.
  match goal with
  | |- NoDup (fst (if _ then (?c, _) else (?c, _))) =>
      assert (H : NoDup c); [| now destruct (Nat.ltb 0 (length c))]
  end.
  apply each_invariant; [| assumption].
  intros _ el cs Hcs.
  destruct (truthy _); simpl; [| assumption].
  destruct (Nat.ltb 2 _); simpl; [| assumption].
  destruct (negb (includes _ _)); simpl; [| assumption].
  destruct (array_includes cs _) eqn:E; simpl; [assumption |].
  apply NoDup_snoc; [assumption | now apply array_includes_not_In].
Qed.

Lemma images_capped (doc : page) : length (extractImages doc) <= 6.
Proof.
  unfold extractImages. destruct (forEach _ _ _) as [imgs seen].
  apply firstn_le_length.
Qed.

Lemma push_image_keeps (img : node) (st : list image * list jsstring) :
  map url (fst st) = snd st /\ NoDup (snd st) ->
  map url (fst (fst (push_image img st))) = snd (fst (push_image img st))
  /\ NoDup (snd (fst (push_image img st))).
Proof.
  destruct st as [imgs seen]. intros [Hm Hn]. simpl in Hm, Hn.
  unfold push_image.
  destruct (image_src img) as [src0|]; [| now split].
  destruct (truthy src0); [| now split].
  cbv zeta.
  destruct (array_includes seen (high_res src0)) eqn:E; simpl; [now split |].
  destruct (includes (high_res src0) (js "amazon")); simpl; [| now split].
  destruct (negb (includes (high_res src0) (js "sprite"))); simpl; [| now split].
  split.
  - rewrite map_app. simpl. now rewrite Hm.
  - apply NoDup_snoc; [assumption | now apply array_includes_not_In].
Qed.

Lemma images_no_duplicate_url (doc : page) : NoDup (map url (extractImages doc)).
Proof.
  unfold extractImages.
  set (P := fun st : list image * list jsstring =>
              map url (fst st) = snd st /\ NoDup (snd st)).
  match goal with
  | |- context [forEach ?xs ?fn ?s0] => assert (H : P (forEach xs fn s0))
  end.
  { apply forEach_invariant; [| split; [reflexivity | constructor]].
    intros selector st Hst. simpl.
    apply each_invariant; [| assumption].
    intros _ img st' Hst'. now apply push_image_keeps. }
  destruct (forEach _ _ _) as [imgs seen]. destruct H as [Hm Hn].
  simpl in Hm, Hn. rewrite map_firstn_comm, Hm. now apply NoDup_firstn_keep.
Qed.

Lemma tags_capped (p : productData) : length (generateTags p) <= 8.
Proof. apply firstn_le_length. Qed.

(** C3 (colors, images, categories and tags are capped at 10/6/5/8 and hold
    no duplicates): the caps hold and colors, images and categories hold no
    duplicates ([colors_capped], [colors_no_duplicates], [images_capped],
    [images_no_duplicate_url], [categories_capped],
    [categories_no_duplicates], [tags_capped]), but [generateTags] pushes the
    brand, "Highly Rated" and the deal tag without the membership test that
    guards the keyword tags: on this page the tag list is
    ["Highly Rated"; "Highly Rated"]. *)
Theorem tags_duplicate_on_brand_page (u : jsstring) :
  brand (extract page_brand_highly_rated u) = js "Highly Rated"
  /\ rating (stars (extract page_brand_highly_rated u)) = Some (js "4.5")
  /\ tags (extract page_brand_highly_rated u)
     = [js "Highly Rated"; js "Highly Rated"]
  /\ ~ NoDup (tags (extract page_brand_highly_rated u)).
Proof.
  assert (E : tags (extract page_brand_highly_rated u)
              = [js "Highly Rated"; js "Highly Rated"]) by (vm_compute; reflexivity).
  repeat split; try (vm_compute; reflexivity); try exact E.
  rewrite E. intros H. inversion_clear H as [|? ? Hin _]. apply Hin. now left.
Qed.

(** ** The tags of the example record *)

Lemma add_keyword_tag_new (t kw tag : jsstring) (tags : list jsstring) :
  includes t kw = true -> ~ In tag tags ->
  fst (add_keyword_tag t (kw, tag) tags) = tags ++ [tag].
Proof.
  intros Hk Hn. apply array_includes_not_In in Hn.
  unfold add_keyword_tag. now rewrite Hk, Hn.
Qed.

Lemma add_keyword_tag_known (t kw tag : jsstring) (tags : list jsstring) :
  In tag tags -> fst (add_keyword_tag t (kw, tag) tags) = tags.
Proof.
  intros Hn. apply array_includes_In in Hn.
  unfold add_keyword_tag. rewrite Hn. now rewrite andb_false_r.
Qed.

Lemma add_keyword_tag_absent (t kw tag : jsstring) (tags : list jsstring) :
  includes t kw = false -> fst (add_keyword_tag t (kw, tag) tags) = tags.
Proof. intros Hk. unfold add_keyword_tag. now rewrite Hk. Qed.

(** What [generateTags] yields for the example record, brand by brand: the
    brand if there is one, "Highly Rated", then the keyword tags in the
    order of the table, leaving out the one equal to the brand. *)
Lemma speaker_tags_shape (b : jsstring) :
  generateTags (speaker b)
  = (if truthy b then [b] else [])
    ++ js "Highly Rated"
       :: filter (fun t => negb (str_eqb t b))
            [js "Wireless"; js "Bluetooth"; js "Premium"].
Proof.
  destruct (str_eqb (js "Wireless") b) eqn:EW;
    [apply str_eqb_eq in EW; subst b; vm_compute; reflexivity |].
  destruct (str_eqb (js "Bluetooth") b) eqn:EB;
    [apply str_eqb_eq in EB; subst b; vm_compute; reflexivity |].
  destruct (str_eqb (js "Premium") b) eqn:EP;
    [apply str_eqb_eq in EP; subst b; vm_compute; reflexivity |].
  cbn [filter]. rewrite EW, EB, EP. cbn [negb].
  apply str_eqb_neq in EW, EB, EP.
  unfold generateTags, speaker.
  cbn [brand stars rating price offerPercentage title].
  replace (num_ge (parseFloat (js "4.6")) (of_Z 4)) with true
    by (vm_compute; reflexivity).
  replace (truthy (js "4.6")) with true by reflexivity.
  cbn [andb app].
  set (t := toLowerCase (js "Premium Wireless Bluetooth Speaker")).
  set (tags0 := (if truthy b then [b] else []) ++ [js "Highly Rated"]).
  assert (H0 : forall x, In x tags0 -> x = b \/ x = js "Highly Rated").
  { intros x Hx. apply in_app_or in Hx. destruct Hx as [Hx | [Hx | []]].
    - destruct (truthy b); [destruct Hx as [Hx | []]; auto | destruct Hx].
    - auto. }
  unfold keywordTags. rewrite !forEach_cons.
  rewrite (@add_keyword_tag_new t (js "wireless") (js "Wireless") tags0);
    [| vm_compute; reflexivity
     | intros H; apply H0 in H; destruct H as [H | H];
       [now apply EW | discriminate H]].
  rewrite (@add_keyword_tag_new t (js "bluetooth") (js "Bluetooth"));
    [| vm_compute; reflexivity
     | intros H; apply in_app_or in H; destruct H as [H | [H | []]];
       [apply H0 in H; destruct H as [H | H];
        [now apply EB | discriminate H] | discriminate H]].
  rewrite (@add_keyword_tag_absent t (js "smart")) by (vm_compute; reflexivity).
  rewrite (@add_keyword_tag_new t (js "premium") (js "Premium"));
    [| vm_compute; reflexivity
     | intros H; apply in_app_or in H; destruct H as [H | [H | []]];
       [apply in_app_or in H; destruct H as [H | [H | []]];
        [apply H0 in H; destruct H as [H | H];
         [now apply EP | discriminate H] | discriminate H] | discriminate H]].
  rewrite (@add_keyword_tag_absent t (js "professional")) by (vm_compute; reflexivity).
  rewrite (@add_keyword_tag_absent t (js "portable")) by (vm_compute; reflexivity).
  rewrite (@add_keyword_tag_absent t (js "waterproof")) by (vm_compute; reflexivity).
  rewrite (@add_keyword_tag_absent t (js "rechargeable")) by (vm_compute; reflexivity).
  unfold forEach. cbn [fold_left].
  unfold tags0. rewrite <- !app_assoc. cbn [app].
  destruct (truthy b); reflexivity.
Qed.

(** The four tags are always there, in that order of discovery. *)
Lemma speaker_tags_present (b : jsstring) :
  In (js "Highly Rated") (generateTags (speaker b))
  /\ In (js "Wireless") (generateTags (speaker b))
  /\ In (js "Bluetooth") (generateTags (speaker b))
  /\ In (js "Premium") (generateTags (speaker b)).
Proof.
  assert (K : forall t, In t [js "Wireless"; js "Bluetooth"; js "Premium"] ->
                        In t (generateTags (speaker b))).
  { intros t Ht. rewrite speaker_tags_shape.
    destruct (str_eqb t b) eqn:E.
    - apply str_eqb_eq in E. subst t.
      assert (T : truthy b = true)
        by (destruct Ht as [<- | [<- | [<- | []]]]; reflexivity).
      rewrite T. now left.
    - apply in_or_app. right. right. apply filter_In. now rewrite E. }
  split; [| split; [| split]].
  - rewrite speaker_tags_shape. apply in_or_app. right. now left.
  - apply K. now left.
  - apply K. right. now left.
  - apply K. right. right. now left.
Qed.

(** No tag is repeated unless the brand itself reads "Highly Rated". *)
Lemma speaker_tags_no_duplicates (b : jsstring) :
  b <> js "Highly Rated" -> NoDup (generateTags (speaker b)).
Proof.
  intros Hb. rewrite speaker_tags_shape.
  assert (F : NoDup (js "Highly Rated"
                       :: filter (fun t => negb (str_eqb t b))
                            [js "Wireless"; js "Bluetooth"; js "Premium"])).
  { constructor.
    - rewrite filter_In. intros [[H | [H | [H | []]]] _]; discriminate H.
    - apply NoDup_filter.
      repeat constructor; simpl; intros H;
        repeat (destruct H as [H | H]; [discriminate H |]); exact H. }
  destruct (truthy b); [| exact F].
  cbn [app]. constructor; [| exact F].
  intros H. apply in_inv in H. destruct H as [H | H]; [now apply Hb |].
  apply filter_In in H. destruct H as [_ H].
  now rewrite str_eqb_refl in H.
Qed.

(** C9 (title "Premium Wireless Bluetooth Speaker", rating 4.6, no discount:
    the tags include "Wireless", "Bluetooth", "Premium" and "Highly Rated",
    in discovery order, without duplicates, at most 8): the record extracted
    from [page_speaker] has that title, that rating and no discount, and its
    tags hold "Highly Rated" twice. *)
Theorem speaker_tags_duplicate (u : jsstring) :
  let p := extract page_speaker u in
  title p = js "Premium Wireless Bluetooth Speaker"
  /\ rating (stars p) = Some (js "4.6")
  /\ offerPercentage (price p) = None
  /\ tags p = [ js "Highly Rated"; js "Highly Rated"; js "Wireless";
                js "Bluetooth"; js "Premium" ]
  /\ tags p = generateTags (speaker (js "Highly Rated"))
  /\ ~ NoDup (tags p).
Proof.
  cbv zeta.
  assert (E : tags (extract page_speaker u)
              = [ js "Highly Rated"; js "Highly Rated"; js "Wireless";
                  js "Bluetooth"; js "Premium" ]) by (vm_compute; reflexivity).
  repeat split; try (vm_compute; reflexivity); try exact E.
  rewrite E. intros H. inversion_clear H as [|? ? Hin _]. apply Hin. now left.
Qed.

(** ** Technical data and categories: the loop over the selectors *)

(** C7 (technical-spec extraction stops at the first selector that yields
    rows; no row of a later selector appears): the callback's
    [return false] is given to [Array.prototype.forEach], which goes on.
    With a row under [#tech] and another under [.a-keyvalue], the first
    selector yields "Brand: Acme" and the output also holds the row of the
    fourth selector. *)
Theorem technical_data_runs_past_first_yield :
  extractTechnicalData (page_of [("#tech tbody tr", [spec_row "Brand" "Acme"])])
  = js "Brand: Acme"
  /\ extractTechnicalData page_two_tables
     = js "Brand: Acme" ++ newline ++ js "Weight: 2 kg".
Proof. split; vm_compute; reflexivity. Qed.

(** C8 (category extraction stops at the first breadcrumb selector that
    yields a category; no text matched only by a later selector appears):
    the same [return false] inside [forEach].  The first selector yields
    "Electronics", "Headphones" is matched by the second selector only, and
    it is in the output. *)
Theorem categories_run_past_first_yield :
  extractCategories
    (page_of [("#wayfinding-breadcrumbs_container a", [text_node "Electronics"])])
  = [js "Electronics"]
  /\ page_two_trails "#wayfinding-breadcrumbs_container a"
     = [text_node "Electronics"]
  /\ extractCategories page_two_trails = [js "Electronics"; js "Headphones"].
Proof. repeat split; vm_compute; reflexivity. Qed.

(** ** Rating *)

Lemma chain_reads_first_matching_text (doc : page) (re : regex)
    (sels : list selector) (t : jsstring) :
  first_matching_text doc re sels = Some t ->
  first_hit (probe_group doc re) sels = option_map (group 1) (exec re t).
Proof.
  unfold first_matching_text, probe_group, test.
  induction sels as [|sel sels IH]; simpl; [discriminate |].
  destruct (exec re (first_text doc sel)) as [m|] eqn:E; simpl.
  - intros H. injection H as <-. now rewrite E.
  - exact IH.
Qed.

(** C6 as stated fails: on [page_rated] the count keeps its comma. *)
Lemma count_keeps_comma_on_page_rated : ~ count_is_comma_stripped page_rated.
Proof.
  intros H. destruct H as [_ H]; try (vm_compute; reflexivity).
  vm_compute in H. discriminate H.
Qed.

(** C6, amended: when the first matching rating node reads
    "4.5 out of 5 stars" and the first matching count node reads
    "1,234 ratings", [rating] is "4.5" and [ratingCount] is "1,234": the
    captured group of digits and commas, as matched. *)
Theorem rating_and_count_as_matched (doc : page) :
  first_matching_text doc re_rating ratingSelectors
    = Some (js "4.5 out of 5 stars") ->
  first_matching_text doc re_count countSelectors
    = Some (js "1,234 ratings") ->
  rating (extractRating doc) = Some (js "4.5")
  /\ ratingCount (extractRating doc) = Some (js "1,234").
Proof.
  intros Hr Hc. unfold extractRating. cbn [rating ratingCount].
  rewrite (chain_reads_first_matching_text _ _ _ Hr).
  rewrite (chain_reads_first_matching_text _ _ _ Hc).
  split; vm_compute; reflexivity.
Qed.

Lemma rating_and_count_as_matched_witness :
  rating (extractRating page_rated) = Some (js "4.5")
  /\ ratingCount (extractRating page_rated) = Some (js "1,234").
Proof.
  apply (rating_and_count_as_matched page_rated); vm_compute; reflexivity.
Defined.

(** ** Pricing *)

Lemma with_savings_same (offer : jsstring) (pct : option jsstring) :
  with_savings (Pricing (Some offer) (Some offer) pct None)
  = Pricing (Some offer) (Some offer) pct None.
Proof.
  unfold with_savings. cbn [originalPrice offerPrice].
  now rewrite str_eqb_refl, andb_false_r.
Qed.

Lemma with_savings_keeps_prices (p : pricing) :
  offerPrice (with_savings p) = offerPrice p
  /\ originalPrice (with_savings p) = originalPrice p.
Proof.
  unfold with_savings.
  destruct (originalPrice p) as [orig|] eqn:Eo; [| now split].
  destruct (offerPrice p) as [offer|] eqn:Ef; [| now rewrite Eo].
  destruct (truthy orig && truthy offer && negb (str_eqb orig offer));
    [| now rewrite Eo, Ef].
  destruct (num_gt _ _); [| now rewrite Eo, Ef].
  cbn [offerPercentage]. destruct (negb (truthy_opt (offerPercentage p)));
    cbn [offerPrice originalPrice]; now split.
Qed.

Lemma with_json_ld_keeps_original (doc : page) (p : pricing) :
  originalPrice (with_json_ld doc p) = originalPrice p.
Proof.
  unfold with_json_ld.
  apply (each_invariant (fun acc => originalPrice acc = originalPrice p));
    [| reflexivity].
  intros _ script acc H. now destruct (ld_offer_price script).
Qed.

Lemma with_json_ld_offer (doc : page) (p : pricing) :
  offerPrice (with_json_ld doc p) = last_offer_price (ld_scripts doc) (offerPrice p).
Proof.
  unfold with_json_ld, ld_scripts, each.
  generalize 0 as i. revert p.
  induction (doc ("script" +++ attr_is "type" "application/ld+json"))
    as [|script scripts IH]; intros p i; [reflexivity |].
  cbn [each_from last_offer_price].
  destruct (ld_offer_price script) as [v|]; now rewrite IH.
Qed.

Lemma with_json_ld_no_script (doc : page) (p : pricing) :
  doc ("script" +++ attr_is "type" "application/ld+json") = [] ->
  with_json_ld doc p = p.
Proof. intros H. unfold with_json_ld. now rewrite H. Qed.

Lemma found_current_chain (doc : page) :
  truthy (current_chain doc) = true -> found_current doc = current_chain doc.
Proof. intros H. unfold found_current. now rewrite H. Qed.

Lemma found_current_span (doc : page) :
  truthy (current_chain doc) = false -> found_current doc = span_price doc.
Proof. intros H. unfold found_current. now rewrite H. Qed.

(** C2 as stated fails: on [page_only_was_price] the original price is found
    and [offerPrice] stays unset. *)
Lemma was_price_not_mirrored : ~ mirrored_both_ways page_only_was_price.
Proof.
  intros [_ H]. destruct H as [H _]; try (vm_compute; reflexivity).
  vm_compute in H. discriminate H.
Qed.

Lemma last_offer_price_none (scripts : list node) (found : option jsstring) :
  Forall (fun script => ld_offer_price script = None) scripts ->
  last_offer_price scripts found = found.
Proof.
  intros H. revert found.
  induction H as [|script scripts Hs _ IH]; intros found; [reflexivity |].
  cbn [last_offer_price]. now rewrite Hs, IH.
Qed.

(** C2, amended: when the current-price chain finds a price and the
    original-price chain finds none, [offerPrice] and [originalPrice] are
    both that price; when only the original-price chain finds a price it is
    kept as [originalPrice] and not copied: [offerPrice] is the first
    price-shaped [span] if there is one, else the offer price of the last
    JSON-LD script that has one, and it is unset when there is neither. *)
Theorem offer_price_mirrored_only (doc : page) :
  let cur := current_chain doc in
  let orig := original_chain doc cur in
  (truthy cur = true -> truthy orig = false ->
   offerPrice (extractPricing doc) = Some cur
   /\ originalPrice (extractPricing doc) = Some cur)
  /\ (truthy cur = false -> truthy orig = true ->
      originalPrice (extractPricing doc) = Some orig
      /\ offerPrice (extractPricing doc)
         = (if truthy (span_price doc) then Some (span_price doc)
            else last_offer_price (ld_scripts doc) None)
      /\ (truthy (span_price doc) = false ->
          Forall (fun script => ld_offer_price script = None)
                 (ld_scripts doc) ->
          offerPrice (extractPricing doc) = None)).
Proof.
  cbv zeta. split.
  - intros Hc Ho. unfold extractPricing.
    rewrite (found_current_chain _ Hc), Hc, Ho.
    cbn [negb offerPrice originalPrice amountSaved].
    destruct (discount_chain doc) as [d|]; rewrite with_savings_same;
      now split.
  - intros Hc Ho.
    assert (E : originalPrice (extractPricing doc)
                = Some (original_chain doc (current_chain doc))
                /\ offerPrice (extractPricing doc)
                   = (if truthy (span_price doc) then Some (span_price doc)
                      else last_offer_price (ld_scripts doc) None)).
    { unfold extractPricing.
      rewrite (found_current_span _ Hc), Ho.
      set (p3 := match discount_chain doc with
                 | Some _ => _ | None => _ end).
      assert (H3 : originalPrice p3
                   = Some (original_chain doc (current_chain doc))
                   /\ offerPrice p3
                      = if truthy (span_price doc)
                        then Some (span_price doc) else None).
      { unfold p3. destruct (discount_chain doc);
          destruct (truthy (span_price doc)); now split. }
      destruct H3 as [H3o H3f].
      destruct (with_savings_keeps_prices p3) as [Kf Ko].
      destruct (truthy (span_price doc)); cbn [negb].
      - now rewrite Ko, Kf.
      - rewrite with_json_ld_keeps_original, with_json_ld_offer, Ko, Kf.
        now rewrite H3f. }
    destruct E as [Eo Ef]. split; [exact Eo |]. split; [exact Ef |].
    intros Hs Hld. rewrite Ef, Hs. now apply last_offer_price_none.
Qed.

Lemma offer_price_mirrored_only_witness :
  (offerPrice (extractPricing page_one_price) = Some (js "$19.99")
   /\ originalPrice (extractPricing page_one_price) = Some (js "$19.99"))
  /\ (originalPrice (extractPricing page_only_was_price) = Some (js "$20.00")
      /\ offerPrice (extractPricing page_only_was_price) = None).
Proof.
  split.
  - apply (proj1 (offer_price_mirrored_only page_one_price));
      vm_compute; reflexivity.
  - destruct (proj2 (offer_price_mirrored_only page_only_was_price))
      as (H1 & _ & H3); try (vm_compute; reflexivity).
    split; [exact H1 | apply H3; [vm_compute; reflexivity | constructor]].
Defined.

(** A JSON-LD script without an offer price leaves [offerPrice] unset. *)
Example was_price_with_priceless_script :
  originalPrice (extractPricing page_was_price_and_script) = Some (js "$20.00")
  /\ offerPrice (extractPricing page_was_price_and_script) = None.
Proof. split; vm_compute; reflexivity. Qed.


(** From [10^21] on, [toFixed] writes the exponent form, without decimal
    places. *)
Example savings_in_exponent_form :
  offerPrice (extractPricing page_huge_was_price) = Some (js "$1.00")
  /\ originalPrice (extractPricing page_huge_was_price)
     = Some (js "$1000000000000000000000000")
  /\ amountSaved (extractPricing page_huge_was_price) = Some (js "1e+24").
Proof. vm_compute. repeat split. Qed.



(** ** The catalog identifier *)

Lemma match_here_asin (p : nat) (s : jsstring) :
  option_map (group 1) (match_here re_asin_in_url p s) = asin_here s.
Proof.
  unfold match_here, re_asin_in_url, times, asin_here. cbn [seq].
  rewrite run_Cat. unfold lit at 2. rewrite run_Cls. cbn [rest pos caps].
  destruct s as [|c s]; [reflexivity |].
  change (N_of_ascii "/") with 47%N.
  destruct (N.eqb 47 c); cbn [flat_map andb]; [| reflexivity].
  rewrite app_nil_r, run_Cat, run_Cap, run_Rep. cbn [rest].
  rewrite repeat_run_exact by lia. cbn [rest pos caps].
  destruct (Nat.leb 10 (length s) && forallb is_upper_alnum (firstn 10 s)) eqn:E;
    cbn [map flat_map]; [| reflexivity].
  rewrite app_nil_r. unfold lit. rewrite run_Cls. cbn [rest pos caps].
  change (N_of_ascii "/") with 47%N.
  destruct (skipn 10 s) as [|c' s']; [reflexivity |].
  destruct (N.eqb 47 c'); [| reflexivity].
  cbn [option_map group m_groups assoc Nat.eqb caps].
  now replace (S p + 10 - S p) with 10 by lia.
Qed.

Lemma search_from_asin (s : jsstring) :
  forall p, option_map (group 1) (search_from re_asin_in_url p s) = asin_search s.
Proof.
  induction s as [|c s IH]; intros p.
  - reflexivity.
  - cbn [search_from asin_search]. rewrite <- (match_here_asin p (c :: s)).
    destruct (match_here re_asin_in_url p (c :: s)); [reflexivity |].
    cbn [option_map]. apply IH.
Qed.

Lemma extractASIN_search (doc : page) (url : jsstring) :
  extractASIN doc url
  = match asin_search url with
    | Some g => g
    | None => asin_in_page doc
    end.
Proof.
  unfold extractASIN, exec. rewrite <- (search_from_asin url 0).
  now destruct (search_from re_asin_in_url 0 url).
Qed.

Lemma asin_here_segment (seg post : jsstring) :
  is_asin_segment seg -> asin_here (js "/" ++ seg ++ js "/" ++ post) = Some seg.
Proof.
  intros [Hl Hc]. change (js "/") with [47%N]. cbn [app asin_here N.eqb Pos.eqb andb].
  assert (F : firstn 10 (seg ++ 47%N :: post) = seg).
  { rewrite <- Hl, firstn_app, Nat.sub_diag, firstn_all. apply app_nil_r. }
  assert (K : skipn 10 (seg ++ 47%N :: post) = 47%N :: post).
  { rewrite <- Hl, skipn_app, Nat.sub_diag, skipn_all. reflexivity. }
  rewrite F, K, Hc, length_app, Hl. reflexivity.
Qed.

Lemma asin_here_inv (s g : jsstring) :
  asin_here s = Some g ->
  is_asin_segment g /\ exists post, s = js "/" ++ g ++ js "/" ++ post.
Proof.
  unfold asin_here. destruct s as [|c s]; [discriminate |].
  destruct (N.eqb 47 c) eqn:Ec; [| discriminate]. apply N.eqb_eq in Ec. subst c.
  destruct (Nat.leb 10 (length s)) eqn:El; [| discriminate]. apply Nat.leb_le in El.
  destruct (forallb is_upper_alnum (firstn 10 s)) eqn:Ef; [| discriminate].
  cbn [andb]. destruct (skipn 10 s) as [|c' post] eqn:Es; [discriminate |].
  destruct (N.eqb 47 c') eqn:Ec'; [| discriminate]. apply N.eqb_eq in Ec'. subst c'.
  intros H. injection H as H. subst g.
  assert (L : length (firstn 10 s) = 10) by (rewrite length_firstn; lia).
  split.
  - exact (conj L Ef).
  - exists post. rewrite <- (firstn_skipn 10 s) at 1. rewrite Es. reflexivity.
Qed.

Lemma asin_search_some (pre seg post : jsstring) :
  is_asin_segment seg ->
  asin_search (pre ++ js "/" ++ seg ++ js "/" ++ post) <> None.
Proof.
  intros Hseg. induction pre as [|c pre IH].
  - cbn [app]. pose proof (asin_here_segment post Hseg) as H.
    destruct (js "/" ++ seg ++ js "/" ++ post) as [|c s] eqn:E;
      [discriminate H |].
    cbn [asin_search]. now rewrite H.
  - cbn [app asin_search].
    now destruct (asin_here (c :: pre ++ js "/" ++ seg ++ js "/" ++ post)).
Qed.

Lemma asin_search_first (url seg : jsstring) :
  asin_search url = Some seg ->
  exists pre post, segment_at url pre seg post /\ first_segment url pre.
Proof.
  revert seg. induction url as [|c url IH]; intros seg; cbn [asin_search].
  - discriminate.
  - destruct (asin_here (c :: url)) as [g|] eqn:Eg.
    + intros H. injection H as <-.
      apply asin_here_inv in Eg. destruct Eg as [Hg [post Hp]].
      exists [], post. split; [split; assumption |].
      intros pre' seg' post' _. apply Nat.le_0_l.
    + intros H. destruct (IH seg H) as (pre & post & [Hu Hs] & Hfirst).
      exists (c :: pre), post. split.
      * split; [cbn [app]; now rewrite <- Hu | exact Hs].
      * intros pre' seg' post' [Hu' Hs'].
        destruct pre' as [|c' pre'].
        -- cbn [app] in Hu'. rewrite Hu' in Eg.
           rewrite (asin_here_segment post' Hs') in Eg. discriminate Eg.
        -- cbn [app] in Hu'. injection Hu' as -> Hu'.
           specialize (Hfirst pre' seg' post' (conj Hu' Hs')).
           cbn [length]. lia.
Qed.

Lemma first_segment_unique (url pre seg post pre' seg' post' : jsstring) :
  segment_at url pre seg post -> first_segment url pre ->
  segment_at url pre' seg' post' -> first_segment url pre' ->
  seg = seg'.
Proof.
  intros [Hu [Hl Hc]] Hf [Hu' [Hl' Hc']] Hf'.
  assert (L : length pre = length pre').
  { apply Nat.le_antisymm.
    - apply (Hf pre' seg' post'). now repeat split.
    - apply (Hf' pre seg post). now repeat split. }
  rewrite Hu in Hu'.
  apply (app_same_length _ _ _ _ L) in Hu'. destruct Hu' as [_ Hu'].
  change (js "/") with [47%N] in Hu'. cbn [app] in Hu'. injection Hu' as Hu'.
  apply app_same_length in Hu'; [tauto | congruence].
Qed.

(** C5 as stated fails: of two such segments the URL pattern finds the
    first, so [asin] is not the second one. *)
Lemma later_segment_is_not_asin :
  ~ asin_is_any_segment empty_page
      (js "https://www.amazon.com/NINTENDO64/dp/B00000F1GM/").
Proof.
  intros H.
  specialize (H (js "https://www.amazon.com/NINTENDO64/dp") (js "B00000F1GM") []).
  assert (S : segment_at (js "https://www.amazon.com/NINTENDO64/dp/B00000F1GM/")
                (js "https://www.amazon.com/NINTENDO64/dp") (js "B00000F1GM") [])
    by (split; [reflexivity | split; reflexivity]).
  apply H in S. vm_compute in S. discriminate S.
Qed.

(** C5, amended: when the URL holds a path segment of exactly ten upper-case
    alphanumeric characters between slashes, [asin] is the first such
    segment of the URL, whatever the page holds; so it is the given segment
    whenever that one is the first (in particular when it is the only one).
    The page is consulted only when the URL has no such segment. *)
Theorem asin_is_url_segment (doc : page) (url pre seg post : jsstring) :
  segment_at url pre seg post ->
  (exists pre0 seg0 post0,
     segment_at url pre0 seg0 post0 /\ first_segment url pre0
     /\ extractASIN doc url = seg0
     /\ asin (extract doc url) = seg0)
  /\ (first_segment url pre ->
      extractASIN doc url = seg /\ asin (extract doc url) = seg).
Proof.
  intros [Hu Hs].
  destruct (asin_search url) as [seg0|] eqn:E;
    [| rewrite Hu in E; now apply asin_search_some in E].
  destruct (asin_search_first _ E) as (pre0 & post0 & H0 & F0).
  assert (A : extractASIN doc url = seg0) by now rewrite extractASIN_search, E.
  split.
  - exists pre0, seg0, post0. repeat split; try apply H0; assumption.
  - intros F.
    assert (seg = seg0)
      by (eapply first_segment_unique; [split | | |]; eassumption).
    subst seg0. now split.
Qed.

Lemma asin_is_url_segment_witness :
  exists pre0 seg0 post0,
    segment_at (js "https://www.amazon.com/dp/B08N5WRWNW/ref=sr_1_1")
               pre0 seg0 post0
    /\ first_segment (js "https://www.amazon.com/dp/B08N5WRWNW/ref=sr_1_1") pre0
    /\ extractASIN page_other_asin
         (js "https://www.amazon.com/dp/B08N5WRWNW/ref=sr_1_1") = seg0
    /\ asin (extract page_other_asin
               (js "https://www.amazon.com/dp/B08N5WRWNW/ref=sr_1_1")) = seg0.
Proof.
  apply (proj1 (@asin_is_url_segment page_other_asin
                  (js "https://www.amazon.com/dp/B08N5WRWNW/ref=sr_1_1")
                  (js "https://www.amazon.com/dp") (js "B08N5WRWNW")
                  (js "ref=sr_1_1")
                  (conj eq_refl (conj eq_refl eq_refl)))).
Defined.

(** With the segment in the URL the page's identifier is ignored; without
    it the page's identifier is taken. *)
Example asin_url_before_page :
  asin (extract page_other_asin
          (js "https://www.amazon.com/dp/B08N5WRWNW/ref=sr_1_1"))
  = js "B08N5WRWNW"
  /\ asin (extract page_other_asin (js "https://www.amazon.com/dp/B08N5WRWNW"))
     = js "B000000000".
Proof. split; vm_compute; reflexivity. Qed.

(** With two segments the first one is taken. *)
Example asin_first_of_two :
  asin (extract empty_page (js "https://www.amazon.com/NINTENDO64/dp/B00000F1GM/"))
  = js "NINTENDO64".
Proof. vm_compute; reflexivity. Qed.

(** ** A page on which no selector of a field matches *)

Section BlankPage.

Variable doc : page.
Hypothesis blank : no_field_matches doc = true.

Lemma blank_at (sel : selector) : In sel fieldSelectors -> doc sel = [].
Proof.
  intros H. unfold no_field_matches in blank.
  rewrite forallb_forall in blank. specialize (blank sel H).
  now destruct (doc sel).
Qed.

Ltac field_selector :=
  unfold fieldSelectors; rewrite !in_app_iff; cbn [In]; tauto.

Lemma blank_first_text (sel : selector) :
  In sel fieldSelectors -> first_text doc sel = [].
Proof. intros H. unfold first_text. now rewrite blank_at. Qed.

Lemma blank_title : extractTitle doc = [].
Proof.
  unfold extractTitle. rewrite first_hit_none_in; [reflexivity |].
  intros sel H. rewrite blank_first_text; [reflexivity | field_selector].
Qed.

Lemma blank_brand : extractBrand doc = [].
Proof.
  unfold extractBrand. rewrite first_hit_none_in.
  - now rewrite blank_title.
  - intros sel H. rewrite blank_first_text; [reflexivity | field_selector].
Qed.

Lemma blank_model : extractModel doc = [].
Proof.
  unfold extractModel. rewrite first_hit_none_in.
  - rewrite blank_at; [reflexivity | field_selector].
  - intros sel H. rewrite blank_first_text; [reflexivity | field_selector].
Qed.

Lemma blank_asin_in_page : asin_in_page doc = [].
Proof.
  unfold asin_in_page. rewrite first_hit_none_in; [reflexivity |].
  intros sel H. rewrite blank_at; [reflexivity | field_selector].
Qed.

Lemma blank_pricing : extractPricing doc = Pricing None None None None.
Proof.
  assert (C : current_chain doc = []).
  { unfold current_chain. rewrite first_hit_none_in; [reflexivity |].
    intros sel H. rewrite blank_first_text; [reflexivity | field_selector]. }
  assert (O : original_chain doc [] = []).
  { unfold original_chain. rewrite first_hit_none_in; [reflexivity |].
    intros sel H. rewrite blank_first_text; [reflexivity | field_selector]. }
  assert (S : span_price doc = []).
  { unfold span_price. rewrite blank_at; [reflexivity | field_selector]. }
  assert (D : discount_chain doc = None).
  { unfold discount_chain. apply first_hit_none_in.
    intros sel H. rewrite blank_first_text; [reflexivity | field_selector]. }
  unfold extractPricing, found_current. rewrite C, O, S, D.
  cbn [truthy negb]. apply with_json_ld_no_script, blank_at. field_selector.
Qed.

Lemma blank_rating : extractRating doc = RatingInfo None None.
Proof.
  unfold extractRating. rewrite !first_hit_none_in; [reflexivity | |];
    intros sel H; unfold probe_group;
    (rewrite blank_first_text; [reflexivity | field_selector]).
Qed.

Lemma blank_colors : extractColors doc = [].
Proof.
  unfold extractColors. rewrite forEach_fixed_in; [reflexivity |].
  intros sel H. rewrite blank_at; [reflexivity | field_selector].
Qed.

Lemma blank_about : extractAboutItem doc = [].
Proof.
  unfold extractAboutItem. rewrite first_hit_none_in; [reflexivity |].
  intros sel H. rewrite blank_at; [reflexivity | field_selector].
Qed.

Lemma blank_technical : extractTechnicalData doc = [].
Proof.
  unfold extractTechnicalData. rewrite forEach_fixed_in; [reflexivity |].
  intros sel H. rewrite blank_at; [reflexivity | field_selector].
Qed.

Lemma blank_images : extractImages doc = [].
Proof.
  unfold extractImages. rewrite forEach_fixed_in; [reflexivity |].
  intros sel H. rewrite blank_at; [reflexivity | field_selector].
Qed.

Lemma blank_categories : extractCategories doc = [].
Proof.
  unfold extractCategories. rewrite forEach_fixed_in; [reflexivity |].
  intros sel H. rewrite blank_at; [reflexivity | field_selector].
Qed.

End BlankPage.





(** ** The route *)

(** C10 as stated fails: the number 123 does not contain "amazon." and is
    answered 500, not 400. *)
Lemma numeric_url_not_answered_400 :
  ~ validation_as_claimed [(js "url", JNum (of_Z 123))].
Proof.
  intros [_ H].
  destruct (H (JNum (of_Z 123)) eq_refl eq_refl) as [message E].
  vm_compute in E. discriminate E.
Qed.

Lemma no_string_among (x : jsstring) (items : list json) :
  ~ In (JStr x) items ->
  existsb (fun v => match v with
                    | JStr s => str_eqb s x
                    | _ => false
                    end) items = false.
Proof.
  induction items as [|v items IH]; intros H; [reflexivity |].
  cbn [existsb]. rewrite IH by (intros K; apply H; now right).
  destruct v as [| | | s | |]; try reflexivity.
  destruct (str_eqb s x) eqn:E; [| reflexivity].
  apply str_eqb_eq in E. subst s. exfalso. apply H. now left.
Qed.

(** C10, amended, for the requests that reach the handler (a body that
    [express.json] has parsed): a body without [url], or with a falsy one,
    is answered 400 "URL is required"; a non-empty string without "amazon.",
    and an array without the element "amazon.", are answered 400 with the
    validation error; any other truthy value that is no string and no array
    is answered 500, since it has no [includes] method.  In none of these
    cases is the scraper called: the answer does not depend on the
    fetcher. *)
Theorem scrape_request_validated (b : body) :
  let rejected r :=
    post_scrape b = Respond r
    /\ invokes_scraper (post_scrape b) = false
    /\ forall get, serve get b = r in
  (member (js "url") b = None ->
   rejected (ErrorJson 400 (js "URL is required")))
  /\ (forall url, member (js "url") b = Some url -> json_truthy url = false ->
      rejected (ErrorJson 400 (js "URL is required")))
  /\ (forall s, member (js "url") b = Some (JStr s) -> truthy s = true ->
      includes s (js "amazon.") = false ->
      rejected (ErrorJson 400 (js "Please provide a valid Amazon product URL")))
  /\ (forall items, member (js "url") b = Some (JArr items) ->
      ~ In (JStr (js "amazon.")) items ->
      rejected (ErrorJson 400 (js "Please provide a valid Amazon product URL")))
  /\ (forall url, member (js "url") b = Some url -> json_truthy url = true ->
      (forall s, url <> JStr s) -> (forall items, url <> JArr items) ->
      rejected (ErrorJson 500 (js "url.includes is not a function"))).
Proof.
  cbv zeta. unfold serve, post_scrape.
  split; [| split; [| split; [| split]]].
  - intros H. rewrite H. now repeat split.
  - intros url H T. rewrite H, T. now repeat split.
  - intros s H T I. rewrite H. cbn [json_truthy url_includes].
    rewrite T, I. now repeat split.
  - intros items H I. rewrite H. cbn [json_truthy url_includes negb].
    rewrite (@no_string_among _ _ I). now repeat split.
  - intros url H T Hs Ha. rewrite H, T. cbn [negb].
    destruct url as [| t | x | s | items | fields];
      try (now repeat split).
    + now destruct (Hs s).
    + now destruct (Ha items).
Qed.

Lemma scrape_request_validated_witness :
  serve (fun _ => Returned empty_page) [] = ErrorJson 400 (js "URL is required")
  /\ serve (fun _ => Returned empty_page)
           [(js "url", JStr (js "https://example.com/item/1"))]
     = ErrorJson 400 (js "Please provide a valid Amazon product URL")
  /\ serve (fun _ => Returned empty_page) [(js "url", JNum (of_Z 123))]
     = ErrorJson 500 (js "url.includes is not a function").
Proof.
  split; [| split].
  - destruct (proj1 (scrape_request_validated []) eq_refl) as (_ & _ & H).
    apply H.
  - pose proof (proj1 (proj2 (proj2 (scrape_request_validated
                  [(js "url", JStr (js "https://example.com/item/1"))]))))
      as H.
    destruct (H (js "https://example.com/item/1") eq_refl eq_refl eq_refl)
      as (_ & _ & K).
    apply K.
  - pose proof (proj2 (proj2 (proj2 (proj2 (scrape_request_validated
                  [(js "url", JNum (of_Z 123))]))))) as H.
    destruct (H (JNum (of_Z 123)) eq_refl eq_refl) as (_ & _ & K);
      try discriminate.
    apply K.
Defined.

(** The scraper is called only for a truthy [url] that includes "amazon.". *)
Lemma scraper_called_only_after_validation (b : body) :
  invokes_scraper (post_scrape b) = true ->
  exists url,
    member (js "url") b = Some url
    /\ json_truthy url = true
    /\ url_includes url (js "amazon.") = Returned true.
Proof.
  unfold post_scrape. destruct (member (js "url") b) as [url|]; [| discriminate].
  destruct (json_truthy url) eqn:T; cbn [negb]; [| discriminate].
  destruct (url_includes url (js "amazon.")) as [[|]|message] eqn:I;
    try discriminate.
  intros _. now exists url.
Qed.

(** A truthy [url] that is no string and no array has no [includes]
    method: the handler's [catch] answers 500, the scraper is not called. *)
Example numeric_url_is_answered_500 :
  post_scrape [(js "url", JNum (of_Z 123))]
  = Respond (ErrorJson 500 (js "url.includes is not a function")).
Proof. vm_compute; reflexivity. Qed.

(* ================================================================= *)
(** * Further properties of the scraper *)
(* ================================================================= *)

(** ** The matcher against the declarative reading of a pattern *)

Lemma advance_refl (st : rstate) : advance st st [].
Proof. split; [reflexivity | cbn [length]; lia]. Qed.

Lemma advance_trans (st1 st2 st3 : rstate) (u v : jsstring) :
  advance st1 st2 u -> advance st2 st3 v -> advance st1 st3 (u ++ v).
Proof.
  intros [R1 P1] [R2 P2]. split.
  - now rewrite R1, R2, app_assoc.
  - rewrite P2, P1, length_app. lia.
Qed.

Lemma advance_firstn (st st' : rstate) (w : jsstring) :
  advance st st' w -> firstn (pos st' - pos st) (rest st) = w.
Proof.
  intros [R P]. rewrite R, P.
  replace (pos st + length w - pos st) with (length w) by lia.
  rewrite firstn_app, Nat.sub_diag, firstn_all. cbn [firstn]. apply app_nil_r.
Qed.

Lemma repeat_run_sound (step : rstate -> list rstate) (L : jsstring -> Prop)
    (g : bool) :
  (forall st st', In st' (step st) -> exists w, advance st st' w /\ L w) ->
  forall fuel lo hi st st',
    bound_ok lo hi = true ->
    In st' (repeat_run step g fuel lo hi st) ->
    exists ws, advance st st' (concat ws) /\ Forall L ws /\ lo <= length ws
               /\ match hi with Some h => length ws <= h | None => True end.
Proof.
  intros Hs. induction fuel as [|fuel IH]; intros lo hi st st' Hb;
    cbn [repeat_run]; [intros [] |].
  assert (Z : lo = 0 -> exists ws : list jsstring,
              advance st st (concat ws) /\ Forall L ws /\ lo <= length ws
              /\ match hi with Some h => length ws <= h | None => True end).
  { intros ->. exists []. cbn [concat length].
    split; [apply advance_refl |]. split; [constructor |].
    split; [lia |]. destruct hi; [lia | exact I]. }
  destruct (hi_done hi) eqn:Hd.
  - intros [<- | []]. apply Z. destruct hi as [[|h]|]; try discriminate Hd.
    cbn [bound_ok] in Hb. apply Nat.leb_le in Hb. lia.
  - assert (A : In st'
                  (flat_map
                     (fun st1 =>
                        if Nat.eqb lo 0
                           && Nat.eqb (length (rest st1)) (length (rest st))
                        then []
                        else repeat_run step g fuel (Nat.pred lo)
                               (option_map Nat.pred hi) st1)
                     (step st)) ->
                exists ws, advance st st' (concat ws) /\ Forall L ws
                           /\ lo <= length ws
                           /\ match hi with
                              | Some h => length ws <= h
                              | None => True
                              end).
    { intros H. apply in_flat_map in H. destruct H as (st1 & H1 & H2).
      destruct (Hs _ _ H1) as (w & Hw & Lw).
      destruct (Nat.eqb lo 0 && Nat.eqb (length (rest st1)) (length (rest st)));
        [destruct H2 |].
      apply IH in H2.
      - destruct H2 as (ws & Hws & Fws & Hlo & Hhi).
        exists (w :: ws). cbn [concat length].
        split; [eapply advance_trans; eassumption |].
        split; [now constructor |]. split; [lia |].
        destruct hi as [[|h]|]; cbn [option_map Nat.pred] in *;
          [discriminate Hd | lia | exact I].
      - destruct hi as [[|h]|]; cbn [option_map bound_ok Nat.pred] in *;
          try reflexivity; [discriminate Hd |].
        apply Nat.leb_le in Hb. apply Nat.leb_le. lia. }
    destruct lo as [|lo]; [| exact A].
    destruct g.
    + intros H. apply in_app_or in H. destruct H as [H | [<- | []]];
        [now apply A | now apply Z].
    + intros [<- | H]; [now apply Z | now apply A].
Qed.

(** Whatever the matcher reads for a pattern is a word of the pattern. *)
Lemma run_sound (r : regex) :
  bounds_ok r = true ->
  forall st st', In st' (run r st) -> exists w, advance st st' w /\ lang r w.
Proof.
  induction r as [| q | r1 IH1 r2 IH2 | g lo hi r IH | i r IH | |];
    cbn [bounds_ok]; intros Hb st st'; cbn [run lang].
  - intros [<- | []]. exists []. split; [apply advance_refl | reflexivity].
  - destruct st as [p s cs]. cbn [rest pos caps].
    destruct s as [|c s]; [intros [] |].
    destruct (q c) eqn:E; [| intros []]. intros [<- | []].
    exists [c]. split; [| now exists c].
    split; cbn [rest pos length app]; [reflexivity | lia].
  - apply andb_true_iff in Hb. destruct Hb as [Hb1 Hb2].
    intros H. apply in_flat_map in H. destruct H as (st1 & H1 & H2).
    destruct (IH1 Hb1 _ _ H1) as (u & Au & Lu).
    destruct (IH2 Hb2 _ _ H2) as (v & Av & Lv).
    exists (u ++ v). split; [eapply advance_trans; eassumption |].
    now exists u, v.
  - apply andb_true_iff in Hb. destruct Hb as [Hb1 Hb2].
    intros H.
    destruct (@repeat_run_sound (run r) (lang r) g (IH Hb2) _ _ _ _ _ Hb1 H)
      as (ws & Aw & Fw & Hlo & Hhi).
    exists (concat ws). split; [exact Aw |]. now exists ws.
  - intros H. apply in_map_iff in H. destruct H as (st1 & <- & H1).
    destruct (IH Hb _ _ H1) as (w & [R P] & Lw).
    exists w. split; [split; assumption | exact Lw].
  - destruct (Nat.eqb (pos st) 0); [| intros []]. intros [<- | []].
    exists []. split; [apply advance_refl | reflexivity].
  - destruct (rest st) eqn:E; [| intros []]. intros [<- | []].
    exists []. split; [apply advance_refl | reflexivity].
Qed.

Lemma repeat_run_caps (step : rstate -> list rstate) (g : bool) :
  (forall st st', In st' (step st) -> caps st' = caps st) ->
  forall fuel lo hi st st',
    In st' (repeat_run step g fuel lo hi st) -> caps st' = caps st.
Proof.
  intros Hs. induction fuel as [|fuel IH]; intros lo hi st st';
    cbn [repeat_run]; [intros [] |].
  destruct (hi_done hi); [now intros [<- | []] |].
  assert (A : In st'
                (flat_map
                   (fun st1 =>
                      if Nat.eqb lo 0
                         && Nat.eqb (length (rest st1)) (length (rest st))
                      then []
                      else repeat_run step g fuel (Nat.pred lo)
                             (option_map Nat.pred hi) st1)
                   (step st)) ->
              caps st' = caps st).
  { intros H. apply in_flat_map in H. destruct H as (st1 & H1 & H2).
    apply Hs in H1.
    destruct (Nat.eqb lo 0 && Nat.eqb (length (rest st1)) (length (rest st)));
      [destruct H2 |].
    apply IH in H2. congruence. }
  destruct lo as [|lo]; [| exact A].
  destruct g.
  - intros H. apply in_app_or in H.
    destruct H as [H | [<- | []]]; [now apply A | reflexivity].
  - intros [<- | H]; [reflexivity | now apply A].
Qed.

Lemma run_caps (r : regex) :
  cap_free r = true ->
  forall st st', In st' (run r st) -> caps st' = caps st.
Proof.
  induction r as [| q | r1 IH1 r2 IH2 | g lo hi r IH | i r IH | |];
    cbn [cap_free]; intros Hc st st'; cbn [run].
  - now intros [<- | []].
  - destruct (rest st) as [|c s]; [intros [] |].
    destruct (q c); [| intros []]. now intros [<- | []].
  - apply andb_true_iff in Hc. destruct Hc as [Hc1 Hc2].
    intros H. apply in_flat_map in H. destruct H as (st1 & H1 & H2).
    rewrite (IH2 Hc2 _ _ H2). now apply IH1.
  - apply repeat_run_caps. now apply IH.
  - discriminate Hc.
  - destruct (Nat.eqb (pos st) 0); [| intros []]. now intros [<- | []].
  - destruct (rest st); [| intros []]. now intros [<- | []].
Qed.

(** A group around a pattern records the word that the pattern read. *)
Lemma run_capture (i : nat) (r : regex) (st st' : rstate) :
  cap_free r = true -> bounds_ok r = true ->
  In st' (run (Cap i r) st) ->
  exists w, advance st st' w /\ lang r w /\ caps st' = (i, w) :: caps st.
Proof.
  intros Hc Hb H. rewrite run_Cap in H. apply in_map_iff in H.
  destruct H as (st1 & <- & H1).
  destruct (run_sound r Hb _ _ H1) as (w & Aw & Lw).
  exists w. cbn [caps]. split; [exact Aw |]. split; [exact Lw |].
  now rewrite (advance_firstn Aw), (run_caps r Hc _ _ H1).
Qed.

Lemma match_here_state (r : regex) (p : nat) (s : jsstring) (m : rmatch) :
  match_here r p s = Some m ->
  exists st', In st' (run r (RState p s [])) /\ m_groups m = caps st'
              /\ m_index m = p.
Proof.
  unfold match_here. destruct (run r (RState p s [])) as [|st' l];
    [discriminate |].
  intros H. injection H as <-. exists st'. cbn [m_groups m_index].
  repeat split. now left.
Qed.

Lemma search_from_here (r : regex) (s : jsstring) (m : rmatch) :
  forall p, search_from r p s = Some m ->
  exists q t, match_here r q t = Some m /\ p <= q
              /\ exists pre, s = pre ++ t /\ q = p + length pre.
Proof.
  induction s as [|c s IH]; intros p; cbn [search_from].
  - destruct (match_here r p []) eqn:E; [| discriminate].
    intros H. injection H as <-. exists p, [].
    split; [exact E |]. split; [lia |].
    exists []. split; [reflexivity | cbn [length]; lia].
  - destruct (match_here r p (c :: s)) eqn:E.
    + intros H. injection H as <-. exists p, (c :: s).
      split; [exact E |]. split; [lia |].
      exists []. split; [reflexivity | cbn [length]; lia].
    + intros H. destruct (IH _ H) as (q & t & Hm & Hq & pre & Hs & Hl).
      exists q, t. split; [exact Hm |]. split; [lia |].
      exists (c :: pre). split; [now rewrite Hs | cbn [length]; lia].
Qed.

(** A repeated class reads code units of the class, as many as its bounds
    say. *)
Lemma lang_rep_class (g : bool) (lo : nat) (hi : option nat)
    (q : char -> bool) (w : jsstring) :
  lang (Rep g lo hi (Cls q)) w ->
  forallb q w = true /\ lo <= length w
  /\ match hi with Some h => length w <= h | None => True end.
Proof.
  cbn [lang]. intros (ws & -> & Fw & Hlo & Hhi).
  assert (K : forallb q (concat ws) = true /\ length (concat ws) = length ws).
  { clear Hlo Hhi. induction Fw as [|x ws (c & -> & Hc) _ [IH1 IH2]];
      [now split |].
    cbn [concat app forallb length]. now rewrite Hc, IH1, IH2. }
  destruct K as [K1 K2]. rewrite K2. now repeat split.
Qed.

Lemma first_hit_some {A B : Type} (probe : A -> option B) (xs : list A) (b : B) :
  first_hit probe xs = Some b -> exists x, In x xs /\ probe x = Some b.
Proof.
  induction xs as [|x xs IH]; cbn [first_hit]; [discriminate |].
  destruct (probe x) as [b'|] eqn:E.
  - intros H. injection H as <-. exists x. split; [now left | exact E].
  - intros H. destruct (IH H) as (y & Hy & Ey). exists y. split; [now right | exact Ey].
Qed.

(** ** The shape of the rating fields *)

(** X1: [rating], when set, is a decimal numeral: one or more digits, then at
    most one point, then digits; [ratingCount], when set, is a non-empty run
    of digits and commas. *)
Theorem rating_fields_shape (doc : page) :
  (forall r, rating (extractRating doc) = Some r ->
     exists ip dot fp,
       r = ip ++ dot ++ fp /\ ip <> [] /\ forallb is_digit ip = true
       /\ (dot = [] \/ dot = js ".") /\ forallb is_digit fp = true)
  /\ (forall c, ratingCount (extractRating doc) = Some c ->
        c <> [] /\ forallb (fun x => is_digit x || N.eqb x 44) c = true).
Proof.
  unfold extractRating. cbn [rating ratingCount]. split.
  - intros r H. apply first_hit_some in H. destruct H as (sel & _ & H).
    unfold probe_group in H.
    destruct (exec re_rating (first_text doc sel)) as [m|] eqn:E;
      [| discriminate H].
    cbn [option_map] in H. injection H as <-.
    unfold exec in E. apply search_from_here in E.
    destruct E as (q & t & Hm & _). apply match_here_state in Hm.
    destruct Hm as (st' & Hin & Hg & _).
    unfold re_rating in Hin. cbn [seq] in Hin. rewrite run_Cat in Hin.
    apply in_flat_map in Hin. destruct Hin as (st1 & H1 & H2).
    apply run_capture in H1; [| reflexivity | reflexivity].
    destruct H1 as (w & _ & Lw & Cw).
    apply run_caps in H2; [| reflexivity].
    unfold group. rewrite Hg, H2, Cw. cbn [assoc Nat.eqb caps].
    cbn [lang] in Lw. destruct Lw as (u & v & -> & Lu & d & f & -> & Ld & Lf).
    apply lang_rep_class in Lu. apply lang_rep_class in Lf.
    destruct Lu as (Fu & Nu & _). destruct Lf as (Ff & _ & _).
    exists u, d, f. repeat split; try assumption.
    + intros ->. cbn [length] in Nu. lia.
    + destruct Ld as (ws & -> & Fw & _ & Hh).
      destruct ws as [|x [|y ws]]; [now left | | cbn [length] in Hh; lia].
      right. inversion_clear Fw as [|? ? (c & -> & Hc) _].
      apply N.eqb_eq in Hc. subst c. reflexivity.
  - intros c H. apply first_hit_some in H. destruct H as (sel & _ & H).
    unfold probe_group in H.
    destruct (exec re_count (first_text doc sel)) as [m|] eqn:E;
      [| discriminate H].
    cbn [option_map] in H. injection H as <-.
    unfold exec in E. apply search_from_here in E.
    destruct E as (q & t & Hm & _). apply match_here_state in Hm.
    destruct Hm as (st' & Hin & Hg & _).
    unfold re_count in Hin.
    apply run_capture in Hin; [| reflexivity | reflexivity].
    destruct Hin as (w & _ & Lw & Cw).
    unfold group. rewrite Hg, Cw. cbn [assoc Nat.eqb caps].
    apply lang_rep_class in Lw.
    destruct Lw as (Fw & Nw & _). split; [| exact Fw].
    intros ->. cbn [length] in Nw. lia.
Qed.

(** ** Trimming *)

Lemma trim_start_suffix (s : jsstring) : exists pre, s = pre ++ trim_start s.
Proof.
  induction s as [|c s [pre IH]]; [now exists [] |].
  cbn [trim_start]. destruct (is_space c); [| now exists []].
  exists (c :: pre). cbn [app]. now rewrite <- IH.
Qed.

Lemma trim_start_idem (s : jsstring) : trim_start (trim_start s) = trim_start s.
Proof.
  induction s as [|c s IH]; [reflexivity |].
  cbn [trim_start]. destruct (is_space c) eqn:E; [exact IH |].
  cbn [trim_start]. now rewrite E.
Qed.

Lemma trim_start_snoc (s : jsstring) (c : char) :
  is_space c = false -> trim_start (s ++ [c]) = trim_start s ++ [c].
Proof.
  intros Hc. induction s as [|a s IH]; cbn [app trim_start].
  - now rewrite Hc.
  - destruct (is_space a); [exact IH | reflexivity].
Qed.

Lemma trim_end_cons (c : char) (s : jsstring) :
  is_space c = false -> trim_end (c :: s) = c :: trim_end s.
Proof.
  intros Hc. unfold trim_end. cbn [rev].
  rewrite trim_start_snoc by exact Hc. rewrite rev_app_distr. reflexivity.
Qed.

Lemma trim_end_prefix (s : jsstring) : exists post, s = trim_end s ++ post.
Proof.
  unfold trim_end. destruct (trim_start_suffix (rev s)) as [pre H].
  exists (rev pre). rewrite <- rev_app_distr, <- H. now rewrite rev_involutive.
Qed.

Lemma trim_end_idem (s : jsstring) : trim_end (trim_end s) = trim_end s.
Proof.
  unfold trim_end. now rewrite rev_involutive, trim_start_idem.
Qed.

(** Trimming a trimmed string changes nothing. *)
Lemma trim_idem (s : jsstring) : trim (trim s) = trim s.
Proof.
  unfold trim. set (t := trim_start s).
  assert (H : trim_start (trim_end t) = trim_end t).
  { assert (T : trim_start t = t) by apply trim_start_idem.
    destruct t as [|c t]; [reflexivity |].
    cbn [trim_start] in T. destruct (is_space c) eqn:E.
    - exfalso. destruct (trim_start_suffix t) as [pre Hp].
      rewrite T in Hp. apply (f_equal (@length _)) in Hp.
      rewrite length_app in Hp. cbn [length] in Hp. lia.
    - rewrite trim_end_cons by exact E. cbn [trim_start]. now rewrite E. }
  rewrite H. apply trim_end_idem.
Qed.

Lemma first_text_trimmed (doc : page) (sel : selector) :
  trim (first_text doc sel) = first_text doc sel.
Proof. apply trim_idem. Qed.

Lemma first_hit_all_none {A B : Type} (probe : A -> option B) (xs : list A) :
  first_hit probe xs = None -> forall x, In x xs -> probe x = None.
Proof.
  induction xs as [|x xs IH]; cbn [first_hit]; [intros _ y [] |].
  destruct (probe x) eqn:E; [discriminate |].
  intros H y [<- | Hy]; [exact E | now apply IH].
Qed.

(** ** Title *)

(** X2: the title has no white space at either end, and it is empty exactly
    when the first element of every title selector has blank text. *)
Theorem title_is_trimmed (doc : page) :
  trim (extractTitle doc) = extractTitle doc
  /\ (extractTitle doc = []
      <-> forall sel, In sel titleSelectors -> first_text doc sel = []).
Proof.
  unfold extractTitle.
  destruct (first_hit (fun sel => when_truthy (first_text doc sel))
                      titleSelectors) as [t|] eqn:E; cbn [or_empty].
  - apply first_hit_some in E. destruct E as (sel & Hin & Hs).
    unfold when_truthy in Hs.
    destruct (truthy (first_text doc sel)) eqn:T; [| discriminate Hs].
    injection Hs as <-. split; [apply first_text_trimmed |].
    split.
    + intros H. rewrite H in T. discriminate T.
    + intros H. rewrite (H sel Hin) in T. discriminate T.
  - split; [reflexivity |]. split; [| reflexivity].
    intros _ sel Hin. pose proof (first_hit_all_none _ _ E sel Hin) as H.
    cbn beta in H. unfold when_truthy in H.
    destruct (first_text doc sel); [reflexivity | discriminate H].
Qed.

(** ** The catalog identifier is well formed *)

Lemma test_re_asin (a : jsstring) : test re_asin a = true -> is_asin_segment a.
Proof.
  unfold test, exec. destruct (search_from re_asin 0 a) as [m|] eqn:E;
    [intros _ | discriminate].
  apply search_from_here in E.
  destruct E as (q & t & Hm & _ & pre & -> & Hq). cbn [Nat.add] in Hq.
  unfold match_here, re_asin, times in Hm. cbn [seq] in Hm.
  rewrite run_Cat in Hm. cbn [run pos] in Hm.
  destruct q as [|q]; cbn [Nat.eqb flat_map] in Hm; [| discriminate Hm].
  destruct pre; [| discriminate Hq]. cbn [app].
  rewrite app_nil_r in Hm. cbn [rest] in Hm.
  change (repeat_run _ true _ 10 (Some 10) _)
    with (repeat_run (run (Cls is_upper_alnum)) true (10 + length t + 1) 10
                     (Some 10) (RState 0 t [])) in Hm.
  rewrite repeat_run_exact in Hm by lia. cbn [rest pos caps] in Hm.
  destruct (Nat.leb 10 (length t)) eqn:L; cbn [andb flat_map] in Hm;
    [| discriminate Hm].
  destruct (forallb is_upper_alnum (firstn 10 t)) eqn:F; cbn [flat_map] in Hm;
    [| discriminate Hm].
  cbn [rest] in Hm. destruct (skipn 10 t) eqn:K; [| discriminate Hm].
  apply Nat.leb_le in L.
  assert (T : firstn 10 t = t).
  { rewrite <- (firstn_skipn 10 t) at 2. rewrite K. now rewrite app_nil_r. }
  rewrite T in F. split; [| exact F].
  rewrite <- T. rewrite length_firstn. lia.
Qed.

(** X3: [asin] is either empty or ten upper-case letters and digits, wherever
    it was read from. *)
Theorem asin_is_well_formed (doc : page) (url : jsstring) :
  asin (extract doc url) = [] \/ is_asin_segment (asin (extract doc url)).
Proof.
  change (asin (extract doc url)) with (extractASIN doc url).
  rewrite extractASIN_search. destruct (asin_search url) as [seg|] eqn:E.
  - right. apply asin_search_first in E. destruct E as (pre & post & [_ H] & _).
    exact H.
  - unfold asin_in_page.
    destruct (first_hit _ asinSelectors) as [a|] eqn:F; cbn [or_empty];
      [right | now left].
    apply first_hit_some in F. destruct F as (sel & _ & F).
    destruct (oor _ _) as [a'|]; [| discriminate F].
    destruct (truthy a' && test re_asin a') eqn:T; [| discriminate F].
    injection F as <-. apply andb_true_iff in T. now apply test_re_asin.
Qed.

(** ** Brand read from the title *)

Lemma run_Bol (st : rstate) :
  run Bol st = if Nat.eqb (pos st) 0 then [st] else [].
Proof. reflexivity. Qed.

Lemma upper_is_not_space (c : char) : is_upper c = true -> is_space c = false.
Proof.
  unfold is_upper, is_space, in_range. rewrite andb_true_iff, !N.leb_le.
  intros [H1 H2].
  repeat (apply orb_false_iff; split);
    try (apply andb_false_iff; left; apply N.leb_gt; lia);
    try (apply andb_false_iff; right; apply N.leb_gt; lia);
    apply N.eqb_neq; lia.
Qed.

(** X4: when every byline is blank or mentions "visit" or "store", the brand is
    read from the title: it is a prefix of the title and is empty or an
    upper-case ASCII letter followed by letters, white space, ampersands and
    hyphens. *)
Theorem brand_read_from_title (doc : page) :
  (forall sel, In sel brandSelectors ->
               unusable_byline (first_text doc sel) = true) ->
  (extractBrand doc = []
   \/ exists c w, extractBrand doc = c :: w /\ is_upper c = true
                  /\ forallb is_brand_char w = true)
  /\ exists rest, extractTitle doc = extractBrand doc ++ rest.
Proof.
  intros Hu. unfold extractBrand. rewrite first_hit_none_in.
  2:{ intros sel Hin. specialize (Hu sel Hin). unfold unusable_byline in Hu.
      destruct (truthy (first_text doc sel)); [| reflexivity].
      cbn [negb orb andb] in *.
      destruct (includes _ (js "visit")); [reflexivity |].
      cbn [orb] in Hu. now rewrite Hu. }
  set (title := extractTitle doc).
  assert (Z : ([] : jsstring) = []
              \/ (exists (c : N) (w : list N),
                    [] = c :: w /\ is_upper c = true
                    /\ forallb is_brand_char w = true)) by now left.
  destruct (truthy title); [| split; [exact Z | now exists title]].
  destruct (exec re_brand_in_title title) as [m|] eqn:E;
    [| split; [exact Z | now exists title]].
  clear Z. unfold exec in E. apply search_from_here in E.
  destruct E as (q & t & Hm & _ & pre & Ht & Hq). cbn [Nat.add] in Hq.
  apply match_here_state in Hm. destruct Hm as (st' & Hin & Hg & _).
  unfold re_brand_in_title in Hin. cbn [seq] in Hin.
  rewrite run_Cat, run_Bol in Hin. apply in_flat_map in Hin.
  destruct Hin as (st0 & H0 & Hin). cbn [pos] in H0.
  destruct q as [|q]; [| destruct H0]. destruct H0 as [<- | []].
  destruct pre; [| discriminate Hq]. cbn [app] in Ht. subst t.
  rewrite run_Cat in Hin. apply in_flat_map in Hin.
  destruct Hin as (st1 & H1 & H2).
  apply run_capture in H1; [| reflexivity | reflexivity].
  destruct H1 as (w & [Rw _] & Lw & Cw). cbn [rest caps] in Rw, Cw.
  apply run_caps in H2; [| reflexivity].
  unfold group. rewrite Hg, H2, Cw. cbn [assoc Nat.eqb].
  cbn [lang] in Lw. destruct Lw as (u & v & -> & (c & -> & Hc) & Lv).
  apply lang_rep_class in Lv. destruct Lv as (Fv & _ & _).
  cbn [app] in *.
  assert (T : trim (c :: v) = c :: trim_end v).
  { unfold trim. cbn [trim_start]. rewrite (upper_is_not_space c Hc).
    apply trim_end_cons. now apply upper_is_not_space. }
  rewrite T. destruct (trim_end_prefix v) as [post Hp]. split.
  - right. exists c, (trim_end v). repeat split; [exact Hc |].
    rewrite Hp, forallb_app in Fv. apply andb_true_iff in Fv. apply Fv.
  - exists (post ++ rest st1). rewrite Rw. cbn [app]. f_equal.
    rewrite Hp at 1. now rewrite <- app_assoc.
Qed.

Lemma brand_read_from_title_witness :
  (extractBrand page_store_byline = []
   \/ exists c w, extractBrand page_store_byline = c :: w /\ is_upper c = true
                  /\ forallb is_brand_char w = true)
  /\ exists rest,
       extractTitle page_store_byline = extractBrand page_store_byline ++ rest.
Proof.
  apply (brand_read_from_title page_store_byline).
  intros sel Hin.
  repeat (destruct Hin as [<- | Hin]; [vm_compute; reflexivity |]).
  destruct Hin.
Defined.

Example brand_of_store_byline_page :
  extractBrand page_store_byline = js "Sony".
Proof. vm_compute; reflexivity. Qed.

(** ** Model read from the details table *)

Lemma model_loop (rows : list node) :
  forall i acc,
    each_from i rows
      (fun _ row foundModel =>
         let label :=
           toLowerCase (trim (text (find row "td:first-child, th:first-child"))) in
         if includes label (js "model") && negb (includes label (js "number"))
         then
           let value := trim (text (find row "td:last-child")) in
           if truthy value && negb (str_eqb value (js "N/A"))
              && negb (str_eqb value (js "-"))
           then (value, false)
           else (foundModel, true)
         else (foundModel, true))
      acc
    = match List.find is_model_row rows with
      | Some row => trim (text (find row "td:last-child"))
      | None => acc
      end.
Proof.
  induction rows as [|row rows IH]; intros i acc; [reflexivity |].
  cbn [each_from List.find]. unfold is_model_row at 1. cbv zeta.
  destruct (includes _ (js "model") && negb (includes _ (js "number")));
    cbn [andb]; [| apply IH].
  destruct (truthy _ && negb (str_eqb _ (js "N/A")) && negb (str_eqb _ (js "-")));
    [reflexivity | apply IH].
Qed.

(** X5: when no model selector has text, the model is the last cell of the first
    row of the details table whose label mentions "model" but not "number"
    and whose value is neither empty, "N/A" nor "-"; without such a row it
    is empty. *)
Theorem model_read_from_table (doc : page) :
  (forall sel, In sel modelSelectors -> first_text doc sel = []) ->
  extractModel doc
  = match
      List.find is_model_row
        (doc "#tech tbody tr, #productDetails_detailBullets_sections1 tbody tr")
    with
    | Some row => trim (text (find row "td:last-child"))
    | None => []
    end.
Proof.
  intros Hb. unfold extractModel. rewrite first_hit_none_in.
  - unfold each. apply model_loop.
  - intros sel Hin. now rewrite (Hb sel Hin).
Qed.

Lemma model_read_from_table_witness :
  extractModel page_model_rows = js "WH-1000XM4".
Proof.
  pose proof (model_read_from_table page_model_rows) as H.
  rewrite H.
  - vm_compute; reflexivity.
  - intros sel Hin.
    repeat (destruct Hin as [<- | Hin]; [vm_compute; reflexivity |]).
    destruct Hin.
Defined.

(** ** Pricing: when savings are computed *)

Lemma with_json_ld_keeps_savings (doc : page) (p : pricing) :
  amountSaved (with_json_ld doc p) = amountSaved p
  /\ offerPercentage (with_json_ld doc p) = offerPercentage p.
Proof.
  unfold with_json_ld.
  apply (each_invariant
           (fun acc => amountSaved acc = amountSaved p
                       /\ offerPercentage acc = offerPercentage p));
    [| now split].
  intros _ script acc H. now destruct (ld_offer_price script).
Qed.

Lemma with_savings_without_offer (p : pricing) :
  offerPrice p = None -> with_savings p = p.
Proof.
  intros H. unfold with_savings. rewrite H. now destruct (originalPrice p).
Qed.

Lemma discount_chain_truthy (doc : page) (d : jsstring) :
  discount_chain doc = Some d -> truthy d = true.
Proof.
  unfold discount_chain. intros H. apply first_hit_some in H.
  destruct H as (sel & _ & H).
  destruct (truthy (first_text doc sel)) eqn:T; [| discriminate H].
  destruct (test re_percent (first_text doc sel)); [| discriminate H].
  now injection H as <-.
Qed.

(** X6: [amountSaved] is set only when a current price was found by the
    selectors or the [span] scan, it differs from the original price, and
    the original parses to the greater number; it is then their difference
    with two decimals, and [offerPercentage] is set as well. *)
Theorem savings_only_when_cheaper (doc : page) (saved : jsstring) :
  amountSaved (extractPricing doc) = Some saved ->
  exists offer orig pct,
    found_current doc = offer /\ truthy offer = true
    /\ offerPrice (extractPricing doc) = Some offer
    /\ originalPrice (extractPricing doc) = Some orig
    /\ offerPercentage (extractPricing doc) = Some pct
    /\ orig <> offer
    /\ num_gt (price_number orig) (price_number offer) = true
    /\ saved = toFixed 2 (num_sub (price_number orig) (price_number offer)).
Proof.
  unfold extractPricing.
  set (cur := found_current doc).
  set (orig0 := original_chain doc (current_chain doc)).
  destruct (truthy cur) eqn:Tc; cbn [negb].
  - set (orig := if truthy orig0 then orig0 else cur).
    set (p3 := match discount_chain doc with
               | Some _ => _ | None => _ end).
    assert (E3 : p3 = Pricing (Some cur) (Some orig) (discount_chain doc) None).
    { unfold p3, orig. destruct (discount_chain doc); destruct (truthy orig0);
        reflexivity. }
    rewrite E3. clear E3 p3.
    unfold with_savings. cbn [originalPrice offerPrice offerPercentage].
    assert (To : truthy orig = true)
      by (unfold orig; destruct (truthy orig0) eqn:T; assumption).
    rewrite To, Tc. cbn [andb].
    destruct (str_eqb orig cur) eqn:Ne; cbn [negb amountSaved];
      [discriminate |].
    apply str_eqb_neq in Ne.
    destruct (num_gt (price_number orig) (price_number cur)) eqn:Gt;
      cbn [amountSaved]; [| discriminate].
    destruct (discount_chain doc) as [d|] eqn:D; cbn [truthy_opt negb].
    + rewrite (discount_chain_truthy _ D). cbn [negb amountSaved].
      intros H. injection H as <-. exists cur, orig, d. now repeat split.
    + cbn [amountSaved offerPrice originalPrice offerPercentage].
      intros H. injection H as <-. eexists cur, orig, _. now repeat split.
  - set (p3 := match discount_chain doc with
               | Some _ => _ | None => _ end).
    assert (E3 : offerPrice p3 = None /\ amountSaved p3 = None)
      by (unfold p3; destruct (discount_chain doc); destruct (truthy orig0);
          now split).
    destruct E3 as [E3 E4].
    rewrite (with_savings_without_offer _ E3).
    destruct (with_json_ld_keeps_savings doc p3) as [K _].
    rewrite K, E4. discriminate.
Qed.

Lemma savings_only_when_cheaper_witness :
  exists offer orig pct,
    found_current page_discounted = offer /\ truthy offer = true
    /\ offerPrice (extractPricing page_discounted) = Some offer
    /\ originalPrice (extractPricing page_discounted) = Some orig
    /\ offerPercentage (extractPricing page_discounted) = Some pct
    /\ orig <> offer
    /\ num_gt (price_number orig) (price_number offer) = true
    /\ js "10.00" = toFixed 2 (num_sub (price_number orig) (price_number offer)).
Proof.
  apply (savings_only_when_cheaper page_discounted (saved := js "10.00")).
  vm_compute; reflexivity.
Defined.

(** X7: when neither the price selectors nor the [span] scan find a current
    price, the offer price is that of the last JSON-LD script that has one,
    and no savings are computed from it: [amountSaved] stays unset and
    [offerPercentage] is the discount text of the page, if any, even when an
    original price was found. *)
Theorem json_ld_price_brings_no_savings (doc : page) :
  truthy (found_current doc) = false ->
  offerPrice (extractPricing doc) = last_offer_price (ld_scripts doc) None
  /\ originalPrice (extractPricing doc)
     = when_truthy (original_chain doc (current_chain doc))
  /\ amountSaved (extractPricing doc) = None
  /\ offerPercentage (extractPricing doc) = discount_chain doc.
Proof.
  intros Tc. unfold extractPricing. rewrite Tc. cbn [negb].
  set (orig0 := original_chain doc (current_chain doc)).
  set (p3 := match discount_chain doc with
             | Some _ => _ | None => _ end).
  assert (E3 : p3 = Pricing None (when_truthy orig0) (discount_chain doc) None).
  { unfold p3, when_truthy. destruct (discount_chain doc);
      destruct (truthy orig0); reflexivity. }
  rewrite E3. clear E3 p3.
  rewrite with_savings_without_offer by reflexivity.
  rewrite with_json_ld_offer, with_json_ld_keeps_original.
  destruct (with_json_ld_keeps_savings doc
              (Pricing None (when_truthy orig0) (discount_chain doc) None))
    as [K1 K2].
  rewrite K1, K2. now repeat split.
Qed.

Lemma json_ld_price_brings_no_savings_witness :
  offerPrice (extractPricing page_ld_prices) = Some (js "17.49")
  /\ originalPrice (extractPricing page_ld_prices) = Some (js "$20.00")
  /\ amountSaved (extractPricing page_ld_prices) = None
  /\ offerPercentage (extractPricing page_ld_prices) = None.
Proof.
  apply (json_ld_price_brings_no_savings page_ld_prices).
  vm_compute; reflexivity.
Defined.

(** ** What the list fields hold *)

(** X8: every color has at least two code units. *)
Theorem colors_are_not_single_letters (doc : page) :
  Forall (fun c => 2 <= length c) (extractColors doc).
Proof.
  unfold extractColors.
  assert (H : forall l n, Forall (fun c : jsstring => 2 <= length c) l ->
                          Forall (fun c : jsstring => 2 <= length c) (firstn n l)).
  { intros l n Hl. rewrite <- (firstn_skipn n l) in Hl.
    now apply Forall_app in Hl. }
  apply H. apply forEach_invariant; [| constructor].
  intros selector colors Hc. cbn [fst].
  apply each_invariant; [| assumption].
  intros _ el cs Hcs. destruct (color_name el) as [name|]; [| assumption].
  destruct (truthy name && negb (array_includes cs name)); cbn [andb fst];
    [| assumption].
  destruct (Nat.ltb 1 (length name)) eqn:L; cbn [fst]; [| assumption].
  apply Forall_app. split; [assumption |]. repeat constructor.
  apply Nat.ltb_lt in L. lia.
Qed.

(** X9: every category is trimmed, has at least three code units and does not
    mention "amazon" in any letter case. *)
Theorem categories_are_well_formed (doc : page) :
  Forall (fun c => trim c = c /\ 3 <= length c
                   /\ includes (toLowerCase c) (js "amazon") = false)
         (extractCategories doc).
Proof.
  unfold extractCategories.
  set (P := fun c : jsstring =>
              trim c = c /\ 3 <= length c
              /\ includes (toLowerCase c) (js "amazon") = false).
  assert (H : forall l n, Forall P l -> Forall P (firstn n l)).
  { intros l n Hl. rewrite <- (firstn_skipn n l) in Hl.
    now apply Forall_app in Hl. }
  apply H. apply forEach_invariant; [| constructor].
  intros selector cats Hc.
  match goal with
  | |- Forall P (fst (if _ then (?c, _) else (?c, _))) =>
      assert (K : Forall P c); [| now destruct (Nat.ltb 0 (length c))]
  end.
  apply each_invariant; [| assumption].
  intros _ el cs Hcs.
  destruct (truthy _); cbn [andb fst]; [| assumption].
  destruct (Nat.ltb 2 _) eqn:L; cbn [andb fst]; [| assumption].
  destruct (includes _ (js "amazon")) eqn:A; cbn [negb andb fst]; [assumption |].
  destruct (array_includes cs _); cbn [negb fst]; [assumption |].
  apply Forall_app. split; [assumption |]. repeat constructor.
  - apply trim_idem.
  - apply Nat.ltb_lt in L. lia.
  - exact A.
Qed.

Lemma push_image_holds (P : image -> Prop) (img : node)
    (st : list image * list jsstring) :
  (forall src alt_,
     includes src (js "amazon") = true -> includes src (js "sprite") = false ->
     alt_ <> [] -> P (Image src alt_ false)) ->
  Forall P (fst st) -> Forall P (fst (fst (push_image img st))).
Proof.
  intros HP. destruct st as [imgs seen]. cbn [fst]. intros Hi.
  unfold push_image.
  destruct (image_src img) as [src0|]; [| assumption].
  destruct (truthy src0); [| assumption].
  cbv zeta.
  destruct (array_includes seen (high_res src0)); cbn [negb andb fst];
    [assumption |].
  destruct (includes (high_res src0) (js "amazon")) eqn:A; cbn [andb fst];
    [| assumption].
  destruct (includes (high_res src0) (js "sprite")) eqn:S_; cbn [negb fst];
    [assumption |].
  apply Forall_app. split; [assumption |]. repeat constructor.
  apply HP; [exact A | exact S_ |].
  unfold or_else. destruct (truthy _) eqn:T.
  - intros E. rewrite E in T. discriminate T.
  - discriminate.
Qed.

(** X10: every image has a URL that mentions "amazon" and not "sprite", a
    non-empty [alt] text, and is marked as not downloaded. *)
Theorem images_are_well_formed (doc : page) :
  Forall (fun im => includes (url im) (js "amazon") = true
                    /\ includes (url im) (js "sprite") = false
                    /\ alt im <> [] /\ downloaded im = false)
         (extractImages doc).
Proof.
  unfold extractImages.
  set (P := fun im => includes (url im) (js "amazon") = true
                      /\ includes (url im) (js "sprite") = false
                      /\ alt im <> [] /\ downloaded im = false).
  match goal with
  | |- context [forEach ?xs ?fn ?s0] =>
      assert (H : Forall P (fst (forEach xs fn s0)))
  end.
  { apply (forEach_invariant (fun st => Forall P (fst st))); [| constructor].
    intros selector st Hst. cbn [fst].
    apply (each_invariant (fun st => Forall P (fst st))); [| assumption].
    intros _ img st' Hst'. apply push_image_holds; [| assumption].
    intros src a A S_ Ha. now repeat split. }
  destruct (forEach _ _ _) as [imgs seen]. cbn [fst] in H.
  rewrite <- (firstn_skipn 6 imgs) in H. now apply Forall_app in H.
Qed.

(** ** Tags: what they are and what the cap keeps *)

Lemma forEach_app {A S : Type} (xs ys : list A) (fn : A -> S -> S * bool)
    (s : S) :
  forEach (xs ++ ys) fn s = forEach ys fn (forEach xs fn s).
Proof. unfold forEach. apply fold_left_app. Qed.

Lemma forEach_one {A S : Type} (x : A) (fn : A -> S -> S * bool) (s : S) :
  forEach [x] fn s = fst (fn x s).
Proof. reflexivity. Qed.

(** The tags before the keyword loop: brand, rating and deal. *)
Lemma generateTags_split (p : productData) :
  exists tags0,
    generateTags p
    = firstn 8 (forEach keywordTags
                  (add_keyword_tag (toLowerCase (title p))) tags0)
    /\ length tags0 <= 3
    /\ (truthy (brand p) = true -> exists t, tags0 = brand p :: t)
    /\ (forall r, rating (stars p) = Some r -> truthy r = true ->
                  num_ge (parseFloat r) (of_Z 4) = true ->
                  In (js "Highly Rated") tags0)
    /\ Forall (fun t => t = brand p \/ In t tagVocabulary) tags0
    /\ tags_before_cap p
       = forEach keywordTags (add_keyword_tag (toLowerCase (title p))) tags0
    /\ (forall pct, offerPercentage (price p) = Some pct -> truthy pct = true ->
                    (num_ge (parseInt pct) (of_Z 50) = true ->
                     In (js "Great Deal") tags0)
                    /\ (num_ge (parseInt pct) (of_Z 50) = false ->
                        num_ge (parseInt pct) (of_Z 20) = true ->
                        In (js "Good Deal") tags0)).
Proof.
  unfold generateTags, tags_before_cap.
  set (t1 := if truthy (brand p) then [] ++ [brand p] else []).
  set (t2 := match rating (stars p) with
             | Some r =>
                 if truthy r && num_ge (parseFloat r) (of_Z 4)
                 then t1 ++ [js "Highly Rated"] else t1
             | None => t1
             end).
  set (t3 := match offerPercentage (price p) with
             | Some pct => _
             | None => t2
             end).
  exists t3. split; [reflexivity |].
  assert (L1 : length t1 <= 1
               /\ (truthy (brand p) = true -> t1 = [brand p])
               /\ Forall (fun t => t = brand p \/ In t tagVocabulary) t1).
  { unfold t1. destruct (truthy (brand p)); cbn [app length].
    - split; [lia |]. split; [reflexivity |].
      constructor; [now left | constructor].
    - split; [lia |]. split; [discriminate | constructor]. }
  destruct L1 as (L1 & B1 & V1).
  assert (L2 : length t2 <= 2 /\ (exists more, t2 = t1 ++ more)
               /\ (forall r, rating (stars p) = Some r -> truthy r = true ->
                             num_ge (parseFloat r) (of_Z 4) = true ->
                             In (js "Highly Rated") t2)
               /\ Forall (fun t => t = brand p \/ In t tagVocabulary) t2).
  { unfold t2. destruct (rating (stars p)) as [r|].
    - destruct (truthy r && num_ge (parseFloat r) (of_Z 4)) eqn:E.
      + split; [rewrite length_app; cbn [length]; lia |].
        split; [now eexists |]. split.
        * intros _ _ _ _. apply in_or_app. right. now left.
        * apply Forall_app. split; [exact V1 |].
          constructor; [| constructor]. right. now left.
      + split; [lia |]. split; [exists []; now rewrite app_nil_r |]. split.
        * intros r' Hr T G. injection Hr as <-. now rewrite T, G in E.
        * exact V1.
    - split; [lia |]. split; [exists []; now rewrite app_nil_r |]. split.
      + discriminate.
      + exact V1. }
  destruct L2 as (L2 & [m2 E2] & R2 & V2).
  assert (L3 : length t3 <= 3 /\ (exists more, t3 = t2 ++ more)
               /\ Forall (fun t => t = brand p \/ In t tagVocabulary) t3
               /\ (forall pct, offerPercentage (price p) = Some pct ->
                     truthy pct = true ->
                     (num_ge (parseInt pct) (of_Z 50) = true ->
                      In (js "Great Deal") t3)
                     /\ (num_ge (parseInt pct) (of_Z 50) = false ->
                         num_ge (parseInt pct) (of_Z 20) = true ->
                         In (js "Good Deal") t3))).
  { unfold t3. destruct (offerPercentage (price p)) as [pct|].
    - destruct (truthy pct) eqn:T.
      2:{ split; [lia |]. split; [exists []; now rewrite app_nil_r |].
          split; [exact V2 |]. intros pct' H T'. injection H as <-.
          now rewrite T in T'. }
      destruct (num_ge (parseInt pct) (of_Z 50)) eqn:G50.
      + split; [rewrite length_app; cbn [length]; lia |].
        split; [now eexists |]. split.
        * apply Forall_app. split; [exact V2 |].
          constructor; [| constructor]. right. right. now left.
        * intros pct' H _. injection H as <-. rewrite G50. split.
          -- intros _. apply in_or_app. right. now left.
          -- discriminate.
      + destruct (num_ge (parseInt pct) (of_Z 20)) eqn:G20.
        * split; [rewrite length_app; cbn [length]; lia |].
          split; [now eexists |]. split.
          -- apply Forall_app. split; [exact V2 |].
             constructor; [| constructor]. right. right. right. now left.
          -- intros pct' H _. injection H as <-. rewrite G50. split.
             ++ discriminate.
             ++ intros _ _. apply in_or_app. right. now left.
        * split; [lia |]. split; [exists []; now rewrite app_nil_r |].
          split; [exact V2 |]. intros pct' H _. injection H as <-.
          rewrite G50, G20. split; discriminate.
    - split; [lia |]. split; [exists []; now rewrite app_nil_r |].
      split; [exact V2 |]. discriminate. }
  destruct L3 as (L3 & [m3 E3] & V3 & D3).
  split; [exact L3 |]. split; [| split; [| split; [exact V3 |]]].
  - intros T. rewrite E3, E2, (B1 T). cbn [app]. now eexists.
  - intros r Hr T G. rewrite E3. apply in_or_app. left. now apply R2 with r.
  - split; [reflexivity | exact D3].
Qed.

Lemma add_keyword_tag_grows (t : jsstring) (entry : jsstring * jsstring)
    (tags : list jsstring) :
  exists more, fst (add_keyword_tag t entry tags) = tags ++ more
               /\ length more <= 1
               /\ (includes t (fst entry) = true ->
                   In (snd entry) (tags ++ more))
               /\ Forall (fun x => x = snd entry) more.
Proof.
  destruct entry as [kw tag]. unfold add_keyword_tag. cbn [fst snd].
  destruct (includes t kw) eqn:K; cbn [andb].
  - destruct (array_includes tags tag) eqn:I; cbn [negb fst].
    + exists []. rewrite app_nil_r. repeat split; [cbn; lia | | constructor].
      intros _. now apply array_includes_In.
    + exists [tag]. repeat split; [cbn; lia | | repeat constructor].
      intros _. apply in_or_app. right. now left.
  - exists []. rewrite app_nil_r. cbn [fst].
    repeat split; [cbn; lia | discriminate | constructor].
Qed.

Lemma keyword_loop_grows (t : jsstring) (entries : list (jsstring * jsstring)) :
  forall tags,
    exists more,
      forEach entries (add_keyword_tag t) tags = tags ++ more
      /\ length more <= length entries
      /\ Forall (fun x => In x (map snd entries)) more.
Proof.
  induction entries as [|e entries IH]; intros tags.
  - exists []. rewrite app_nil_r. repeat split; [cbn; lia | constructor].
  - rewrite forEach_cons.
    destruct (add_keyword_tag_grows t e tags) as (m1 & E1 & L1 & _ & V1).
    rewrite E1. destruct (IH (tags ++ m1)) as (m2 & E2 & L2 & V2).
    exists (m1 ++ m2). rewrite E2, app_assoc.
    split; [reflexivity |]. split; [rewrite length_app; cbn [length]; lia |].
    apply Forall_app. split.
    + eapply Forall_impl; [| exact V1]. intros x ->. now left.
    + eapply Forall_impl; [| exact V2]. intros x Hx. now right.
Qed.

(** X11: every tag is the brand or one of the eleven fixed tags: "Highly Rated",
    the two deal tags and the eight keyword tags. *)
Theorem tags_come_from_vocabulary (p : productData) :
  Forall (fun t => t = brand p \/ In t tagVocabulary) (generateTags p).
Proof.
  destruct (generateTags_split p) as (tags0 & -> & _ & _ & _ & V0 & _).
  destruct (keyword_loop_grows (toLowerCase (title p)) keywordTags tags0)
    as (more & -> & _ & V).
  assert (H : Forall (fun t => t = brand p \/ In t tagVocabulary)
                     (tags0 ++ more)).
  { apply Forall_app. split; [exact V0 |].
    eapply Forall_impl; [| exact V]. intros x Hx. right.
    unfold tagVocabulary. right. right. now right. }
  rewrite <- (firstn_skipn 8 (tags0 ++ more)) in H. now apply Forall_app in H.
Qed.

Lemma In_firstn_app {A : Type} (x : A) (n : nat) (l more : list A) :
  In x l -> length l <= n -> In x (firstn n (l ++ more)).
Proof.
  intros Hx Hl. rewrite firstn_app.
  apply in_or_app. left. now rewrite firstn_all2.
Qed.

(** X12: the cap of 8 never drops the brand, which comes first, nor
    "Highly Rated", nor a deal tag, nor the tags of the first five keywords
    of the table (wireless, bluetooth, smart, premium, professional): every
    tag that the cap cuts is the tag of one of the last three keywords
    (portable, waterproof, rechargeable). *)
Theorem cap_keeps_leading_tags (p : productData) :
  generateTags p = firstn 8 (tags_before_cap p)
  /\ (truthy (brand p) = true -> exists t, generateTags p = brand p :: t)
  /\ (forall r, rating (stars p) = Some r -> truthy r = true ->
                num_ge (parseFloat r) (of_Z 4) = true ->
                In (js "Highly Rated") (generateTags p))
  /\ (forall pct, offerPercentage (price p) = Some pct -> truthy pct = true ->
                  (num_ge (parseInt pct) (of_Z 50) = true ->
                   In (js "Great Deal") (generateTags p))
                  /\ (num_ge (parseInt pct) (of_Z 50) = false ->
                      num_ge (parseInt pct) (of_Z 20) = true ->
                      In (js "Good Deal") (generateTags p)))
  /\ (forall keyword tag,
        In (keyword, tag) (firstn 5 keywordTags) ->
        includes (toLowerCase (title p)) keyword = true ->
        In tag (generateTags p))
  /\ Forall (fun t => In t (map snd (skipn 5 keywordTags)))
            (skipn 8 (tags_before_cap p)).
Proof.
  destruct (generateTags_split p) as (tags0 & E & L0 & B0 & R0 & _ & U & D0).
  set (t := toLowerCase (title p)) in *.
  split; [now rewrite U |]. split; [| split; [| split; [| split]]].
  - intros T. destruct (B0 T) as [tl ->]. rewrite E.
    destruct (keyword_loop_grows t keywordTags (brand p :: tl))
      as (more & -> & _). cbn [app firstn]. now eexists.
  - intros r Hr T G. rewrite E.
    destruct (keyword_loop_grows t keywordTags tags0) as (more & -> & _).
    apply In_firstn_app; [now apply R0 with r | lia].
  - intros pct Hp T. destruct (D0 pct Hp T) as [D50 D20]. rewrite E.
    destruct (keyword_loop_grows t keywordTags tags0) as (more & -> & _).
    split.
    + intros G. apply In_firstn_app; [now apply D50 | lia].
    + intros G G'. apply In_firstn_app; [now apply D20 | lia].
  - intros kw tag Hin Hk. rewrite E.
    apply in_split in Hin. destruct Hin as (pre & post & Hs).
    assert (Lp : length pre <= 4).
    { apply (f_equal (@length _)) in Hs. rewrite length_app in Hs.
      cbn [length] in Hs. rewrite length_firstn in Hs. lia. }
    assert (K : keywordTags = (pre ++ [(kw, tag)]) ++ post ++ skipn 5 keywordTags).
    { rewrite <- (firstn_skipn 5 keywordTags) at 1. rewrite Hs.
      now rewrite <- !app_assoc. }
    rewrite K, forEach_app, (@forEach_app _ _ pre [(kw, tag)]), forEach_one.
    destruct (keyword_loop_grows t pre tags0) as (m1 & -> & L1 & _).
    destruct (add_keyword_tag_grows t (kw, tag) (tags0 ++ m1))
      as (m2 & -> & L2 & I2 & _).
    destruct (keyword_loop_grows t (post ++ skipn 5 keywordTags)
                                 ((tags0 ++ m1) ++ m2)) as (m3 & -> & _).
    apply In_firstn_app; [now apply I2 |].
    rewrite !length_app. lia.
  - rewrite U. rewrite <- (firstn_skipn 5 keywordTags) at 1.
    rewrite forEach_app.
    destruct (keyword_loop_grows t (firstn 5 keywordTags) tags0)
      as (m1 & -> & L1 & _).
    destruct (keyword_loop_grows t (skipn 5 keywordTags) (tags0 ++ m1))
      as (m2 & -> & _ & V2).
    rewrite skipn_app.
    assert (Z : skipn 8 (tags0 ++ m1) = []).
    { apply skipn_all2. rewrite length_app.
      rewrite length_firstn in L1. lia. }
    rewrite Z. cbn [app].
    rewrite <- (firstn_skipn (8 - length (tags0 ++ m1)) m2) in V2.
    apply Forall_app in V2. exact (proj2 V2).
Qed.

(** With a brand, a rating of 4.5, a discount of 60% and a title that holds
    all eight keywords, the cap cuts the last three keyword tags. *)
Example cap_cuts_late_keywords :
  generateTags fully_tagged
  = map js [ "Acme"; "Highly Rated"; "Great Deal"; "Wireless"; "Bluetooth";
             "Smart Device"; "Premium"; "Professional" ].
Proof. vm_compute; reflexivity. Qed.

(** ** What the route answers *)

(** X13: a product is answered only for a string [url] that includes "amazon."
    and whose page was fetched, and it is what [extract] reads from that
    page; every other answer is an error with status 400 or 500 and a
    non-empty message. *)
Theorem scrape_answers (get : json -> outcome page) (b : body) :
  match serve get b with
  | ProductJson p =>
      exists u doc,
        member (js "url") b = Some (JStr u)
        /\ includes u (js "amazon.") = true
        /\ get (JStr u) = Returned doc /\ p = extract doc u
  | ErrorJson status error =>
      (status = 400 \/ status = 500) /\ truthy error = true
  end.
Proof.
  unfold serve, post_scrape.
  destruct (member (js "url") b) as [url|]; [| split; [now left | reflexivity]].
  destruct (json_truthy url); cbn [negb];
    [| split; [now left | reflexivity]].
  assert (F : forall v,
            (forall u, v <> JStr u) ->
            match answer_scrape (scrapeProduct get v) with
            | ProductJson _ => False
            | ErrorJson status error => status = 500 /\ truthy error = true
            end).
  { intros v Hv. unfold scrapeProduct.
    destruct (get v) as [doc|message]; [| now split].
    destruct v; try (now split). now destruct (Hv s). }
  destruct url as [| bo | x | s | items | fields]; cbn [url_includes];
    try (split; [now right | reflexivity]).
  - destruct (includes s (js "amazon.")) eqn:I;
      [| split; [now left | reflexivity]].
    unfold scrapeProduct. destruct (get (JStr s)) as [doc|message] eqn:G;
      cbn [answer_scrape].
    + now exists s, doc.
    + split; [now right | reflexivity].
  - destruct (existsb _ items); [| split; [now left | reflexivity]].
    specialize (F (JArr items)).
    destruct (answer_scrape (scrapeProduct get (JArr items)));
      [| destruct F; discriminate].
    destruct F as [-> F]; [discriminate |]. split; [now right | exact F].
Qed.

(** ** About this item: the first selector that yields *)

Lemma first_hit_prefix {A B : Type} (probe probe' : A -> option B)
    (pre : list A) (x : A) (post : list A) :
  (forall y, In y (pre ++ [x]) -> probe' y = probe y) ->
  probe x <> None ->
  first_hit probe' (pre ++ x :: post) = first_hit probe (pre ++ x :: post).
Proof.
  intros Hp Hx. induction pre as [|y pre IH]; cbn [app first_hit].
  - rewrite (Hp x) by now left. destruct (probe x); [reflexivity | congruence].
  - rewrite (Hp y) by now left. destruct (probe y); [reflexivity |].
    apply IH. intros z Hz. apply Hp. now right.
Qed.

Lemma about_loop (els : list node) :
  forall i items,
    each_from i els
      (fun _ el items =>
         let text := trim (text_content el) in
         if truthy text && Nat.ltb 10 (length text)
            && negb (includes (toLowerCase text) (js "see more"))
         then (items ++ [text], true)
         else (items, true))
      items
    = items ++ map (fun el => trim (text_content el)) (filter is_about_item els).
Proof.
  induction els as [|el els IH]; intros i items;
    [cbn; now rewrite app_nil_r |].
  cbn [each_from filter]. unfold is_about_item at 1. cbv zeta.
  destruct (truthy _ && Nat.ltb 10 _ && negb (includes _ (js "see more"))).
  - rewrite IH. cbn [map]. now rewrite <- app_assoc.
  - apply IH.
Qed.

(** X14: once a selector has an element that qualifies (more than ten code
    units after trimming, no "see more"), the selectors after it are not
    read: two pages that agree up to that selector have the same
    [aboutItem]. *)
Theorem about_item_stops_at_first_yield (doc doc' : page)
    (pre post : list selector) (sel : selector) :
  aboutSelectors = pre ++ sel :: post ->
  (forall s, In s (pre ++ [sel]) -> doc' s = doc s) ->
  (exists el, In el (doc sel) /\ is_about_item el = true) ->
  extractAboutItem doc' = extractAboutItem doc.
Proof.
  intros Hs Hd (el & Hin & Hel). unfold extractAboutItem. rewrite Hs.
  rewrite first_hit_prefix with
    (probe := fun selector =>
                let items :=
                  each (doc selector)
                    (fun _ el items =>
                       let text := trim (text_content el) in
                       if truthy text && Nat.ltb 10 (length text)
                          && negb (includes (toLowerCase text) (js "see more"))
                       then (items ++ [text], true)
                       else (items, true))
                    [] in
                if Nat.ltb 0 (length items)
                then Some (join (10%N :: bullet) items)
                else None).
  - reflexivity.
  - intros y Hy. cbv beta. now rewrite (Hd y Hy).
  - cbv zeta. unfold each. rewrite about_loop. cbn [app].
    assert (F : In el (filter is_about_item (doc sel)))
      by (apply filter_In; now split).
    destruct (filter is_about_item (doc sel)); [destruct F | discriminate].
Qed.

Lemma about_item_stops_at_first_yield_witness :
  extractAboutItem page_bullets_and_description = extractAboutItem page_bullets.
Proof.
  apply (@about_item_stops_at_first_yield page_bullets
           page_bullets_and_description [] (tl aboutSelectors)
           "#feature-bullets ul li span").
  - reflexivity.
  - intros s [<- | []]. reflexivity.
  - exists (text_node "Up to 30 hours of battery life").
    split; [now left | vm_compute; reflexivity].
Defined.

(** ** Technical data: every selector is read *)

Lemma forEach_collect {A B : Type} (xs : list A)
    (fn : A -> list B -> list B * bool) (g : A -> list B) :
  (forall x s, fst (fn x s) = s ++ g x) ->
  forall s, forEach xs fn s = s ++ flat_map g xs.
Proof.
  intros H. induction xs as [|x xs IH]; intros s.
  - cbn. now rewrite app_nil_r.
  - rewrite forEach_cons, IH, H. cbn [flat_map]. now rewrite app_assoc.
Qed.

Lemma tech_loop (rows : list node) :
  forall i techData,
    each_from i rows
      (fun _ row techData =>
         let label :=
           trim (text (find row "td:first-child, th:first-child")) in
         let value :=
           trim (text (find row "td:last-child, td:nth-child(2)")) in
         if truthy label && truthy value
            && negb (str_eqb value (js "N/A"))
            && negb (str_eqb value (js "-"))
            && negb (str_eqb value empty_glyph)
         then (techData ++ [label ++ js ": " ++ value], true)
         else (techData, true))
      techData
    = techData ++ map tech_line (filter is_tech_row rows).
Proof.
  induction rows as [|row rows IH]; intros i techData;
    [cbn; now rewrite app_nil_r |].
  cbn [each_from filter]. unfold is_tech_row at 1. cbv zeta.
  destruct (truthy _ && truthy _ && negb (str_eqb _ (js "N/A"))
            && negb (str_eqb _ (js "-")) && negb (str_eqb _ empty_glyph)).
  - rewrite IH. cbn [map]. unfold tech_line at 2. now rewrite <- app_assoc.
  - apply IH.
Qed.

(** The technical data are the lines "label: value" of the rows that
    qualify under all four selectors, in the order of the selectors, joined
    by line feeds: a row that two selectors match is written twice. *)
Theorem technical_data_reads_every_selector (doc : page) :
  extractTechnicalData doc
  = join newline
      (flat_map (fun sel => map tech_line (filter is_tech_row (doc sel)))
                techSelectors).
Proof.
  unfold extractTechnicalData.
  rewrite forEach_collect
    with (g := fun sel => map tech_line (filter is_tech_row (doc sel))).
  - reflexivity.
  - intros sel s. cbv zeta. unfold each. rewrite tech_loop.
    now destruct (Nat.ltb 0 _).
Qed.

(** ** Prices are dollar amounts *)

Lemma test_re_price (p : jsstring) : test re_price p = true -> dollar_amount p.
Proof.
  unfold test, exec. destruct (search_from re_price 0 p) as [m|] eqn:E;
    [intros _ | discriminate].
  apply search_from_here in E. destruct E as (q & t & Hm & _ & pre & -> & _).
  apply match_here_state in Hm. destruct Hm as (st' & Hin & _).
  apply run_sound in Hin; [| reflexivity].
  destruct Hin as (w & [Rw _] & Lw). cbn [rest] in Rw.
  unfold re_price, price_body in Lw. cbn [seq lang] in Lw.
  destruct Lw as (u & v & -> & (c0 & -> & Hc0) & u1 & v1 & -> & L1 & _).
  apply lang_rep_class in L1. destruct L1 as (F1 & N1 & _).
  destruct u1 as [|c u1]; [cbn [length] in N1; lia |].
  cbn [forallb] in F1. apply andb_true_iff in F1. destruct F1 as [Fc _].
  apply N.eqb_eq in Hc0. subst c0.
  exists pre, c, (u1 ++ v1 ++ rest st'). split; [| exact Fc].
  rewrite Rw. change (js "$") with [N_of_ascii "$"]. cbn [app].
  now rewrite <- !app_assoc.
Qed.

Lemma current_chain_price (doc : page) :
  truthy (current_chain doc) = true -> dollar_amount (current_chain doc).
Proof.
  unfold current_chain.
  destruct (first_hit _ currentSelectors) as [p|] eqn:E; cbn [or_empty];
    [intros _ | discriminate].
  apply first_hit_some in E. destruct E as (sel & _ & E).
  destruct (truthy (first_text doc sel) && test re_price (first_text doc sel))
    eqn:T; [| discriminate E].
  injection E as <-. apply andb_true_iff in T. now apply test_re_price.
Qed.

Lemma original_chain_price (doc : page) (cur : jsstring) :
  truthy (original_chain doc cur) = true -> dollar_amount (original_chain doc cur).
Proof.
  unfold original_chain.
  destruct (first_hit _ originalSelectors) as [p|] eqn:E; cbn [or_empty];
    [intros _ | discriminate].
  apply first_hit_some in E. destruct E as (sel & _ & E).
  destruct (truthy (first_text doc sel) && test re_price (first_text doc sel))
    eqn:T; cbn [andb] in E; [| discriminate E].
  destruct (negb (str_eqb (first_text doc sel) cur)); [| discriminate E].
  injection E as <-. apply andb_true_iff in T. now apply test_re_price.
Qed.

Lemma span_price_price (doc : page) :
  truthy (span_price doc) = true -> dollar_amount (span_price doc).
Proof.
  unfold span_price.
  apply (each_invariant
           (fun s => truthy s = true -> dollar_amount s)); [| discriminate].
  intros _ el s Hs.
  destruct (negb (truthy s) && test re_price (trim (text_content el))) eqn:T;
    cbn [fst]; [| exact Hs].
  intros _. apply andb_true_iff in T. now apply test_re_price.
Qed.

Lemma found_current_price (doc : page) :
  truthy (found_current doc) = true -> dollar_amount (found_current doc).
Proof.
  unfold found_current. destruct (truthy (current_chain doc)) eqn:T; cbn [negb].
  - intros _. now apply current_chain_price.
  - apply span_price_price.
Qed.


(** ** The deal tag needs an unsigned number *)

Lemma not_positive_below (x : number) (m : positive) (e : Z) :
  not_positive x -> num_ge x (S754_finite false m e) = false.
Proof.
  unfold num_ge.
  destruct x as [s | s | | s mx ex]; cbn [not_positive SFcompare];
    try reflexivity; now intros ->.
Qed.

Lemma negative_rounds_not_positive (m : positive) (e : Z) :
  not_positive (binary_round prec emax true m e).
Proof.
  unfold binary_round.
  destruct (shl_align _ _ _) as [mz ez]. unfold binary_round_aux.
  destruct (shr_fexp prec emax (Z.pos mz) ez loc_Exact) as [mrs' e'].
  destruct (shr_fexp prec emax _ e' loc_Exact) as [mrs'' e''].
  destruct (shr_m mrs''); cbn [not_positive]; try exact I.
  now destruct (e'' <=? emax - prec)%Z.
Qed.

(** A text whose first non-blank code unit is neither a digit nor a plus
    sign parses to no positive integer. *)
Lemma parseInt_not_positive (s : jsstring) (c : char) (t : jsstring) :
  trim_start s = c :: t -> is_digit c = false -> c <> 43%N ->
  not_positive (parseInt s).
Proof.
  intros Hs Hd Hp. unfold parseInt. rewrite Hs.
  destruct (N.eqb c 45) eqn:E45.
  - apply N.eqb_eq in E45. subst c. cbn [take_sign].
    match goal with
    | |- not_positive (let (ds, _) := ?sp in _) => destruct sp as [ds r]
    end.
    destruct ds as [|d ds]; [exact I |].
    unfold of_decimal.
    match goal with
    | |- not_positive match ?n with N0 => _ | Npos _ => _ end =>
        destruct n as [|q]
    end; [exact I |].
    cbn [cond_Zopp]. rewrite Z.pow_0_r, Z.mul_1_r. cbn [Z.opp binary_normalize].
    apply negative_rounds_not_positive.
  - assert (T : take_sign (c :: t) = (false, c :: t)).
    { unfold take_sign. apply N.eqb_neq in E45.
      destruct c as [|q]; [reflexivity |].
      repeat (destruct q as [q | q |]; try reflexivity); congruence. }
    rewrite T.
    assert (H0 : N.eqb c 48 = false).
    { apply N.eqb_neq. intros ->. discriminate Hd. }
    assert (Hx : match c :: t with
                 | 48%N :: x :: _ => (N.eqb x 120 || N.eqb x 88)%bool
                 | _ => false
                 end = false).
    { apply N.eqb_neq in H0. destruct c as [|q]; [reflexivity |].
      repeat (destruct q as [q | q |]; try reflexivity); congruence. }
    rewrite Hx. cbn [span]. rewrite Hd. exact I.
Qed.

(** The tags before the keyword loop hold no deal tag when the discount
    parses to no number of at least 20. *)
Lemma tags_without_deal (p : productData) (pct : jsstring) :
  offerPercentage (price p) = Some pct ->
  not_positive (parseInt pct) ->
  Forall (fun t => t = brand p \/ t = js "Highly Rated"
                   \/ In t (map snd keywordTags))
         (generateTags p).
Proof.
  intros Hp Hn. unfold generateTags. rewrite Hp.
  assert (G50 : num_ge (parseInt pct) (of_Z 50) = false).
  { replace (of_Z 50) with (S754_finite false 7036874417766400 (-47))
      by (vm_compute; reflexivity).
    now apply not_positive_below. }
  assert (G20 : num_ge (parseInt pct) (of_Z 20) = false).
  { replace (of_Z 20) with (S754_finite false 5629499534213120 (-48))
      by (vm_compute; reflexivity).
    now apply not_positive_below. }
  rewrite G50, G20.
  set (P := fun t => t = brand p \/ t = js "Highly Rated"
                     \/ In t (map snd keywordTags)).
  set (t1 := if truthy (brand p) then [] ++ [brand p] else []).
  set (t2 := match rating (stars p) with
             | Some r =>
                 if truthy r && num_ge (parseFloat r) (of_Z 4)
                 then t1 ++ [js "Highly Rated"] else t1
             | None => t1
             end).
  assert (V1 : Forall P t1).
  { unfold t1. destruct (truthy (brand p)); cbn [app];
      [constructor; [now left | constructor] | constructor]. }
  assert (V2 : Forall P t2).
  { unfold t2. destruct (rating (stars p)) as [r|]; [| exact V1].
    destruct (truthy r && num_ge (parseFloat r) (of_Z 4)); [| exact V1].
    apply Forall_app. split; [exact V1 |].
    constructor; [right; now left | constructor]. }
  assert (E : (if truthy pct then t2 else t2) = t2) by now destruct (truthy pct).
  rewrite E.
  destruct (keyword_loop_grows (toLowerCase (title p)) keywordTags t2)
    as (more & -> & _ & V).
  assert (H : Forall P (t2 ++ more)).
  { apply Forall_app. split; [exact V2 |].
    eapply Forall_impl; [| exact V]. intros x Hx. right. now right. }
  rewrite <- (firstn_skipn 8 (t2 ++ more)) in H. now apply Forall_app in H.
Qed.

(** X17: a discount text whose first non-blank code unit is neither a digit nor
    a plus sign, such as "-25%" or "Save 25%", gives no deal tag: the tags
    hold "Great Deal" or "Good Deal" only if the brand itself reads so. *)
Theorem signed_discount_gives_no_deal_tag (p : productData)
    (pct : jsstring) (c : char) (t : jsstring) :
  offerPercentage (price p) = Some pct ->
  trim_start pct = c :: t -> is_digit c = false -> c <> 43%N ->
  brand p <> js "Great Deal" -> brand p <> js "Good Deal" ->
  ~ In (js "Great Deal") (generateTags p)
  /\ ~ In (js "Good Deal") (generateTags p).
Proof.
  intros Hp Hs Hd Hc B1 B2.
  pose proof (tags_without_deal p Hp (parseInt_not_positive pct Hs Hd Hc)) as V.
  rewrite Forall_forall in V.
  split; intros H; apply V in H; destruct H as [H | [H | H]];
    try (symmetry in H; contradiction); try discriminate H;
    cbn in H; repeat (destruct H as [H | H]; [discriminate H |]); exact H.
Qed.

Lemma signed_discount_gives_no_deal_tag_witness :
  ~ In (js "Great Deal") (generateTags badge_discount)
  /\ ~ In (js "Good Deal") (generateTags badge_discount).
Proof.
  apply (@signed_discount_gives_no_deal_tag badge_discount (js "-25%")
           45%N (js "25%")); try reflexivity; discriminate.
Defined.

(** ** Image URLs without a size token *)

Lemma includes_cons (c : char) (s p : jsstring) :
  includes (c :: s) p = starts_with p (c :: s) || includes s p.
Proof. reflexivity. Qed.

Lemma match_here_point_underscore (r : regex) (p : nat) (s : jsstring) :
  match_here (Cat (lit ".") (Cat (lit "_") r)) p s <> None ->
  starts_with (js "._") s = true.
Proof.
  destruct (match_here _ p s) as [m|] eqn:E; [intros _ | congruence].
  apply match_here_state in E. destruct E as (st' & Hin & _).
  rewrite run_Cat in Hin. apply in_flat_map in Hin.
  destruct Hin as (st1 & H1 & H2). unfold lit in H1. rewrite run_Cls in H1.
  cbn [rest pos caps] in H1. destruct s as [|c s]; [destruct H1 |].
  destruct (N.eqb (N_of_ascii ".") c) eqn:Ec; [| destruct H1].
  destruct H1 as [<- | []].
  rewrite run_Cat in H2. apply in_flat_map in H2.
  destruct H2 as (st2 & H2 & _). unfold lit in H2. rewrite run_Cls in H2.
  cbn [rest pos caps] in H2. destruct s as [|c' s]; [destruct H2 |].
  destruct (N.eqb (N_of_ascii "_") c') eqn:Ec'; [| destruct H2].
  change (js "._") with [N_of_ascii "."; N_of_ascii "_"].
  cbn [starts_with]. now rewrite Ec, Ec'.
Qed.

Lemma search_point_underscore (r : regex) (s : jsstring) :
  includes s (js "._") = false ->
  forall p, search_from (Cat (lit ".") (Cat (lit "_") r)) p s = None.
Proof.
  induction s as [|c s IH]; intros H p; cbn [search_from].
  - destruct (match_here _ p []) eqn:E; [| reflexivity].
    assert (K : match_here (Cat (lit ".") (Cat (lit "_") r)) p [] <> None)
      by congruence.
    apply match_here_point_underscore in K. discriminate K.
  - rewrite includes_cons in H. apply orb_false_iff in H. destruct H as [H1 H2].
    destruct (match_here _ p (c :: s)) eqn:E; [| now apply IH].
    assert (K : match_here (Cat (lit ".") (Cat (lit "_") r)) p (c :: s) <> None)
      by congruence.
    apply match_here_point_underscore in K. congruence.
Qed.

(** X18: a source URL without the two characters "._" is taken as it is: only a
    size token is rewritten. *)
Theorem url_without_token_is_kept (src : jsstring) :
  includes src (js "._") = false -> high_res src = src.
Proof.
  intros H. unfold high_res, replace, exec, re_size_token, re_any_token.
  cbn [seq]. rewrite (search_point_underscore _ _ H).
  now rewrite (search_point_underscore _ _ H).
Qed.

Lemma url_without_token_is_kept_witness :
  high_res (js "https://m.media-amazon.com/images/I/71abc.jpg")
  = js "https://m.media-amazon.com/images/I/71abc.jpg".
Proof.
  apply (url_without_token_is_kept
           (js "https://m.media-amazon.com/images/I/71abc.jpg")).
  reflexivity.
Defined.

(** ** The user agent is one of the list *)

Section RandomUserAgent.

Local Open Scope Z_scope.

(** The number of binary digits of a mantissa bounds it on both sides. *)
Lemma digits2_pos_bounds (m : positive) :
  2 ^ (Zpos (digits2_pos m) - 1) <= Zpos m < 2 ^ Zpos (digits2_pos m).
Proof.
  induction m as [m IH | m IH |]; cbn [digits2_pos].
  - rewrite Pos2Z.inj_succ, Z.pow_succ_r by lia.
    replace (Z.succ (Zpos (digits2_pos m)) - 1) with
      (Z.succ (Zpos (digits2_pos m) - 1)) by lia.
    rewrite Z.pow_succ_r by lia. lia.
  - rewrite Pos2Z.inj_succ, Z.pow_succ_r by lia.
    replace (Z.succ (Zpos (digits2_pos m)) - 1) with
      (Z.succ (Zpos (digits2_pos m) - 1)) by lia.
    rewrite Z.pow_succ_r by lia. lia.
  - cbn. lia.
Qed.

(** Rounding a mantissa that already fits: nothing is shifted out. *)
Lemma round_fitting (m : positive) (e : Z) :
  fexp prec emax (Zpos (digits2_pos m) + e) = e -> e <= emax - prec ->
  binary_round_aux prec emax false (Zpos m) e loc_Exact
  = S754_finite false m e.
Proof.
  intros F B. unfold binary_round_aux, shr_fexp.
  cbn [Zdigits2]. rewrite F, Z.sub_diag. cbn [shr shr_record_of_loc].
  cbn [loc_of_shr_record round_nearest_even shr_m shr_r shr_s].
  cbn [Zdigits2]. rewrite F, Z.sub_diag. cbn [shr shr_m].
  apply Z.leb_le in B. now rewrite B.
Qed.

(** Rounding after [k] low zero bits are shifted out. *)
Lemma round_shifted (k : positive) (m m' : positive) (e : Z) :
  iter_pos shr_1 k (shr_record_of_loc (Zpos m) loc_Exact)
  = {| shr_m := Zpos m'; shr_r := false; shr_s := false |} ->
  fexp prec emax (Zpos (digits2_pos m) + e) = e + Zpos k ->
  fexp prec emax (Zpos (digits2_pos m') + (e + Zpos k)) = e + Zpos k ->
  e + Zpos k <= emax - prec ->
  binary_round_aux prec emax false (Zpos m) e loc_Exact
  = S754_finite false m' (e + Zpos k).
Proof.
  intros I F F' B. unfold binary_round_aux, shr_fexp.
  cbn [Zdigits2]. rewrite F.
  replace (e + Zpos k - e) with (Zpos k) by lia.
  cbn [shr]. rewrite I.
  cbn [loc_of_shr_record round_nearest_even shr_m shr_r shr_s].
  cbn [Zdigits2]. rewrite F', Z.sub_diag. cbn [shr shr_m].
  apply Z.leb_le in B. now rewrite B.
Qed.

(** A random number times the four of the list: the product is exact, and less
    than four. *)
Lemma random_times_four (m : positive) (e : Z) :
  bounded prec emax m e = true -> e <= -53 ->
  exists m' q,
    num_mul (S754_finite false m e) (S754_finite false 4503599627370496 (-50))
    = S754_finite false m' (Zneg q)
    /\ Zpos m' < 4 * 2 ^ Zpos q.
Proof.
  intros V L. unfold bounded, canonical_mantissa in V.
  apply andb_prop in V as [F B]. apply Z.eqb_eq in F. apply Z.leb_le in B.
  pose proof (digits2_pos_bounds m) as [_ U].
  unfold num_mul, SFmul. cbn [xorb]. rewrite Pos.mul_comm. cbn [Pos.mul].
  unfold fexp, SpecFloat.emin, prec, emax in F, B.
  assert (P51 : 2 ^ 51 = 2251799813685248) by reflexivity.
  destruct (Z.eq_dec (Zpos (digits2_pos m)) 53) as [D | D].
  - (* a normal number *)
    erewrite (@round_shifted 52 _ m);
      [| vm_compute; reflexivity
       | cbn [digits2_pos]; unfold fexp, SpecFloat.emin, prec, emax; lia
       | unfold fexp, SpecFloat.emin, prec, emax; lia
       | unfold prec, emax; lia ].
    destruct (e + -50 + 52) as [| p | q] eqn:E; try lia.
    exists m, q. split; [reflexivity |].
    rewrite D in U.
    assert (2 ^ 51 <= 2 ^ Zpos q) by (apply Z.pow_le_mono_r; lia).
    change (2 ^ 53) with 9007199254740992 in U. lia.
  - assert (E : e = -1074) by lia. subst e.
    assert (2 ^ Zpos (digits2_pos m) <= 2 ^ 52)
      by (apply Z.pow_le_mono_r; lia).
    change (2 ^ 52) with 4503599627370496 in *.
    destruct (Z.eq_dec (Zpos (digits2_pos m)) 52) as [D' | D'].
    + (* the largest subnormal numbers *)
      erewrite (@round_shifted 51 _ (xO m));
        [| vm_compute; reflexivity
         | cbn [digits2_pos]; unfold fexp, SpecFloat.emin, prec, emax; lia
         | cbn [digits2_pos]; unfold fexp, SpecFloat.emin, prec, emax; lia
         | unfold prec, emax; lia ].
      exists (xO m), 1073%positive. split; [reflexivity |].
      assert (2 ^ 51 <= 2 ^ 1073) by (apply Z.pow_le_mono_r; lia).
      lia.
    + erewrite (@round_shifted 50 _ (xO (xO m)));
        [| vm_compute; reflexivity
         | cbn [digits2_pos]; unfold fexp, SpecFloat.emin, prec, emax; lia
         | cbn [digits2_pos]; unfold fexp, SpecFloat.emin, prec, emax; lia
         | unfold prec, emax; lia ].
      exists (xO (xO m)), 1074%positive. split; [reflexivity |].
      assert (2 ^ 51 <= 2 ^ 1074) by (apply Z.pow_le_mono_r; lia).
      lia.
Qed.

(** A random number is a zero or a positive number with exponent at most
    -53. *)
Lemma is_random_inv (r : number) :
  is_random r = true ->
  (exists s, r = S754_zero s)
  \/ exists m e, r = S754_finite false m e
       /\ bounded prec emax m e = true /\ e <= -53.
Proof.
  unfold is_random. intros H.
  apply andb_prop in H as [H G]. apply andb_prop in H as [V P].
  destruct r as [s | s | | s m e].
  - left. now exists s.
  - destruct s; [discriminate P | discriminate G].
  - discriminate P.
  - destruct s; [discriminate P |].
    right. exists m, e. split; [reflexivity |]. split; [exact V |].
    cbn [valid_binary] in V. unfold bounded, canonical_mantissa in V.
    apply andb_prop in V as [F _]. apply Z.eqb_eq in F.
    unfold fexp, SpecFloat.emin, prec, emax in F.
    pose proof (digits2_pos_bounds m) as [Lo _].
    unfold num_gt in G.
    change (of_Z 1) with (S754_finite false 4503599627370496 (-52)) in G.
    cbn [SFcompare] in G.
    destruct (Z.compare_spec (-52) e) as [E | E | E];
      [| discriminate G | lia].
    subst e.
    change (Pos.compare_cont Eq 4503599627370496 m)
      with (Pos.compare 4503599627370496 m) in G.
    rewrite Pos2Z.inj_compare in G.
    destruct (Z.compare_spec 4503599627370496 (Zpos m)) as [E | E | E];
      try discriminate G.
    assert (D : Zpos (digits2_pos m) = 53) by (clear - F; lia).
    rewrite D in Lo. change (2 ^ (53 - 1)) with 4503599627370496 in Lo.
    lia.
Qed.

(** X15: [getRandomUserAgent] always returns one of the four user agents of
    the list, never [undefined]: for every number that [Math.random()] can
    return, the product with the length of the list, rounded down, is an
    index of the list. *)
Theorem user_agent_is_listed (random : number) :
  is_random random = true ->
  exists agent,
    getRandomUserAgent random = Some agent /\ In agent userAgents.
Proof.
  intros H. unfold getRandomUserAgent.
  change (of_Z (Z.of_nat (length userAgents)))
    with (S754_finite false 4503599627370496 (-50)).
  apply is_random_inv in H as [[s ->] | (m & e & -> & V & L)].
  - exists (nth 0 userAgents []). split; [now destruct s | now left].
  - destruct (random_times_four m V L) as (m' & q & -> & U).
    cbn [math_floor cond_Zopp].
    assert (P : 0 < 2 ^ Zpos q) by (apply Z.pow_pos_nonneg; lia).
    assert (N0 : 0 <= Zpos m' / 2 ^ Zpos q) by (apply Z.div_pos; lia).
    assert (N4 : Zpos m' / 2 ^ Zpos q < 4)
      by (apply Z.div_lt_upper_bound; lia).
    assert (C : Zpos m' / 2 ^ Zpos q = 0 \/ Zpos m' / 2 ^ Zpos q = 1
                \/ Zpos m' / 2 ^ Zpos q = 2 \/ Zpos m' / 2 ^ Zpos q = 3)
      by lia.
    destruct C as [-> | [-> | [-> | ->]]].
    + exists (nth 0 userAgents []). split; [reflexivity | now left].
    + exists (nth 1 userAgents []). split; [reflexivity |].
      right. now left.
    + exists (nth 2 userAgents []). split; [reflexivity |].
      right. right. now left.
    + exists (nth 3 userAgents []). split; [reflexivity |].
      right. right. right. now left.
Qed.

Lemma user_agent_is_listed_witness :
  is_random (parseFloat (js "0.7")) = true
  /\ exists agent,
       getRandomUserAgent (parseFloat (js "0.7")) = Some agent
       /\ In agent userAgents.
Proof.
  split; [vm_compute; reflexivity |].
  apply (@user_agent_is_listed (parseFloat (js "0.7"))).
  vm_compute; reflexivity.
Defined.

End RandomUserAgent.

(* ================================================================= *)
(** * Properties of the image downloader *)
(* ================================================================= *)

(** ** Global replacement as a scan *)

Lemma span_cons (q : char -> bool) (c : char) (s : jsstring) :
  span q (c :: s)
  = if q c then (c :: fst (span q s), snd (span q s)) else ([], c :: s).
Proof. cbn [span]. destruct (q c); [| reflexivity]. now destruct (span q s). Qed.

Lemma span_app (q : char -> bool) (s : jsstring) :
  s = fst (span q s) ++ snd (span q s).
Proof.
  induction s as [|c s IH]; [reflexivity |].
  rewrite span_cons. destruct (q c); cbn [fst snd app]; [| reflexivity].
  now rewrite <- IH.
Qed.

Lemma span_rest_length (q : char -> bool) (s : jsstring) :
  length (snd (span q s)) <= length s.
Proof.
  rewrite (span_app q s) at 2. rewrite length_app. lia.
Qed.

Lemma repeat_run_munch (q : char -> bool) (fuel : nat) :
  forall lo st, length (rest st) < fuel ->
  repeat_run (run (Cls q)) true fuel lo None st
  = munch q lo (pos st) (rest st) (caps st).
Proof.
  induction fuel as [|fuel IH]; intros lo [p s cs] Hf; [cbn in Hf; lia |].
  cbn [rest pos caps] in *. cbn [repeat_run hi_done option_map].
  rewrite run_Cls. cbn [rest pos caps].
  destruct s as [|c s].
  - cbn [flat_map munch app]. now destruct lo.
  - cbn [munch]. destruct (q c); cbn [flat_map rest length].
    + assert (E : Nat.eqb (length s) (S (length s)) = false)
        by (apply Nat.eqb_neq; lia).
      rewrite E, andb_false_r, app_nil_r.
      rewrite IH by (cbn [rest length] in *; lia). cbn [pos rest caps].
      destruct lo; cbn [Nat.eqb]; [reflexivity | now rewrite app_nil_r].
    + now destruct lo.
Qed.

Lemma munch_head (q : char -> bool) (s : jsstring) :
  forall lo p cs,
    (lo <= length (fst (span q s)) ->
     exists tl, munch q lo p s cs
                = RState (p + length (fst (span q s))) (snd (span q s)) cs :: tl)
    /\ (length (fst (span q s)) < lo -> munch q lo p s cs = []).
Proof.
  induction s as [|c s IH]; intros lo p cs.
  - cbn [span fst snd length munch]. split.
    + intros H. assert (lo = 0) by lia. subst lo. cbn [Nat.eqb].
      exists []. now rewrite Nat.add_0_r.
    + intros H. destruct lo; [lia | reflexivity].
  - rewrite span_cons. cbn [munch]. destruct (q c); cbn [fst snd length].
    + destruct (IH (Nat.pred lo) (S p) cs) as [IH1 IH2]. split.
      * intros H. destruct IH1 as [tl Htl]; [lia |].
        rewrite Htl. cbn [app]. eexists.
        now replace (p + S (length (fst (span q s))))
          with (S p + length (fst (span q s))) by lia.
      * intros H. rewrite IH2 by lia. destruct lo; [lia | reflexivity].
    + split.
      * intros H. assert (lo = 0) by lia. subst lo. cbn [Nat.eqb app].
        exists []. now rewrite Nat.add_0_r.
      * intros H. destruct lo; [lia | reflexivity].
Qed.

(** A greedy [q+] at a start index takes the longest run of the class, and
    fails when there is none. *)
Lemma match_here_plus_class (q : char -> bool) (p : nat) (s : jsstring) :
  match_here (plus (Cls q)) p s
  = match fst (span q s) with
    | [] => None
    | a => Some (RMatch p a (snd (span q s)) [])
    end.
Proof.
  unfold match_here, plus. rewrite run_Rep.
  rewrite repeat_run_munch by (cbn [rest]; lia). cbn [pos rest caps].
  destruct (munch_head q s 1 p []) as [H1 H2].
  destruct (fst (span q s)) as [|c a] eqn:E.
  - now rewrite H2 by (cbn [length]; lia).
  - destruct H1 as [tl Htl]; [cbn [length]; lia |]. rewrite Htl.
    cbn [pos rest caps]. f_equal. f_equal.
    replace (p + length (c :: a) - p) with (length (c :: a)) by lia.
    rewrite (span_app q s) at 1. rewrite E.
    rewrite firstn_app, Nat.sub_diag, firstn_all. cbn [firstn]. apply app_nil_r.
Qed.

Lemma squeeze_inside (q : char -> bool) (by_ s : jsstring) :
  squeeze q by_ true s = squeeze q by_ false (snd (span q s)).
Proof.
  induction s as [|c s IH]; [reflexivity |].
  rewrite span_cons. cbn [squeeze]. destruct (q c) eqn:E; cbn [snd app].
  - exact IH.
  - cbn [squeeze]. now rewrite E.
Qed.

(** [s.replace(/[class]/g, by)] rewrites the code units of the class one by
    one; [s.replace(/[class]+/g, by)] rewrites each maximal run. *)
Lemma replace_all_class (q : char -> bool) (by_ s : jsstring) :
  replace_all (Cls q) by_ s = flat_map (fun c => if q c then by_ else [c]) s.
Proof.
  unfold replace_all.
  assert (G : forall fuel p t, length t < fuel ->
            replace_all_from (Cls q) by_ fuel p t
            = flat_map (fun c => if q c then by_ else [c]) t).
  { induction fuel as [|fuel IH]; intros p t Hlen; [lia |].
    destruct t as [|c t]; [reflexivity |].
    cbn [replace_all_from flat_map]. cbn [length] in Hlen.
    rewrite match_here_class. destruct (q c).
    - cbn [m_text length Nat.eqb m_after]. f_equal. apply IH. lia.
    - cbn [app]. f_equal. apply IH. lia. }
  apply G. lia.
Qed.

Lemma replace_all_plus_class (q : char -> bool) (by_ s : jsstring) :
  replace_all (plus (Cls q)) by_ s = squeeze q by_ false s.
Proof.
  unfold replace_all.
  assert (G : forall fuel p t, length t < fuel ->
            replace_all_from (plus (Cls q)) by_ fuel p t
            = squeeze q by_ false t).
  { induction fuel as [|fuel IH]; intros p t Hlen; [lia |].
    destruct t as [|c t]; [reflexivity |].
    cbn [replace_all_from]. rewrite match_here_plus_class, span_cons.
    cbn [length] in Hlen. cbn [squeeze].
    destruct (q c); cbn [fst snd].
    - cbn [m_text length Nat.eqb m_after].
      rewrite IH by (pose proof (span_rest_length q t); lia).
      now rewrite squeeze_inside.
    - f_equal. apply IH. lia. }
  apply G. lia.
Qed.

Lemma match_alt_edge_nil (p : nat) : match_alt re_edge_underscore p [] = None.
Proof.
  unfold re_edge_underscore, match_alt, match_here. cbn [seq].
  rewrite !run_Cat. unfold lit. rewrite run_Cls. cbn [rest flat_map].
  destruct (run Bol (RState p [] [])) as [|st l] eqn:E; [reflexivity |].
  cbn [run] in E. destruct (Nat.eqb (pos (RState p [] [])) 0);
    [| discriminate E].
  injection E as <- <-. cbn [flat_map]. rewrite run_Cls. reflexivity.
Qed.

Lemma match_alt_edge_first (c : char) (t : jsstring) :
  match_alt re_edge_underscore 0 (c :: t)
  = if is_underscore c
    then Some (RMatch 0 [c] t [])
    else None.
Proof.
  unfold re_edge_underscore, match_alt, match_here, is_underscore. cbn [seq].
  rewrite !run_Cat. unfold lit. cbn [run pos rest caps Nat.eqb flat_map].
  destruct (N.eqb (N_of_ascii "_") c); reflexivity.
Qed.

Lemma match_alt_edge_later (p : nat) (c : char) (t : jsstring) :
  match_alt re_edge_underscore (S p) (c :: t)
  = if is_underscore c
    then match t with
         | [] => Some (RMatch (S p) [c] [] [])
         | _ => None
         end
    else None.
Proof.
  unfold re_edge_underscore, match_alt, match_here, is_underscore. cbn [seq].
  rewrite !run_Cat. unfold lit. cbn [run pos rest caps Nat.eqb flat_map].
  destruct (N.eqb (N_of_ascii "_") c); [| reflexivity].
  cbn [flat_map app run rest pos caps]. destruct t; [| reflexivity].
  cbn [app pos rest caps]. now replace (S (S p) - S p) with 1 by lia.
Qed.

Lemma replace_alts_from_S (rs : list regex) (by_ : jsstring) (fuel p : nat)
    (s : jsstring) :
  replace_alts_from rs by_ (S fuel) p s
  = match match_alt rs p s, s with
    | Some m, c :: s' =>
        if Nat.eqb (length (m_text m)) 0
        then by_ ++ c :: replace_alts_from rs by_ fuel (S p) s'
        else by_ ++ replace_alts_from rs by_ fuel
                      (p + length (m_text m)) (m_after m)
    | Some m, [] => by_
    | None, c :: s' => c :: replace_alts_from rs by_ fuel (S p) s'
    | None, [] => []
    end.
Proof. reflexivity. Qed.

Lemma replace_edge_later (fuel : nat) :
  forall p t, length t < fuel ->
  replace_alts_from re_edge_underscore [] fuel (S p) t = drop_last_underscore t.
Proof.
  induction fuel as [|fuel IH]; intros p t Hlen; [lia |].
  rewrite replace_alts_from_S. destruct t as [|c t].
  - now rewrite match_alt_edge_nil.
  - rewrite match_alt_edge_later. cbn [length] in Hlen.
    cbn [drop_last_underscore]. destruct (is_underscore c).
    + destruct t as [|c' t].
      * cbn [m_text length Nat.eqb m_after app].
        destruct fuel; [lia |]. rewrite replace_alts_from_S.
        now rewrite match_alt_edge_nil.
      * f_equal. apply IH. cbn [length] in *. lia.
    + destruct t as [|c' t].
      * f_equal. rewrite IH by (cbn [length] in *; lia). reflexivity.
      * f_equal. apply IH. cbn [length] in *. lia.
Qed.

(** [s.replace(/^_|_$/g, '')] drops an underscore at the start and one at
    the end. *)
Lemma replace_edge_underscore (s : jsstring) :
  replace_alts re_edge_underscore [] s
  = drop_last_underscore (drop_first_underscore s).
Proof.
  unfold replace_alts. rewrite replace_alts_from_S. destruct s as [|c s].
  - now rewrite match_alt_edge_nil.
  - cbn [drop_first_underscore].
    rewrite match_alt_edge_first. destruct (is_underscore c) eqn:E.
    + cbn [m_text length Nat.eqb m_after app Nat.add].
      apply replace_edge_later. lia.
    + rewrite replace_edge_later by (cbn [length]; lia).
      cbn [drop_last_underscore]. destruct s; [now rewrite E | reflexivity].
Qed.

(** [sanitizeFileName], step by step. *)
Lemma sanitizeFileName_scan (s : jsstring) :
  sanitizeFileName s
  = firstn 100
      (drop_last_underscore
         (drop_first_underscore
            (squeeze is_underscore (js "_") false
               (squeeze is_space (js "_") false
                  (flat_map (fun c => if is_invalid_char c then js "_" else [c])
                            s))))).
Proof.
  unfold sanitizeFileName, substring, re_invalid, re_spaces, re_underscores,
    space, lit.
  now rewrite replace_edge_underscore, !replace_all_plus_class,
    replace_all_class.
Qed.

(** ** The folder name of a download *)

Lemma squeeze_Forall (P : char -> Prop) (q : char -> bool) (by_ : jsstring) :
  Forall P by_ ->
  forall s inside,
    (forall c, In c s -> q c = false -> P c) ->
    Forall P (squeeze q by_ inside s).
Proof.
  intros Hby. induction s as [|c s IH]; intros inside Hs; cbn [squeeze].
  - constructor.
  - assert (Hs' : forall c0, In c0 s -> q c0 = false -> P c0)
      by (intros c0 Hin; apply Hs; now right).
    destruct (q c) eqn:E.
    + apply Forall_app. split; [destruct inside; [constructor | exact Hby] |].
      now apply IH.
    + constructor; [apply Hs; [now left | exact E] | now apply IH].
Qed.

Lemma squeeze_none (q : char -> bool) (by_ s : jsstring) (inside : bool) :
  forallb (fun c => negb (q c)) s = true -> squeeze q by_ inside s = s.
Proof.
  revert inside. induction s as [|c s IH]; intros inside; cbn [forallb squeeze];
    [reflexivity |].
  rewrite andb_true_iff, negb_true_iff. intros [-> H]. now rewrite IH.
Qed.

Lemma squeeze_all (q : char -> bool) (by_ s : jsstring) :
  forallb q s = true ->
  squeeze q by_ true s = []
  /\ squeeze q by_ false s = match s with [] => [] | _ => by_ end.
Proof.
  induction s as [|c s IH]; cbn [forallb squeeze]; [now split |].
  rewrite andb_true_iff. intros [-> H]. destruct (IH H) as [IH1 _].
  rewrite IH1. cbn [app]. split; [reflexivity | apply app_nil_r].
Qed.

Lemma drop_first_suffix (s : jsstring) :
  exists pre, s = pre ++ drop_first_underscore s.
Proof.
  destruct s as [|c s]; [now exists [] |]. cbn [drop_first_underscore].
  destruct (is_underscore c); [now exists [c] | now exists []].
Qed.

Lemma drop_last_snoc (s : jsstring) (c : char) :
  drop_last_underscore (s ++ [c]) = if is_underscore c then s else s ++ [c].
Proof.
  induction s as [|a s IH]; [cbn; now destruct (is_underscore c) |].
  cbn [app drop_last_underscore]. rewrite IH.
  destruct (s ++ [c]) eqn:E; [now destruct s |].
  rewrite <- E. now destruct (is_underscore c).
Qed.

Lemma drop_last_prefix (s : jsstring) :
  exists post, s = drop_last_underscore s ++ post.
Proof.
  destruct s as [|c s] using rev_ind; [now exists [] |].
  rewrite drop_last_snoc.
  destruct (is_underscore c); [now exists [c] | exists []; now rewrite app_nil_r].
Qed.

Lemma drop_last_none (s : jsstring) :
  forallb (fun c => negb (is_underscore c)) s = true ->
  drop_last_underscore s = s.
Proof.
  destruct s as [|c s] using rev_ind; [reflexivity |].
  rewrite forallb_app, drop_last_snoc. cbn [forallb].
  rewrite !andb_true_iff, negb_true_iff. now intros [_ [-> _]].
Qed.

Lemma starts_with_app (p s t : jsstring) :
  starts_with p s = true -> starts_with p (s ++ t) = true.
Proof.
  revert s. induction p as [|x p IH]; intros [|y s]; cbn [starts_with app];
    try reflexivity; try discriminate.
  rewrite !andb_true_iff. intros [H1 H2]. split; [exact H1 | now apply IH].
Qed.

Lemma includes_app_l (s t p : jsstring) :
  includes (s ++ t) p = false -> includes s p = false.
Proof.
  induction s as [|c s IH].
  - destruct p; [cbn; destruct t; discriminate | reflexivity].
  - cbn [app]. rewrite !includes_cons, !orb_false_iff. intros [H1 H2]. split.
    + destruct (starts_with p (c :: s)) eqn:E; [| reflexivity].
      apply (starts_with_app _ _ t) in E. cbn [app] in E. congruence.
    + now apply IH.
Qed.

Lemma includes_app_r (s t p : jsstring) :
  includes (s ++ t) p = false -> includes t p = false.
Proof.
  induction s as [|c s IH]; [trivial |].
  cbn [app]. rewrite includes_cons, orb_false_iff. intros [_ H]. now apply IH.
Qed.

Lemma squeeze_underscores (s : jsstring) :
  forall inside,
    includes (squeeze is_underscore (js "_") inside s) (js "__") = false
    /\ (inside = true ->
        starts_with (js "_") (squeeze is_underscore (js "_") true s) = false).
Proof.
  change (js "__") with [95%N; 95%N]. change (js "_") with [95%N].
  induction s as [|c s IH]; intros inside; cbn [squeeze]; [now split |].
  destruct (is_underscore c) eqn:E.
  - destruct inside; cbn [app].
    + apply (IH true).
    + split; [| discriminate].
      destruct (IH true) as [I1 I2]. specialize (I2 eq_refl).
      rewrite includes_cons, I1, orb_false_r.
      cbn [starts_with]. change (N.eqb 95 95) with true. cbn [andb].
      exact I2.
  - unfold is_underscore in E. change (N_of_ascii "_") with 95%N in E.
    split.
    + rewrite includes_cons. cbn [starts_with]. rewrite E. cbn [andb orb].
      apply (IH false).
    + intros _. cbn [starts_with]. now rewrite E.
Qed.

Lemma ends_with_snoc (s : jsstring) (c : char) :
  ends_with (js "_") (s ++ [c]) = is_underscore c.
Proof.
  unfold ends_with, is_underscore. rewrite rev_app_distr.
  change (rev (js "_")) with [N_of_ascii "_"]. cbn [rev app starts_with].
  apply andb_true_r.
Qed.

Lemma double_at_end (s : jsstring) (c : char) :
  ends_with (js "_") s = true -> is_underscore c = true ->
  includes (s ++ [c]) (js "__") = true.
Proof.
  intros Hs Hc. destruct s as [|a s] using rev_ind; [discriminate Hs |].
  rewrite ends_with_snoc in Hs. clear IHs.
  unfold is_underscore in Hs, Hc. change (N_of_ascii "_") with 95%N in Hs, Hc.
  apply N.eqb_eq in Hs, Hc. subst a c.
  induction s as [|b s IH]; [reflexivity |].
  cbn [app]. rewrite includes_cons. cbn [app] in IH. rewrite IH.
  apply orb_true_r.
Qed.

Lemma drop_last_no_trailing (s : jsstring) :
  includes s (js "__") = false ->
  ends_with (js "_") (drop_last_underscore s) = false.
Proof.
  destruct s as [|c s] using rev_ind; [reflexivity |]. clear IHs.
  intros H. rewrite drop_last_snoc. destruct (is_underscore c) eqn:E.
  - destruct (ends_with (js "_") s) eqn:F; [| reflexivity].
    rewrite (double_at_end s c F E) in H. discriminate H.
  - now rewrite ends_with_snoc.
Qed.

(** X19: the sanitized name holds none of the nine invalid characters and no
    white space: in particular no slash and no backslash. *)
Theorem sanitized_name_has_no_separator (fileName : jsstring) :
  forallb (fun c => negb (is_invalid_char c) && negb (is_space c))
          (sanitizeFileName fileName) = true.
Proof.
  rewrite sanitizeFileName_scan. apply forallb_forall.
  apply Forall_forall.
  set (ok := fun c : N => negb (is_invalid_char c) && negb (is_space c) = true).
  set (s1 := flat_map (fun c => if is_invalid_char c then js "_" else [c])
                      fileName).
  assert (H1 : Forall (fun c => is_invalid_char c = false) s1).
  { unfold s1. induction fileName as [|c s IH]; [constructor |].
    cbn [flat_map]. apply Forall_app. split; [| exact IH].
    destruct (is_invalid_char c) eqn:E; repeat constructor. exact E. }
  assert (Hby : Forall ok (js "_")) by (repeat constructor).
  assert (H2 : Forall ok (squeeze is_space (js "_") false s1)).
  { apply squeeze_Forall; [exact Hby |]. intros c Hin Hc. unfold ok.
    rewrite Forall_forall in H1. now rewrite (H1 c Hin), Hc. }
  assert (H3 : Forall ok (squeeze is_underscore (js "_") false
                            (squeeze is_space (js "_") false s1))).
  { apply squeeze_Forall; [exact Hby |]. intros c Hin _.
    rewrite Forall_forall in H2. now apply H2. }
  set (s3 := squeeze is_underscore _ _ _) in *.
  destruct (drop_first_suffix s3) as [pre Hpre].
  destruct (drop_last_prefix (drop_first_underscore s3)) as [post Hpost].
  rewrite Hpre, Hpost in H3.
  apply Forall_app in H3. destruct H3 as [_ H3].
  apply Forall_app in H3. destruct H3 as [H3 _].
  rewrite <- (firstn_skipn 100) in H3. apply Forall_app in H3. apply H3.
Qed.

(** X20: the sanitized name has at most 100 code units, no two underscores in a
    row and no underscore at its start; it has none at its end either unless
    it was cut at 100 code units: the underscores are dropped before the
    name is cut. *)
Theorem sanitized_name_shape (fileName : jsstring) :
  length (sanitizeFileName fileName) <= 100
  /\ includes (sanitizeFileName fileName) (js "__") = false
  /\ starts_with (js "_") (sanitizeFileName fileName) = false
  /\ (length (sanitizeFileName fileName) < 100 ->
      ends_with (js "_") (sanitizeFileName fileName) = false).
Proof.
  rewrite sanitizeFileName_scan.
  set (s2 := squeeze is_space _ _ _).
  set (s3 := squeeze is_underscore (js "_") false s2).
  destruct (squeeze_underscores s2 false) as [D _]. fold s3 in D.
  destruct (drop_first_suffix s3) as [pre Hpre].
  set (x := drop_first_underscore s3) in *.
  assert (Dx : includes x (js "__") = false)
    by (rewrite Hpre in D; now apply includes_app_r in D).
  assert (Sx : starts_with (js "_") x = false).
  { unfold x. destruct s3 as [|c t]; [reflexivity |].
    cbn [drop_first_underscore]. destruct (is_underscore c) eqn:E.
    - change (js "__") with [95%N; 95%N] in D. rewrite includes_cons in D.
      apply orb_false_iff in D. destruct D as [D _].
      cbn [starts_with] in D. unfold is_underscore in E.
      change (N_of_ascii "_") with 95%N in E. now rewrite E in D.
    - change (js "_") with [95%N]. cbn [starts_with].
      unfold is_underscore in E. change (N_of_ascii "_") with 95%N in E.
      now rewrite E. }
  destruct (drop_last_prefix x) as [post Hpost].
  set (y := drop_last_underscore x) in *.
  assert (Dy : includes y (js "__") = false)
    by (rewrite Hpost in Dx; now apply includes_app_l in Dx).
  assert (Sy : starts_with (js "_") y = false).
  { destruct (starts_with (js "_") y) eqn:E; [| reflexivity].
    apply (starts_with_app _ _ post) in E. rewrite <- Hpost in E. congruence. }
  split; [apply firstn_le_length |]. split; [| split].
  - rewrite <- (firstn_skipn 100 y) in Dy. now apply includes_app_l in Dy.
  - destruct (starts_with (js "_") (firstn 100 y)) eqn:E; [| reflexivity].
    apply (starts_with_app _ _ (skipn 100 y)) in E.
    rewrite firstn_skipn in E. congruence.
  - intros L. rewrite length_firstn in L.
    rewrite firstn_all2 by lia. now apply drop_last_no_trailing.
Qed.

(** X21: a name of at most 100 code units without invalid characters, white
    space and underscores is left as it is; so are the names "." and "..". *)
Theorem clean_name_unchanged (fileName : jsstring) :
  forallb is_clean_char fileName = true -> length fileName <= 100 ->
  sanitizeFileName fileName = fileName.
Proof.
  intros Hc Hl. rewrite sanitizeFileName_scan.
  assert (A : forall (q : char -> bool),
            (forall c, is_clean_char c = true -> q c = false) ->
            forallb (fun c => negb (q c)) fileName = true).
  { intros q Hq. apply forallb_forall. intros c Hin.
    rewrite forallb_forall in Hc. now rewrite (Hq c (Hc c Hin)). }
  assert (E1 : flat_map (fun c => if is_invalid_char c then js "_" else [c])
                        fileName = fileName).
  { assert (F : forallb (fun c => negb (is_invalid_char c)) fileName = true).
    { apply A. unfold is_clean_char. intros c.
      rewrite !andb_true_iff, !negb_true_iff. tauto. }
    clear -F. induction fileName as [|c s IH]; [reflexivity |].
    cbn [forallb flat_map] in *. apply andb_true_iff in F. destruct F as [F1 F2].
    apply negb_true_iff in F1. rewrite F1. cbn [app]. now rewrite IH. }
  rewrite E1.
  rewrite (@squeeze_none is_space)
    by (apply A; unfold is_clean_char; intros c;
        rewrite !andb_true_iff, !negb_true_iff; tauto).
  assert (U : forallb (fun c => negb (is_underscore c)) fileName = true)
    by (apply A; unfold is_clean_char; intros c;
        rewrite !andb_true_iff, !negb_true_iff; tauto).
  rewrite squeeze_none by exact U.
  assert (E4 : drop_first_underscore fileName = fileName).
  { destruct fileName as [|c s]; [reflexivity |].
    cbn [forallb drop_first_underscore] in *. apply andb_true_iff in U.
    destruct U as [U _]. apply negb_true_iff in U. now rewrite U. }
  rewrite E4, drop_last_none by exact U.
  now apply firstn_all2.
Qed.

Lemma clean_name_unchanged_witness :
  sanitizeFileName (js "..") = js ".."
  /\ sanitizeFileName (js "Echo-Dot-(5th-Gen)") = js "Echo-Dot-(5th-Gen)".
Proof.
  split.
  - apply (clean_name_unchanged (js "..")); [reflexivity | cbn; lia].
  - apply (clean_name_unchanged (js "Echo-Dot-(5th-Gen)"));
      [reflexivity | cbn; lia].
Defined.

(** X22: a name made only of invalid characters, white space and underscores is
    sanitized to the empty string. *)
Theorem dropped_name_is_empty (fileName : jsstring) :
  forallb is_dropped_char fileName = true -> sanitizeFileName fileName = [].
Proof.
  intros H. rewrite sanitizeFileName_scan.
  set (s1 := flat_map (fun c => if is_invalid_char c then js "_" else [c])
                      fileName).
  assert (H1 : forallb (fun c => is_space c || is_underscore c) s1 = true).
  { unfold s1. clear s1. induction fileName as [|c s IH]; [reflexivity |].
    cbn [forallb flat_map] in *. apply andb_true_iff in H. destruct H as [Hc H].
    rewrite forallb_app, (IH H), andb_true_r.
    unfold is_dropped_char in Hc. destruct (is_invalid_char c); [reflexivity |].
    cbn [orb] in Hc. cbn [forallb]. now rewrite Hc. }
  set (s2 := squeeze is_space (js "_") false s1).
  assert (H2 : forallb is_underscore s2 = true).
  { apply forallb_forall. apply Forall_forall. apply squeeze_Forall.
    - repeat constructor.
    - intros c Hin Hc. rewrite forallb_forall in H1.
      specialize (H1 c Hin). now rewrite Hc in H1. }
  destruct (squeeze_all is_underscore (js "_") s2 H2) as [_ E]. rewrite E.
  now destruct s2.
Qed.

Lemma dropped_name_is_empty_witness : sanitizeFileName (js "?? / __ :*") = [].
Proof. apply (dropped_name_is_empty (js "?? / __ :*")). reflexivity. Defined.

(** ** The extension of a downloaded image *)

Lemma split_on_nonempty (sep : char) (s : jsstring) : split_on sep s <> [].
Proof.
  destruct s as [|c s]; cbn [split_on]; [discriminate |].
  destruct (N.eqb c sep); [discriminate |].
  destruct (split_on sep s); discriminate.
Qed.

Lemma split_on_app (sep : char) (pre tail : jsstring) :
  split_on sep (pre ++ sep :: tail) = split_on sep pre ++ split_on sep tail.
Proof.
  induction pre as [|c pre IH]; cbn [app split_on].
  - now rewrite N.eqb_refl.
  - rewrite IH. destruct (N.eqb c sep); [reflexivity |].
    pose proof (split_on_nonempty sep pre) as Hne.
    destruct (split_on sep pre); [congruence | reflexivity].
Qed.

Lemma split_on_lacks (sep : char) (s : jsstring) :
  lacks sep s = true -> split_on sep s = [s].
Proof.
  unfold lacks. induction s as [|c s IH]; cbn [forallb split_on]; [reflexivity |].
  rewrite andb_true_iff, negb_true_iff. intros [-> H]. now rewrite IH.
Qed.

Lemma pop_app (xs ys : list jsstring) : ys <> [] -> pop (xs ++ ys) = pop ys.
Proof.
  unfold pop. intros H. induction xs as [|x xs IH]; [reflexivity |].
  cbn [app]. rewrite <- IH. cbn [last].
  destruct (xs ++ ys) eqn:E; [| reflexivity].
  apply app_eq_nil in E. tauto.
Qed.

Lemma extension_of_url_known (url : jsstring) :
  In (extension_of_url url) urlExtensions.
Proof.
  unfold extension_of_url. cbv zeta.
  destruct (array_includes urlExtensions _) eqn:E.
  - now apply array_includes_In.
  - now left.
Qed.

Lemma extension_of_type_known (contentType : option jsstring) (e : jsstring) :
  extension_of_type contentType = Some e -> In e urlExtensions.
Proof.
  unfold extension_of_type. destruct contentType as [ct|]; [| discriminate].
  destruct (truthy ct); [| discriminate].
  destruct (includes ct (js "jpeg") || includes ct (js "jpg"));
    [intros H; injection H as <-; now left |].
  destruct (includes ct (js "png"));
    [intros H; injection H as <-; right; right; now left |].
  destruct (includes ct (js "webp"));
    [intros H; injection H as <-; right; right; right; now left |].
  destruct (includes ct (js "gif")); [| discriminate].
  intros H; injection H as <-. right; right; right; right; now left.
Qed.

(** X23: the extension is always one of jpg, jpeg, png, webp and gif, whatever
    the URL and the content type hold. *)
Theorem extension_is_known (url : jsstring) (contentType : option jsstring) :
  In (getImageExtension url contentType) urlExtensions.
Proof.
  unfold getImageExtension.
  destruct (extension_of_type contentType) as [e|] eqn:E.
  - now apply extension_of_type_known with contentType.
  - apply extension_of_url_known.
Qed.

(** X24: without a content type the extension is read after the last point of
    the whole URL and before the first question mark that follows: it is the
    lower-cased extension of a URL whose query holds no point, if that is one
    of the five, and jpg otherwise. *)
Theorem url_extension_read (pre ext : jsstring) (query : option jsstring) :
  lacks 46 ext = true -> lacks 63 ext = true ->
  lacks 46 (query_part query) = true ->
  getImageExtension (pre ++ js "." ++ ext ++ query_part query) None
  = if array_includes urlExtensions (toLowerCase ext)
    then toLowerCase ext else js "jpg".
Proof.
  intros Hd Hq Hr. unfold getImageExtension, extension_of_type, extension_of_url.
  cbv zeta. change (js ".") with [46%N]. cbn [app].
  rewrite split_on_app, pop_app by apply split_on_nonempty.
  assert (L : lacks 46 (ext ++ query_part query) = true)
    by (unfold lacks in *; now rewrite forallb_app, Hd, Hr).
  rewrite (split_on_lacks _ _ L). cbn [pop last].
  assert (E : hd [] (split_on 63 (ext ++ query_part query)) = ext).
  { destruct query as [q|]; cbn [query_part].
    - change (js "?") with [63%N]. cbn [app].
      now rewrite split_on_app, (split_on_lacks _ _ Hq).
    - now rewrite app_nil_r, (split_on_lacks _ _ Hq). }
  now rewrite E.
Qed.

Lemma url_extension_read_witness :
  getImageExtension
    (js "https://m.media-amazon.com/images/I/71abc._AC_SX500_.PNG?v=2") None
  = js "png".
Proof.
  apply (url_extension_read
           (js "https://m.media-amazon.com/images/I/71abc._AC_SX500_")
           (js "PNG") (Some (js "v=2"))); reflexivity.
Defined.

(** A point in the query hides the extension of the path, and the content
    type, when it names a format, decides alone. *)
Example extension_edge_cases :
  getImageExtension (js "https://m.media-amazon.com/images/I/71abc.png?v=1.2")
                    None = js "jpg"
  /\ getImageExtension (js "https://m.media-amazon.com/images/I/71abc.png")
                       (Some (js "image/webp")) = js "webp".
Proof. split; vm_compute; reflexivity. Qed.

(** ** POST /api/download-image *)

(** X25: the downloader is called exactly when [url] is truthy and [productId]
    and [index] are present, whatever their values ([null], [0] and the
    empty string included); every other request is answered 400
    "Missing required parameters". *)
Theorem download_request_validated (b : body) :
  let complete :=
    json_truthy_opt (member (js "url") b)
    && is_defined (member (js "productId") b)
    && is_defined (member (js "index") b) in
  DownloadApi.invokes_downloader (DownloadApi.post_download_image b) = complete
  /\ (complete = false ->
      DownloadApi.post_download_image b
      = DownloadApi.Reply
          (DownloadApi.JsonError 400 (js "Missing required parameters")))
  /\ (complete = true ->
      exists url productId index,
        member (js "url") b = Some url
        /\ member (js "productId") b = Some productId
        /\ member (js "index") b = Some index
        /\ DownloadApi.post_download_image b
           = DownloadApi.AwaitDownload url productId index
               (member (js "productTitle") b) DownloadApi.answer_download).
Proof.
  cbv zeta. unfold DownloadApi.post_download_image.
  destruct (member (js "url") b) as [url|];
    [| repeat split; discriminate].
  destruct (member (js "productId") b) as [productId|];
    [| cbn [json_truthy_opt is_defined]; rewrite andb_false_r;
       repeat split; discriminate].
  destruct (member (js "index") b) as [index|];
    [| cbn [json_truthy_opt is_defined]; rewrite andb_false_r;
       repeat split; discriminate].
  cbn [json_truthy_opt is_defined]. rewrite !andb_true_r.
  destruct (json_truthy url); cbn [negb DownloadApi.invokes_downloader];
    repeat split; try discriminate.
  intros _. now exists url, productId, index.
Qed.

(** ** The client's folder name *)

(** X26: the folder name the client announces is the first 50 code units of the
    one the server writes to, and "unknown-product" for a missing or empty
    title: the two agree when the server's name has at most 50 code units. *)
Theorem client_name_is_server_prefix (fileName : option jsstring) :
  Client.sanitizeFileName fileName
  = if truthy_opt fileName
    then firstn 50 (sanitizeFileName (or_empty fileName))
    else js "unknown-product".
Proof.
  unfold Client.sanitizeFileName, sanitizeFileName, substring.
  destruct (truthy_opt fileName); cbn [negb]; [| reflexivity].
  now rewrite firstn_firstn.
Qed.

(** ** The rendering of a Number *)

Lemma digit_char (n : N) : is_digit (48 + n mod 10) = true.
Proof.
  unfold is_digit, in_range.
  assert (H : (n mod 10 < 10)%N) by (apply N.mod_upper_bound; discriminate).
  revert H. generalize (n mod 10)%N. intros r H.
  apply andb_true_iff. split; apply N.leb_le; lia.
Qed.

Lemma digits_aux_digits (fuel : nat) :
  forall n acc, forallb is_digit acc = true ->
                forallb is_digit (digits_of_N_aux fuel n acc) = true.
Proof.
  induction fuel as [|fuel IH]; intros n acc H; [exact H |].
  rewrite digits_aux_S.
  assert (K : forallb is_digit ((48 + n mod 10)%N :: acc) = true)
    by (cbn [forallb]; now rewrite digit_char).
  destruct (n <? 10)%N; [exact K | now apply IH].
Qed.

Lemma digits_of_Z_digits (z : Z) : forallb is_digit (digits_of_Z z) = true.
Proof. unfold digits_of_Z, digits_of_N. now apply digits_aux_digits. Qed.

Lemma digit_is_number_char (s : jsstring) :
  forallb is_digit s = true -> forallb is_number_char s = true.
Proof.
  intros H. apply forallb_forall. intros c Hc.
  rewrite forallb_forall in H. unfold is_number_char. now rewrite (H c Hc).
Qed.

Lemma forallb_firstn {A : Type} (f : A -> bool) (n : nat) (l : list A) :
  forallb f l = true -> forallb f (firstn n l) = true.
Proof.
  intros H. rewrite <- (firstn_skipn n l), forallb_app in H.
  now apply andb_true_iff in H.
Qed.

Lemma forallb_skipn {A : Type} (f : A -> bool) (n : nat) (l : list A) :
  forallb f l = true -> forallb f (skipn n l) = true.
Proof.
  intros H. rewrite <- (firstn_skipn n l), forallb_app in H.
  now apply andb_true_iff in H.
Qed.

Lemma zeros_number_chars (n : Z) : forallb is_number_char (zeros n) = true.
Proof.
  unfold zeros. induction (Z.to_nat n) as [|k IH]; [reflexivity |].
  cbn [repeat forallb]. now rewrite IH.
Qed.

(** A Number is rendered with digits, a point, signs and the letters of
    "e", "Infinity" and "NaN" only. *)
Lemma number_to_string_chars (x : number) :
  forallb is_number_char (number_to_string x) = true.
Proof.
  destruct x as [s | s | | sg m e]; try reflexivity;
    [destruct s; reflexivity |].
  unfold number_to_string. destruct (fraction m e) as [num den].
  destruct (shortest_from 17 1 (S754_finite false m e) num den
              (decimal_exponent num den)) as [[s k] n].
  pose proof (digit_is_number_char _ (digits_of_Z_digits s)) as D.
  assert (T : forall ex,
            forallb is_number_char
              ((if (ex <? 0)%Z then js "e-" else js "e+")
               ++ digits_of_Z (Z.abs ex)) = true).
  { intros ex. rewrite forallb_app.
    rewrite (digit_is_number_char _ (digits_of_Z_digits (Z.abs ex))).
    now destruct (ex <? 0)%Z. }
  rewrite forallb_app. apply andb_true_iff. split; [now destruct sg |].
  destruct ((k <=? n)%Z && (n <=? 21)%Z).
  { now rewrite forallb_app, D, zeros_number_chars. }
  destruct ((0 <? n)%Z && (n <=? 21)%Z).
  { rewrite !forallb_app, forallb_firstn, forallb_skipn by exact D.
    reflexivity. }
  destruct ((-6 <? n)%Z && (n <=? 0)%Z).
  { now rewrite !forallb_app, D, zeros_number_chars. }
  cbv zeta. destruct (digits_of_Z s) as [|d ds']; [apply T |].
  cbn [forallb] in D. apply andb_true_iff in D. destruct D as [D1 D2].
  destruct ds' as [|d' ds].
  - cbn [forallb]. rewrite D1. apply T.
  - set (tl := d' :: ds) in *. cbn [forallb]. rewrite D1. cbn [andb].
    specialize (T (n - 1)%Z). rewrite forallb_app in T.
    now rewrite !forallb_app, D2, T.
Qed.

(** ** Joining paths *)

(** What [path.join] of Node.js returns on the same arguments. *)
Example posix_join_values :
  map (fun ab => posix_join (js (fst ab)) (js (snd ab)))
      [ ("/srv/downloads", "product-17"); ("/srv/downloads/product-17", "image-1.png");
        ("/srv/downloads", ""); ("/srv/downloads", "."); ("/srv/downloads", "..");
        ("/srv/downloads/product-17", "image-../../x1.png");
        ("/srv/downloads/", "a//b/"); ("", ""); ("a", "../../b"); ("/", "../x");
        ("./a", "b"); ("a/", ""); ("", "/"); (".", "") ; ("..", "..") ; ("a/..", "") ; ("a/../", "") ; ("/a", "...") ]
  = map js [ "/srv/downloads/product-17"; "/srv/downloads/product-17/image-1.png";
             "/srv/downloads"; "/srv/downloads"; "/srv";
             "/srv/downloads/product-17/x1.png";
             "/srv/downloads/a/b/"; "."; "../b"; "/x"; "a/b"; "a/"; "/"; "."; "../.."; "."; "./"; "/a/..." ].
Proof. vm_compute. reflexivity. Qed.

(** ** downloadImage, call by call *)

Lemma downloadImage_steps (path_join : jsstring -> jsstring -> jsstring)
    (dir : jsstring) (w : world) (imageUrl productId imageIndex : json)
    (productTitle : option json) :
  downloadImage path_join dir w imageUrl productId imageIndex productTitle
  = match folder_source productTitle productId with
    | JStr name =>
        let productFolder := path_join dir (sanitizeFileName name) in
        match mkdir w productFolder with
        | Thrown message => (Failed message, [Mkdir productFolder])
        | Returned _ =>
            match request w imageUrl with
            | Thrown message =>
                (Failed message, [Mkdir productFolder; Get imageUrl])
            | Returned contentType =>
                match extension_for imageUrl contentType with
                | None =>
                    (Failed (js "url.split is not a function"),
                     [Mkdir productFolder; Get imageUrl])
                | Some extension =>
                    let filename :=
                      js "image-" ++ to_string (plus_one imageIndex)
                      ++ js "." ++ extension in
                    let filepath := path_join productFolder filename in
                    let info := path_join productFolder (js "product-info.json") in
                    match save w filepath with
                    | Thrown message =>
                        (Failed message,
                         [Mkdir productFolder; Get imageUrl; Save filepath])
                    | Returned _ =>
                        match stat_size w filepath with
                        | Thrown message =>
                            (Failed message,
                             [ Mkdir productFolder; Get imageUrl; Save filepath;
                               WriteFile info; Stat filepath ])
                        | Returned size =>
                            (Downloaded filename filepath productFolder size,
                             [ Mkdir productFolder; Get imageUrl; Save filepath;
                               WriteFile info; Stat filepath ])
                        end
                    end
                end
            end
        end
    | _ => (Failed (js "fileName.replace is not a function"), [])
    end.
Proof.
  unfold downloadImage.
  assert (E : (if json_truthy match productTitle with
                              | Some t => t
                              | None => JStr []
                              end
               then match productTitle with
                    | Some t => t
                    | None => JStr []
                    end
               else JStr (js "product-" ++ to_string productId))
              = folder_source productTitle productId).
  { unfold folder_source. destruct productTitle; reflexivity. }
  rewrite E. clear E.
  destruct (folder_source productTitle productId) as [| | | name | |];
    try reflexivity.
  unfold bind, as_string, ret, perform, try_catch, throw. cbv zeta. cbn [app].
  destruct (mkdir w _); [| reflexivity].
  destruct (request w imageUrl) as [contentType|]; [| reflexivity].
  unfold extension_for.
  destruct (extension_of_type contentType) as [extension|].
  - destruct (save w _); [| reflexivity].
    destruct (writeFile w _); cbn [app]; destruct (stat_size w _); reflexivity.
  - destruct imageUrl; try reflexivity.
    destruct (save w _); [| reflexivity].
    destruct (writeFile w _); cbn [app]; destruct (stat_size w _); reflexivity.
Qed.

Lemma extension_for_known (imageUrl : json) (contentType : option jsstring)
    (e : jsstring) :
  extension_for imageUrl contentType = Some e -> In e urlExtensions.
Proof.
  unfold extension_for.
  destruct (extension_of_type contentType) as [e'|] eqn:T.
  - intros H. injection H as <-. now apply extension_of_type_known with contentType.
  - destruct imageUrl as [| | | url | |]; try discriminate.
    intros H. injection H as <-. apply extension_of_url_known.
Qed.

Lemma numbered_name_chars (x : number) (extension : jsstring) :
  In extension urlExtensions ->
  forallb is_file_name_char
    (js "image-" ++ number_to_string x ++ js "." ++ extension) = true.
Proof.
  intros He. rewrite !forallb_app.
  assert (N : forallb is_file_name_char (number_to_string x) = true).
  { apply forallb_forall. intros c Hc.
    pose proof (number_to_string_chars x) as K. rewrite forallb_forall in K.
    unfold is_file_name_char. now rewrite (K c Hc). }
  rewrite N.
  assert (E : forallb is_file_name_char extension = true).
  { repeat (destruct He as [<- | He]; [reflexivity |]). destruct He. }
  now rewrite E.
Qed.

Lemma file_name_chars_safe (s : jsstring) :
  forallb is_file_name_char s = true ->
  lacks 47 s = true /\ lacks 92 s = true
  /\ forallb (fun c => in_range 32 126 c) s = true.
Proof.
  intros H.
  assert (K : forall c, is_file_name_char c = true ->
                        negb (N.eqb c 47) = true /\ negb (N.eqb c 92) = true
                        /\ in_range 32 126 c = true).
  { intros c. unfold is_file_name_char, is_number_char, is_digit, is_lower,
      in_range.
    cbn [js list_ascii_of_string map existsb]. 
    rewrite !orb_true_iff, !andb_true_iff, !N.leb_le, !N.eqb_eq.
    rewrite !negb_true_iff, !N.eqb_neq.
    change (N_of_ascii ".") with 46%N. change (N_of_ascii "+") with 43%N.
    change (N_of_ascii "-") with 45%N. change (N_of_ascii "e") with 101%N.
    change (N_of_ascii "I") with 73%N. change (N_of_ascii "n") with 110%N.
    change (N_of_ascii "f") with 102%N. change (N_of_ascii "i") with 105%N.
    change (N_of_ascii "t") with 116%N. change (N_of_ascii "y") with 121%N.
    change (N_of_ascii "N") with 78%N. change (N_of_ascii "a") with 97%N.
    lia. }
  unfold lacks. rewrite !forallb_forall. rewrite forallb_forall in H.
  repeat split; intros c Hc; apply (K c (H c Hc)).
Qed.

(** ** The file of a numbered image *)

Lemma downloaded_with_number (path_join : jsstring -> jsstring -> jsstring)
    (dir : jsstring) (w : world) (imageUrl productId : json) (x : number)
    (productTitle : option json) (filename filepath productFolder : jsstring)
    (size : number) :
  fst (downloadImage path_join dir w imageUrl productId (JNum x) productTitle)
  = Downloaded filename filepath productFolder size ->
  exists name extension,
    folder_source productTitle productId = JStr name
    /\ productFolder = path_join dir (sanitizeFileName name)
    /\ In extension urlExtensions
    /\ filename = js "image-" ++ number_to_string (num_add x (of_Z 1))
                  ++ js "." ++ extension
    /\ filepath = path_join productFolder filename
    /\ forallb is_file_name_char filename = true.
Proof.
  rewrite downloadImage_steps.
  destruct (folder_source productTitle productId) as [| | | name | |];
    try discriminate.
  cbv zeta. destruct (mkdir w _); [| discriminate].
  destruct (request w imageUrl) as [contentType|]; [| discriminate].
  destruct (extension_for imageUrl contentType) as [extension|] eqn:E;
    [| discriminate].
  destruct (save w _); [| discriminate].
  destruct (stat_size w _); [| discriminate].
  cbn [fst plus_one to_string]. intros H. injection H as <- <- <- <-.
  pose proof (@extension_for_known _ _ _ E) as Hk.
  pose proof (@numbered_name_chars (num_add x (of_Z 1)) _ Hk) as Hc.
  exists name, extension. now repeat split.
Qed.

(** X27: when the index is a Number [x], a download that succeeds has made
    the folder, sent the request, written the image, tried to write
    product-info.json and read the size of the image, in this order and
    nothing else; the image is the file "image-", [x + 1], a point and one
    of the five extensions, joined by [path.join] to the folder made from
    the sanitized title (or from "product-" and the product id); the file
    name holds digits, signs, points and letters only, so no slash and no
    backslash. *)
Theorem numbered_image_file (path_join : jsstring -> jsstring -> jsstring)
    (dir : jsstring) (w : world) (imageUrl productId : json) (x : number)
    (productTitle : option json) :
  match downloadImage path_join dir w imageUrl productId (JNum x)
                      productTitle with
  | (Downloaded filename filepath productFolder size, calls) =>
      exists name extension,
        folder_source productTitle productId = JStr name
        /\ productFolder = path_join dir (sanitizeFileName name)
        /\ In extension urlExtensions
        /\ filename = js "image-" ++ number_to_string (num_add x (of_Z 1))
                      ++ js "." ++ extension
        /\ filepath = path_join productFolder filename
        /\ calls = [ Mkdir productFolder; Get imageUrl; Save filepath;
                     WriteFile (path_join productFolder
                                          (js "product-info.json"));
                     Stat filepath ]
        /\ save w filepath = Returned tt
        /\ stat_size w filepath = Returned size
        /\ forallb is_file_name_char filename = true
        /\ lacks 47 filename = true /\ lacks 92 filename = true
  | (Failed _, _) => True
  end.
Proof.
  rewrite downloadImage_steps.
  destruct (folder_source productTitle productId) as [| | | name | |];
    try exact I.
  cbv zeta. destruct (mkdir w _); [| exact I].
  destruct (request w imageUrl) as [contentType|]; [| exact I].
  destruct (extension_for imageUrl contentType) as [extension|] eqn:E;
    [| exact I].
  destruct (save w _) as [[]|] eqn:Es; [| exact I].
  destruct (stat_size w _) as [size|] eqn:Et; [| exact I].
  cbn [plus_one to_string].
  pose proof (@extension_for_known _ _ _ E) as Hk.
  pose proof (@numbered_name_chars (num_add x (of_Z 1)) _ Hk) as Hc.
  destruct (@file_name_chars_safe _ Hc) as (S1 & S2 & _).
  exists name, extension. now repeat split.
Qed.

(** A string index is not checked: it goes into the file name as it is, and
    [path.join] resolves the ".." segments it brings; here the image is
    written outside the downloads directory. *)
Example string_index_in_file_name :
  downloadImage posix_join (js "/srv/downloads") world_without_info
    (JStr (js "https://m.media-amazon.com/i.jpg")) (JNum (of_Z 17))
    (JStr (js "../../../../x")) None
  = (Downloaded (js "image-../../../../x1.png") (js "/srv/x1.png")
       (js "/srv/downloads/product-17") (of_Z 1234),
     [ Mkdir (js "/srv/downloads/product-17");
       Get (JStr (js "https://m.media-amazon.com/i.jpg"));
       Save (js "/srv/x1.png");
       WriteFile (js "/srv/downloads/product-17/product-info.json");
       Stat (js "/srv/x1.png") ]).
Proof. vm_compute; reflexivity. Qed.

(** ** Failures of a download *)

(** X28: whether product-info.json could be written has no effect on what
    [downloadImage] resolves to, nor on the calls it makes. *)
Theorem product_info_failure_is_ignored
    (path_join : jsstring -> jsstring -> jsstring) (dir : jsstring) (w : world)
    (writeFile' : jsstring -> outcome unit)
    (imageUrl productId imageIndex : json) (productTitle : option json) :
  downloadImage path_join dir
    (World (mkdir w) (request w) (save w) writeFile' (stat_size w))
    imageUrl productId imageIndex productTitle
  = downloadImage path_join dir w imageUrl productId imageIndex productTitle.
Proof.
  rewrite !downloadImage_steps. cbn [mkdir request save stat_size].
  reflexivity.
Qed.

(** X29: a truthy title that is no string fails the download before any call is
    made; a folder that cannot be made fails it before the request; and a
    request that fails leaves the folder made and nothing written. *)
Theorem download_stops_at_first_failure
    (path_join : jsstring -> jsstring -> jsstring) (dir : jsstring) (w : world)
    (imageUrl productId imageIndex : json) (productTitle : option json) :
  let result :=
    downloadImage path_join dir w imageUrl productId imageIndex productTitle in
  ((forall name, folder_source productTitle productId <> JStr name) ->
   result = (Failed (js "fileName.replace is not a function"), []))
  /\ (forall name,
        folder_source productTitle productId = JStr name ->
        let productFolder := path_join dir (sanitizeFileName name) in
        (forall message,
           mkdir w productFolder = Thrown message ->
           result = (Failed message, [Mkdir productFolder]))
        /\ (forall message,
              mkdir w productFolder = Returned tt ->
              request w imageUrl = Thrown message ->
              result = (Failed message, [Mkdir productFolder; Get imageUrl]))).
Proof.
  cbv zeta. rewrite downloadImage_steps. split.
  - intros H. destruct (folder_source productTitle productId); try reflexivity.
    now destruct (H s).
  - intros name ->. cbv zeta. split.
    + now intros message ->.
    + now intros message -> ->.
Qed.

(** ** The route and the downloader together *)



Example numbered_download_streamed :
  DownloadApi.serve
    (fun url productId index productTitle =>
       fst (downloadImage posix_join (js "/srv/downloads")
              world_without_info url productId index productTitle))
    [ (js "url", JStr (js "https://m.media-amazon.com/images/I/71abc.jpg"));
      (js "productId", JNum (of_Z 17)); (js "index", JNum (of_Z 0)) ]
  = DownloadApi.FileStream
      (js "attachment; filename=" ++ js dquote ++ js "image-1.png" ++ js dquote)
      (js "image/jpeg") (js "/srv/downloads/product-17/image-1.png").
Proof. vm_compute; reflexivity. Qed.
